(** * react-hot-loader, [src/hot.dev.js]: the hot-update orchestrator

    A shallow embedding of [hot], [makeHotExport], [updateInstances],
    [deepUpdate], [checkTailUpdates], [chargeFailbackTimer] and the
    lifecycle methods of [ExportedComponent], over an explicit world state
    that stands for the JavaScript heap, the timer table and the job queue
    of the host's event loop.

    Closures are defunctionalised: a callback handed to [setTimeout], to a
    queue or to a promise is a constructor carrying the variables the
    closure captured, and one interpreter per callback kind runs its body.

    React and the bundler are outside the file.  A call into them is an
    entry in the trace: [inst.forceUpdate()] returns without calling back
    into this file, and the re-require either returns or throws. *)

From Stdlib Require Import ZArith Lia.
From stdpp Require Import gmap strings list pretty.

Local Open Scope string_scope.
Local Open Scope Z_scope.

(** ** JavaScript values *)

(** The values that reach [possibleError] and the [id], [i] and [filename]
    fields of a module object.  Numbers are integers (module ids). *)
Inductive jsval : Type :=
| VUndefined
| VNull
| VBool (b : bool)
| VNum (n : Z)
| VStr (s : string)
| VError (message : string)
| VObject (tag : string).

Global Instance jsval_eq_dec : EqDecision jsval.
Proof. solve_decision. Defined.

(** [ToBoolean]: what [if (v)], [!v] and [v && ...] test. *)
Definition truthy (v : jsval) : bool :=
  match v with
  | VUndefined | VNull => false
  | VBool b => b
  | VNum n => negb (n =? 0)
  | VStr s => negb (String.eqb s "")
  | VError _ | VObject _ => true
  end.

(** [v instanceof Error]. *)
Definition instanceofError (v : jsval) : bool :=
  match v with
  | VError _ => true
  | _ => false
  end.

(** [a || b]. *)
Definition js_or (a b : jsval) : jsval := if truthy a then a else b.

(** [ToString], as a template literal [`${v}`] and a property key apply it. *)
Definition toString (v : jsval) : string :=
  match v with
  | VUndefined => "undefined"
  | VNull => "null"
  | VBool true => "true"
  | VBool false => "false"
  | VNum n => pretty n
  | VStr s => s
  | VError m => "Error: " ++ m
  | VObject _ => "[object Object]"
  end.

(** What a call does: it returns, or it throws. *)
Inductive Completion (A : Type) : Type :=
| Returned (a : A)
| Thrown (e : jsval).
Arguments Returned {A} a.
Arguments Thrown {A} e.

(** ** Module objects and components *)

(** [module.hot] of the bundler: [accept] is always there, [addStatusHandler]
    only with Webpack; [hot_status] is what [status()] answers. *)
Record HotApi : Type := {
  hot_addStatusHandler : bool;
  hot_status : string
}.

Record SourceModule : Type := {
  sm_id : jsval;
  sm_i : jsval;
  sm_filename : jsval;
  sm_hot : option HotApi
}.

(** A React component type given to the export wrapper, by identity. *)
Record Component : Type := { comp_ident : nat }.

(** The second argument of the export wrapper, spread into [AppContainer]. *)
Definition Props : Type := list (string * jsval).

(** ** Callbacks, defunctionalised *)

(** The two arrow functions given to [setTimeout].  [TailCheck] carries what
    the callback inside [checkTailUpdates] closes over: the module, the epoch
    [gen], and [runLimit]; [cycle] is the identity of that closure
    environment, one per run of the render task. *)
Inductive TimerCallback : Type :=
| FailbackFire (id : jsval)
| TailCheck (moduleId : jsval) (gen : Z) (cycle : nat) (runLimit : Z).

Record Timer : Type := {
  t_id : nat;
  t_due : Z;
  t_callback : TimerCallback
}.

(** The bodies given to the two queues. *)
Inductive Work : Type :=
| ReloadTask (moduleId : jsval)
| RenderTask (moduleId : jsval).

(** [.then(deepUpdate)]: the only promise reaction of the file. *)
Inductive Micro : Type :=
| ThenDeepUpdate (moduleId : jsval).

(** ** Log and collaborator calls, in program order *)

Inductive Event : Type :=
| ConsoleError (args : list jsval)
| LoggerError (msg : string)
| LoggerWarn (msg : string)
| RequireIndirect (moduleId : jsval)
| BatchedUpdates
| ForceUpdate (inst : nat)
| HotRegister (c : Component) (name : string) (uid : string)
| HoistStatics (source : Component).

Global Instance Component_eq_dec : EqDecision Component.
Proof. solve_decision. Defined.

Global Instance Event_eq_dec : EqDecision Event.
Proof. solve_decision. Defined.

(** How many times [inst.forceUpdate()] was called. *)
Definition forceUpdates (inst : nat) (trace : list Event) : nat :=
  count_occ Event_eq_dec trace (ForceUpdate inst).

(** ** Collaborators of this repository that are not in [hot.dev.js] *)

(** Modelled from the spec: the record [hotModule] keeps per module id
    ([global/modules]), "ModuleRecord { id: string, instances: ordered
    collection of ProxyHandle, pendingTimer: optional timer handle }".
    A ProxyHandle is the identity of a mounted [ExportedComponent]. *)
Record ModuleRecord : Type := {
  mr_id : string;
  mr_instances : list nat;
  mr_pendingTimer : option nat
}.

(** Modelled from the spec: a queue of [utils/runQueue], "an ordered sequence
    of pending tasks and an in-flight flag"; a QueueTask is "a deferred unit
    of work plus its completion signal", here the reactions attached to the
    handle with [.then]. *)
Record QueueTask : Type := {
  qt_work : Work;
  qt_then : list Micro
}.

(** Modelled from the spec: the state of one queue of [utils/runQueue], the
    pending sequence and the in-flight flag. *)
Record Queue : Type := {
  q_pending : list QueueTask;
  q_inflight : bool
}.

Definition idleQueue : Queue := {| q_pending := []; q_inflight := false |}.

(** ** The world *)

Record World : Type := {
  (* host event loop *)
  w_now : Z;
  w_timers : list Timer;
  w_nextTimer : nat;
  w_micro : list Micro;
  w_trace : list Event;
  (* global/generation, global/modules, errorReporter, configuration *)
  w_generation : Z;
  w_modules : gmap string ModuleRecord;
  w_isOpened : SourceModule -> bool;
  w_lastModuleOpened : string;
  w_exceptions : list string;
  w_trackTailUpdates : bool;
  (* module-level constants of hot.dev.js *)
  w_requireQueue : Queue;
  w_renderQueue : Queue;
  (* callbacks the bundler holds *)
  w_acceptHandlers : list jsval;
  w_statusHandlers : list jsval;
  (* closure state *)
  w_firstHotRegistered : gmap nat bool;
  w_nextHot : nat;
  w_nextCycle : nat
}.

Definition set_now (x : Z) (w : World) : World :=
  {| w_now := x; w_timers := w_timers w; w_nextTimer := w_nextTimer w;
     w_micro := w_micro w; w_trace := w_trace w;
     w_generation := w_generation w; w_modules := w_modules w;
     w_isOpened := w_isOpened w; w_lastModuleOpened := w_lastModuleOpened w;
     w_exceptions := w_exceptions w; w_trackTailUpdates := w_trackTailUpdates w;
     w_requireQueue := w_requireQueue w; w_renderQueue := w_renderQueue w;
     w_acceptHandlers := w_acceptHandlers w; w_statusHandlers := w_statusHandlers w;
     w_firstHotRegistered := w_firstHotRegistered w; w_nextHot := w_nextHot w;
     w_nextCycle := w_nextCycle w |}.

Definition set_timers (x : list Timer) (w : World) : World :=
  {| w_now := w_now w; w_timers := x; w_nextTimer := w_nextTimer w;
     w_micro := w_micro w; w_trace := w_trace w;
     w_generation := w_generation w; w_modules := w_modules w;
     w_isOpened := w_isOpened w; w_lastModuleOpened := w_lastModuleOpened w;
     w_exceptions := w_exceptions w; w_trackTailUpdates := w_trackTailUpdates w;
     w_requireQueue := w_requireQueue w; w_renderQueue := w_renderQueue w;
     w_acceptHandlers := w_acceptHandlers w; w_statusHandlers := w_statusHandlers w;
     w_firstHotRegistered := w_firstHotRegistered w; w_nextHot := w_nextHot w;
     w_nextCycle := w_nextCycle w |}.

Definition set_nextTimer (x : nat) (w : World) : World :=
  {| w_now := w_now w; w_timers := w_timers w; w_nextTimer := x;
     w_micro := w_micro w; w_trace := w_trace w;
     w_generation := w_generation w; w_modules := w_modules w;
     w_isOpened := w_isOpened w; w_lastModuleOpened := w_lastModuleOpened w;
     w_exceptions := w_exceptions w; w_trackTailUpdates := w_trackTailUpdates w;
     w_requireQueue := w_requireQueue w; w_renderQueue := w_renderQueue w;
     w_acceptHandlers := w_acceptHandlers w; w_statusHandlers := w_statusHandlers w;
     w_firstHotRegistered := w_firstHotRegistered w; w_nextHot := w_nextHot w;
     w_nextCycle := w_nextCycle w |}.

Definition set_micro (x : list Micro) (w : World) : World :=
  {| w_now := w_now w; w_timers := w_timers w; w_nextTimer := w_nextTimer w;
     w_micro := x; w_trace := w_trace w;
     w_generation := w_generation w; w_modules := w_modules w;
     w_isOpened := w_isOpened w; w_lastModuleOpened := w_lastModuleOpened w;
     w_exceptions := w_exceptions w; w_trackTailUpdates := w_trackTailUpdates w;
     w_requireQueue := w_requireQueue w; w_renderQueue := w_renderQueue w;
     w_acceptHandlers := w_acceptHandlers w; w_statusHandlers := w_statusHandlers w;
     w_firstHotRegistered := w_firstHotRegistered w; w_nextHot := w_nextHot w;
     w_nextCycle := w_nextCycle w |}.

Definition set_trace (x : list Event) (w : World) : World :=
  {| w_now := w_now w; w_timers := w_timers w; w_nextTimer := w_nextTimer w;
     w_micro := w_micro w; w_trace := x;
     w_generation := w_generation w; w_modules := w_modules w;
     w_isOpened := w_isOpened w; w_lastModuleOpened := w_lastModuleOpened w;
     w_exceptions := w_exceptions w; w_trackTailUpdates := w_trackTailUpdates w;
     w_requireQueue := w_requireQueue w; w_renderQueue := w_renderQueue w;
     w_acceptHandlers := w_acceptHandlers w; w_statusHandlers := w_statusHandlers w;
     w_firstHotRegistered := w_firstHotRegistered w; w_nextHot := w_nextHot w;
     w_nextCycle := w_nextCycle w |}.

Definition set_generation (x : Z) (w : World) : World :=
  {| w_now := w_now w; w_timers := w_timers w; w_nextTimer := w_nextTimer w;
     w_micro := w_micro w; w_trace := w_trace w;
     w_generation := x; w_modules := w_modules w;
     w_isOpened := w_isOpened w; w_lastModuleOpened := w_lastModuleOpened w;
     w_exceptions := w_exceptions w; w_trackTailUpdates := w_trackTailUpdates w;
     w_requireQueue := w_requireQueue w; w_renderQueue := w_renderQueue w;
     w_acceptHandlers := w_acceptHandlers w; w_statusHandlers := w_statusHandlers w;
     w_firstHotRegistered := w_firstHotRegistered w; w_nextHot := w_nextHot w;
     w_nextCycle := w_nextCycle w |}.

Definition set_modules (x : gmap string ModuleRecord) (w : World) : World :=
  {| w_now := w_now w; w_timers := w_timers w; w_nextTimer := w_nextTimer w;
     w_micro := w_micro w; w_trace := w_trace w;
     w_generation := w_generation w; w_modules := x;
     w_isOpened := w_isOpened w; w_lastModuleOpened := w_lastModuleOpened w;
     w_exceptions := w_exceptions w; w_trackTailUpdates := w_trackTailUpdates w;
     w_requireQueue := w_requireQueue w; w_renderQueue := w_renderQueue w;
     w_acceptHandlers := w_acceptHandlers w; w_statusHandlers := w_statusHandlers w;
     w_firstHotRegistered := w_firstHotRegistered w; w_nextHot := w_nextHot w;
     w_nextCycle := w_nextCycle w |}.

Definition set_exceptions (x : list string) (w : World) : World :=
  {| w_now := w_now w; w_timers := w_timers w; w_nextTimer := w_nextTimer w;
     w_micro := w_micro w; w_trace := w_trace w;
     w_generation := w_generation w; w_modules := w_modules w;
     w_isOpened := w_isOpened w; w_lastModuleOpened := w_lastModuleOpened w;
     w_exceptions := x; w_trackTailUpdates := w_trackTailUpdates w;
     w_requireQueue := w_requireQueue w; w_renderQueue := w_renderQueue w;
     w_acceptHandlers := w_acceptHandlers w; w_statusHandlers := w_statusHandlers w;
     w_firstHotRegistered := w_firstHotRegistered w; w_nextHot := w_nextHot w;
     w_nextCycle := w_nextCycle w |}.

Definition set_requireQueue (x : Queue) (w : World) : World :=
  {| w_now := w_now w; w_timers := w_timers w; w_nextTimer := w_nextTimer w;
     w_micro := w_micro w; w_trace := w_trace w;
     w_generation := w_generation w; w_modules := w_modules w;
     w_isOpened := w_isOpened w; w_lastModuleOpened := w_lastModuleOpened w;
     w_exceptions := w_exceptions w; w_trackTailUpdates := w_trackTailUpdates w;
     w_requireQueue := x; w_renderQueue := w_renderQueue w;
     w_acceptHandlers := w_acceptHandlers w; w_statusHandlers := w_statusHandlers w;
     w_firstHotRegistered := w_firstHotRegistered w; w_nextHot := w_nextHot w;
     w_nextCycle := w_nextCycle w |}.

Definition set_renderQueue (x : Queue) (w : World) : World :=
  {| w_now := w_now w; w_timers := w_timers w; w_nextTimer := w_nextTimer w;
     w_micro := w_micro w; w_trace := w_trace w;
     w_generation := w_generation w; w_modules := w_modules w;
     w_isOpened := w_isOpened w; w_lastModuleOpened := w_lastModuleOpened w;
     w_exceptions := w_exceptions w; w_trackTailUpdates := w_trackTailUpdates w;
     w_requireQueue := w_requireQueue w; w_renderQueue := x;
     w_acceptHandlers := w_acceptHandlers w; w_statusHandlers := w_statusHandlers w;
     w_firstHotRegistered := w_firstHotRegistered w; w_nextHot := w_nextHot w;
     w_nextCycle := w_nextCycle w |}.

Definition set_acceptHandlers (x : list jsval) (w : World) : World :=
  {| w_now := w_now w; w_timers := w_timers w; w_nextTimer := w_nextTimer w;
     w_micro := w_micro w; w_trace := w_trace w;
     w_generation := w_generation w; w_modules := w_modules w;
     w_isOpened := w_isOpened w; w_lastModuleOpened := w_lastModuleOpened w;
     w_exceptions := w_exceptions w; w_trackTailUpdates := w_trackTailUpdates w;
     w_requireQueue := w_requireQueue w; w_renderQueue := w_renderQueue w;
     w_acceptHandlers := x; w_statusHandlers := w_statusHandlers w;
     w_firstHotRegistered := w_firstHotRegistered w; w_nextHot := w_nextHot w;
     w_nextCycle := w_nextCycle w |}.

Definition set_statusHandlers (x : list jsval) (w : World) : World :=
  {| w_now := w_now w; w_timers := w_timers w; w_nextTimer := w_nextTimer w;
     w_micro := w_micro w; w_trace := w_trace w;
     w_generation := w_generation w; w_modules := w_modules w;
     w_isOpened := w_isOpened w; w_lastModuleOpened := w_lastModuleOpened w;
     w_exceptions := w_exceptions w; w_trackTailUpdates := w_trackTailUpdates w;
     w_requireQueue := w_requireQueue w; w_renderQueue := w_renderQueue w;
     w_acceptHandlers := w_acceptHandlers w; w_statusHandlers := x;
     w_firstHotRegistered := w_firstHotRegistered w; w_nextHot := w_nextHot w;
     w_nextCycle := w_nextCycle w |}.

Definition set_firstHotRegistered (x : gmap nat bool) (w : World) : World :=
  {| w_now := w_now w; w_timers := w_timers w; w_nextTimer := w_nextTimer w;
     w_micro := w_micro w; w_trace := w_trace w;
     w_generation := w_generation w; w_modules := w_modules w;
     w_isOpened := w_isOpened w; w_lastModuleOpened := w_lastModuleOpened w;
     w_exceptions := w_exceptions w; w_trackTailUpdates := w_trackTailUpdates w;
     w_requireQueue := w_requireQueue w; w_renderQueue := w_renderQueue w;
     w_acceptHandlers := w_acceptHandlers w; w_statusHandlers := w_statusHandlers w;
     w_firstHotRegistered := x; w_nextHot := w_nextHot w;
     w_nextCycle := w_nextCycle w |}.

Definition set_nextHot (x : nat) (w : World) : World :=
  {| w_now := w_now w; w_timers := w_timers w; w_nextTimer := w_nextTimer w;
     w_micro := w_micro w; w_trace := w_trace w;
     w_generation := w_generation w; w_modules := w_modules w;
     w_isOpened := w_isOpened w; w_lastModuleOpened := w_lastModuleOpened w;
     w_exceptions := w_exceptions w; w_trackTailUpdates := w_trackTailUpdates w;
     w_requireQueue := w_requireQueue w; w_renderQueue := w_renderQueue w;
     w_acceptHandlers := w_acceptHandlers w; w_statusHandlers := w_statusHandlers w;
     w_firstHotRegistered := w_firstHotRegistered w; w_nextHot := x;
     w_nextCycle := w_nextCycle w |}.

Definition set_nextCycle (x : nat) (w : World) : World :=
  {| w_now := w_now w; w_timers := w_timers w; w_nextTimer := w_nextTimer w;
     w_micro := w_micro w; w_trace := w_trace w;
     w_generation := w_generation w; w_modules := w_modules w;
     w_isOpened := w_isOpened w; w_lastModuleOpened := w_lastModuleOpened w;
     w_exceptions := w_exceptions w; w_trackTailUpdates := w_trackTailUpdates w;
     w_requireQueue := w_requireQueue w; w_renderQueue := w_renderQueue w;
     w_acceptHandlers := w_acceptHandlers w; w_statusHandlers := w_statusHandlers w;
     w_firstHotRegistered := w_firstHotRegistered w; w_nextHot := w_nextHot w;
     w_nextCycle := x |}.

(** A fresh page: nothing registered, both queues idle, Generation at 0. *)
Definition initialWorld (track : bool) : World :=
  {| w_now := 0; w_timers := []; w_nextTimer := 1%nat;
     w_micro := []; w_trace := [];
     w_generation := 0; w_modules := ∅;
     w_isOpened := fun _ => false; w_lastModuleOpened := "";
     w_exceptions := []; w_trackTailUpdates := track;
     w_requireQueue := idleQueue; w_renderQueue := idleQueue;
     w_acceptHandlers := []; w_statusHandlers := [];
     w_firstHotRegistered := ∅; w_nextHot := 0%nat;
     w_nextCycle := 0%nat |}.

(** ** Host primitives: sinks and timers *)

(** [console.error], [logger.error], [logger.warn] and every call into
    React or the bundler leave one entry in the trace. *)
Definition emit (e : Event) (w : World) : World :=
  set_trace (w_trace w ++ [e]) w.

(** [setTimeout(cb, delay)]: a fresh handle, due [delay] ms from now. *)
Definition setTimeout (cb : TimerCallback) (delay : Z) (w : World) : nat * World :=
  let id := w_nextTimer w in
  (id, set_nextTimer (S id)
         (set_timers (w_timers w ++ [{| t_id := id; t_due := w_now w + delay;
                                        t_callback := cb |}]) w)).

(** [clearTimeout(id)]; a handle that already fired or was cleared is not in
    the table and the call does nothing. *)
Definition clearTimeout (id : nat) (w : World) : World :=
  set_timers (filter (fun t => t_id t ≠ id) (w_timers w)) w.

(** ** [global/generation], [global/modules], [errorReporter] *)

(** Modelled from the spec: [enterHotUpdate] of [global/generation],
    "enter() increments the counter and returns void". *)
Definition enterHotUpdate (w : World) : World :=
  set_generation (w_generation w + 1) w.

(** Modelled from the spec: [getHotGeneration] of [global/generation],
    "current() returns the counter's value". *)
Definition getHotGeneration (w : World) : Z := w_generation w.

(** Modelled from the spec: the record [hotModule] creates on first access,
    with no instance and no timer. *)
Definition createHotModule (key : string) : ModuleRecord :=
  {| mr_id := key; mr_instances := []; mr_pendingTimer := None |}.

(** Modelled from the spec: [hotModule] of [global/modules], "get(moduleId)
    returns-or-creates the ModuleRecord", keyed by the id as a property key.
    The record is returned by reference: callers read and write it through
    the registry under the same key. *)
Definition hotModule (moduleId : jsval) (w : World) : World :=
  match w_modules w !! toString moduleId with
  | Some _ => w
  | None => set_modules (<[toString moduleId := createHotModule (toString moduleId)]> (w_modules w)) w
  end.

(** [module.instances] for the record [hotModule(moduleId)] returned. *)
Definition moduleInstances (moduleId : jsval) (w : World) : list nat :=
  match w_modules w !! toString moduleId with
  | Some r => mr_instances r
  | None => []
  end.

(** [module.instances = l] on that record. *)
Definition setModuleInstances (moduleId : jsval) (l : list nat) (w : World) : World :=
  let r := default (createHotModule (toString moduleId)) (w_modules w !! toString moduleId) in
  set_modules (<[toString moduleId :=
                  {| mr_id := mr_id r; mr_instances := l;
                     mr_pendingTimer := mr_pendingTimer r |}]> (w_modules w)) w.

(** Modelled from the spec: [isOpened] of [global/modules], the boolean "is
    this module currently open/being processed" query. *)
Definition isModuleOpened (sm : SourceModule) (w : World) : bool := w_isOpened w sm.

(** Modelled from the spec: [getLastModuleOpened] of [global/modules], "the
    last module the host was in the middle of processing". *)
Definition getLastModuleOpened (w : World) : string := w_lastModuleOpened w.

(** Modelled from the spec: [clearExceptions] of [errorReporter], "clears any
    pending exception state". *)
Definition clearExceptions (w : World) : World := set_exceptions [] w.

(** Modelled from the spec: [logException] of [errorReporter], the
    "exception-report sink"; the report is the object's [toString()]. *)
Definition logException (report : string) (w : World) : World :=
  set_exceptions (w_exceptions w ++ [report]) w.

(** ** The host *)

(** What the bundler and React supply: [requireIndirect] is
    [__webpack_require__] (or [require]), which re-executes a module and may
    throw; [unstable_batchedUpdates] says whether [ReactDOM] has the batching
    primitive; [getComponentDisplayName] is the display-name derivation of
    [internal/reactUtils]. *)
Record Host : Type := {
  requireIndirect : jsval -> Completion unit;
  unstable_batchedUpdates : bool;
  getComponentDisplayName : Component -> string
}.

(** The double-quote character of the log messages. *)
Definition dquote : string := String (Ascii.ascii_of_nat 34) "".

(** The line feed of the multi-line message. *)
Definition newline : string := String (Ascii.ascii_of_nat 10) "".

Existing Class Host.

Section HotDev.

Context {host : Host}.

(** ** The tasks and their queues *)

Inductive QueueName : Type := RequireQueue | RenderQueue.

Definition getQueue (q : QueueName) (w : World) : Queue :=
  match q with
  | RequireQueue => w_requireQueue w
  | RenderQueue => w_renderQueue w
  end.

Definition setQueue (q : QueueName) (x : Queue) (w : World) : World :=
  match q with
  | RequireQueue => set_requireQueue x w
  | RenderQueue => set_renderQueue x w
  end.

(** [checkTailUpdates()]: arm the 16 ms timer of the next poll attempt. *)
Definition checkTailUpdates (moduleId : jsval) (gen : Z) (cycle : nat) (runLimit : Z)
  (w : World) : World :=
  snd (setTimeout (TailCheck moduleId gen cycle runLimit) 16 w).

(** The body given to [runInRequireQueue]: the defensive re-require, with its
    own [try]/[catch]. *)
Definition reloadTask (moduleId : jsval) (w : World) : Completion unit * World :=
  let w1 := emit (RequireIndirect moduleId) w in
  match requireIndirect host moduleId with
  | Returned _ => (Returned tt, w1)
  | Thrown e =>
      (Returned tt,
       emit (ConsoleError [e])
         (emit (ConsoleError [VStr "React-Hot-Loader: error detected while loading"; moduleId]) w1))
  end.

(** [module.instances.forEach(inst => inst.forceUpdate())]. *)
Definition forceUpdateAll (insts : list nat) (w : World) : World :=
  fold_left (fun acc inst => emit (ForceUpdate inst) acc) insts w.

(** The body given to [runInRenderQueue] by [deepUpdate]. *)
Definition renderTask (moduleId : jsval) (w : World) : Completion unit * World :=
  let w1 := enterHotUpdate w in
  let gen := getHotGeneration w1 in
  let w2 := forceUpdateAll (moduleInstances moduleId w1) w1 in
  if w_trackTailUpdates w2 then
    let cycle := w_nextCycle w2 in
    (Returned tt, checkTailUpdates moduleId gen cycle 0 (set_nextCycle (S cycle) w2))
  else (Returned tt, w2).

Definition runWork (k : Work) (w : World) : Completion unit * World :=
  match k with
  | ReloadTask moduleId => reloadTask moduleId w
  | RenderTask moduleId => renderTask moduleId w
  end.

(** The executor wrapper each queue was created with: none for the require
    queue, [ReactDOM.unstable_batchedUpdates] when present for the render
    queue. *)
Definition runner (q : QueueName) (cb : World -> Completion unit * World) (w : World)
  : Completion unit * World :=
  match q with
  | RequireQueue => cb w
  | RenderQueue =>
      if unstable_batchedUpdates host then cb (emit BatchedUpdates w) else cb w
  end.

(** Modelled from the spec: the queue of [utils/runQueue] runs its pending
    tasks in enqueue order, one at a time; "errors thrown by work are caught,
    logged, and do not stop the queue"; the task's handle "resolves after work
    has run to completion (success or failure)", which schedules its [then]
    reactions as microtasks. *)
Fixpoint pump (fuel : nat) (q : QueueName) (w : World) : World :=
  match fuel with
  | O => w
  | S fuel' =>
      match q_pending (getQueue q w) with
      | [] => w
      | t :: rest =>
          let w1 := setQueue q {| q_pending := rest; q_inflight := true |} w in
          let (c, w2) := runner q (runWork (qt_work t)) w1 in
          let w3 := match c with
                    | Returned _ => w2
                    | Thrown e => emit (ConsoleError [e]) w2
                    end in
          let w4 := setQueue q {| q_pending := q_pending (getQueue q w3);
                                  q_inflight := false |} w3 in
          pump fuel' q (set_micro (w_micro w4 ++ qt_then t) w4)
      end
  end.

(** Modelled from the spec: the function [createQueue] returns, "enqueue(work)
    appends work to the pending sequence and returns a handle ...; if the
    queue is idle, work begins immediately ...; if busy, work starts only
    after the currently running task and all previously enqueued tasks have
    settled". *)
Definition enqueue (q : QueueName) (t : QueueTask) (w : World) : World :=
  let qu := getQueue q w in
  let w1 := setQueue q {| q_pending := q_pending qu ++ [t];
                          q_inflight := q_inflight qu |} w in
  if q_inflight qu then w1
  else pump (length (q_pending (getQueue q w1))) q w1.

Definition runInRequireQueue : QueueTask -> World -> World := enqueue RequireQueue.
Definition runInRenderQueue : QueueTask -> World -> World := enqueue RenderQueue.

(** ** [makeHotExport] *)

(** [deepUpdate]: the handle [runInRenderQueue] returns is dropped. *)
Definition deepUpdate (moduleId : jsval) (w : World) : World :=
  runInRenderQueue {| qt_work := RenderTask moduleId; qt_then := [] |} w.

Definition updateInstances (moduleId : jsval) (possibleError : jsval) (w : World) : World :=
  if truthy possibleError && instanceofError possibleError then
    emit (ConsoleError [possibleError]) w
  else
    let w1 := hotModule moduleId w in
    runInRequireQueue {| qt_work := ReloadTask moduleId;
                         qt_then := [ThenDeepUpdate moduleId] |} w1.

Definition tailWarning : string :=
  "React-Hot-Loader: some components were updated out-of-bound. Updating your app to reconcile the changes.".

(** The arrow function [checkTailUpdates] gives to [setTimeout]. *)
Definition tailCheckFire (moduleId : jsval) (gen : Z) (cycle : nat) (runLimit : Z)
  (w : World) : World :=
  if negb (getHotGeneration w =? gen) then
    deepUpdate moduleId (emit (LoggerWarn tailWarning) w)
  else if runLimit + 1 <? 5 then
    checkTailUpdates moduleId gen cycle (runLimit + 1) w
  else w.

(** The handler given to [sourceModule.hot.addStatusHandler]. *)
Definition statusHandler (moduleId : jsval) (status : string) (w : World) : World :=
  if String.eqb status "apply" then
    updateInstances moduleId VUndefined (clearExceptions w)
  else w.

Definition makeHotExport (sourceModule : SourceModule) (moduleId : jsval) (w : World) : World :=
  match sm_hot sourceModule with
  | Some api =>
      let w1 := set_acceptHandlers (w_acceptHandlers w ++ [moduleId]) w in
      if hot_addStatusHandler api then
        if String.eqb (hot_status api) "idle" then
          set_statusHandlers (w_statusHandlers w1 ++ [moduleId]) w1
        else w1
      else w1
  | None => emit (LoggerWarn "React-hot-loader: Hot Module Replacement is not enabled") w
  end.

(** ** The failback timer *)

Definition failbackMessage (id : jsval) (w : World) : string :=
  "hot update failed for module " ++ dquote ++ toString id ++ dquote
    ++ ". Last file processed: " ++ dquote ++ getLastModuleOpened w ++ dquote ++ ".".

(** The arrow function [chargeFailbackTimer] gives to [setTimeout]. *)
Definition failbackFire (id : jsval) (w : World) : World :=
  let error := failbackMessage id w in
  logException error (emit (LoggerError error) w).

Definition chargeFailbackTimer (id : jsval) (w : World) : nat * World :=
  setTimeout (FailbackFire id) 100 w.

Definition clearFailbackTimer (timerId : nat) (w : World) : World :=
  clearTimeout timerId w.

(** ** [hot] *)

(** The function [hot] returns, as a value: the variables it closes over.
    [firstHotRegistered], the one it assigns, lives in the world under
    [ew_ident]. *)
Record ExportWrapper : Type := {
  ew_ident : nat;
  ew_sourceModule : SourceModule;
  ew_moduleId : jsval;
  ew_failbackTimer : nat
}.

(** The class [ExportedComponent] one call of the export wrapper creates: what
    it closes over, and the [displayName] that [createHoc] assigns (empty
    until then). *)
Record ExportedComponent : Type := {
  ec_wrapper : ExportWrapper;
  ec_wrapped : Component;
  ec_props : Props;
  ec_displayName : string
}.

(** A mounted [ExportedComponent]: [this]. *)
Record Instance : Type := {
  inst_ident : nat;
  inst_class : ExportedComponent
}.

Definition noArgumentError : jsval :=
  VError "React-hot-loader: `hot` was called without any argument provided".

Definition noNameError : jsval :=
  VError "React-hot-loader: `hot` could not find the `name` of the the `module` you have provided".

(** [hot(sourceModule)]; [None] is a call with no module object (any falsy
    argument). *)
Definition hot (sourceModule : option SourceModule) (w : World)
  : Completion ExportWrapper * World :=
  match sourceModule with
  | None => (Thrown noArgumentError, w)
  | Some sm =>
      let moduleId := js_or (js_or (sm_id sm) (sm_i sm)) (sm_filename sm) in
      if negb (truthy moduleId) then
        (Thrown noNameError,
         emit (ConsoleError [VStr "`module` provided"; VObject "module"]) w)
      else
        let w1 := hotModule moduleId w in
        let w2 := makeHotExport sm moduleId w1 in
        let w3 := clearExceptions w2 in
        let (failbackTimer, w4) := chargeFailbackTimer moduleId w3 in
        let ident := w_nextHot w4 in
        (Returned {| ew_ident := ident; ew_sourceModule := sm;
                     ew_moduleId := moduleId; ew_failbackTimer := failbackTimer |},
         set_nextHot (S ident)
           (set_firstHotRegistered (<[ident := false]> (w_firstHotRegistered w4)) w4))
  end.

Definition firstHotRegistered (ew : ExportWrapper) (w : World) : bool :=
  default false (w_firstHotRegistered w !! ew_ident ew).

Definition createHoc (SourceComponent : Component) (TargetComponent : ExportedComponent)
  (w : World) : ExportedComponent * World :=
  ({| ec_wrapper := ec_wrapper TargetComponent;
      ec_wrapped := ec_wrapped TargetComponent;
      ec_props := ec_props TargetComponent;
      ec_displayName := "HotExported" ++ getComponentDisplayName host SourceComponent |},
   emit (HoistStatics SourceComponent) w).

(** [(WrappedComponent, props) => ...], the function [hot] returned. *)
Definition exportWrapper (ew : ExportWrapper) (WrappedComponent : Component) (props : Props)
  (w : World) : ExportedComponent * World :=
  let w1 := clearFailbackTimer (ew_failbackTimer ew) w in
  let w2 :=
    if negb (firstHotRegistered ew w1) then
      emit (HotRegister WrappedComponent
              (getComponentDisplayName host WrappedComponent)
              ("RHL" ++ toString (ew_moduleId ew)))
        (set_firstHotRegistered (<[ew_ident ew := true]> (w_firstHotRegistered w1)) w1)
    else w1 in
  createHoc WrappedComponent
    {| ec_wrapper := ew; ec_wrapped := WrappedComponent; ec_props := props;
       ec_displayName := "" |} w2.

(** ** Lifecycle of [ExportedComponent] *)

Definition instModuleId (this : Instance) : jsval :=
  ew_moduleId (ec_wrapper (inst_class this)).

Definition componentDidMount (this : Instance) (w : World) : World :=
  setModuleInstances (instModuleId this)
    (moduleInstances (instModuleId this) w ++ [inst_ident this]) w.

Definition unmountMessage (moduleId : jsval) (componentName : string) : string :=
  "React-hot-loader: Detected AppContainer unmount on module '" ++ toString moduleId
    ++ "' update." ++ newline
    ++ "Did you use " ++ dquote ++ "hot(" ++ componentName ++ ")" ++ dquote ++ " and "
    ++ dquote ++ "ReactDOM.render()" ++ dquote ++ " in the same file?" ++ newline
    ++ dquote ++ "hot(" ++ componentName ++ ")" ++ dquote
    ++ " shall only be used as export." ++ newline
    ++ "Please refer to " ++ dquote ++ "Getting Started" ++ dquote
    ++ " (https://github.com/gaearon/react-hot-loader/).".

Definition componentWillUnmount (this : Instance) (w : World) : World :=
  let ew := ec_wrapper (inst_class this) in
  let w1 :=
    if isModuleOpened (ew_sourceModule ew) w then
      let componentName := getComponentDisplayName host (ec_wrapped (inst_class this)) in
      emit (LoggerError (unmountMessage (ew_moduleId ew) componentName)) w
    else w in
  setModuleInstances (ew_moduleId ew)
    (filter (fun a => a ≠ inst_ident this) (moduleInstances (ew_moduleId ew) w1)) w1.

(** ** The event loop *)

(** A promise reaction, run as a microtask. *)
Definition runMicro (m : Micro) (w : World) : World :=
  match m with
  | ThenDeepUpdate moduleId => deepUpdate moduleId w
  end.

Fixpoint drainMicro (fuel : nat) (w : World) : World :=
  match fuel with
  | O => w
  | S fuel' =>
      match w_micro w with
      | [] => w
      | m :: rest => drainMicro fuel' (runMicro m (set_micro rest w))
      end
  end.

(** The microtask checkpoint at the end of a job.  No reaction of this file
    attaches a further reaction, so one pass over the pending ones empties
    the list (lemma [flushMicro_done]). *)
Definition flushMicro (w : World) : World := drainMicro (length (w_micro w)) w.

Definition runTimer (cb : TimerCallback) (w : World) : World :=
  match cb with
  | FailbackFire id => failbackFire id w
  | TailCheck moduleId gen cycle runLimit => tailCheckFire moduleId gen cycle runLimit w
  end.

Definition findTimer (id : nat) (w : World) : option Timer :=
  List.find (fun t => Nat.eqb (t_id t) id) (w_timers w).

(** A timer comes due: it leaves the table, the clock stands at its due time
    (or later), its callback runs. *)
Definition fireTimer (t : Timer) (w : World) : World :=
  runTimer (t_callback t)
    (set_now (Z.max (w_now w) (t_due t)) (clearTimeout (t_id t) w)).

(** The pending timer that is due first; the older one on a tie. *)
Fixpoint earliestTimer (ts : list Timer) : option Timer :=
  match ts with
  | [] => None
  | t :: rest =>
      match earliestTimer rest with
      | Some u => if t_due u <? t_due t then Some u else Some t
      | None => Some t
      end
  end.

(** What the environment can do to the program, one job each: evaluate a
    module ([hot], then the export wrapper), mount and unmount instances,
    call the accept handler or report a status, let a pending timer fire.
    [Fire] takes any pending timer, whatever its due time, so the schedules
    include the ones the clock allows ([tick] is the one it picks). *)
Inductive HostAction : Type :=
| CallHot (sourceModule : option SourceModule)
| Invoke (ew : ExportWrapper) (WrappedComponent : Component) (props : Props)
| DidMount (this : Instance)
| WillUnmount (this : Instance)
| Notify (moduleId : jsval) (possibleError : jsval)
| Status (status : string)
| Fire (id : nat).

(** The bundler reports a status to every handler it holds. *)
Definition dispatchStatus (status : string) (w : World) : World :=
  fold_left (fun acc moduleId => statusHandler moduleId status acc) (w_statusHandlers w) w.

Definition act (a : HostAction) (w : World) : World :=
  match a with
  | CallHot sm => snd (hot sm w)
  | Invoke ew c props => snd (exportWrapper ew c props w)
  | DidMount this => componentDidMount this w
  | WillUnmount this => componentWillUnmount this w
  | Notify moduleId possibleError => updateInstances moduleId possibleError w
  | Status status => dispatchStatus status w
  | Fire id =>
      match findTimer id w with
      | Some t => fireTimer t w
      | None => w
      end
  end.

(** One job: the callback, then the microtask checkpoint. *)
Definition step (a : HostAction) (w : World) : World := flushMicro (act a w).

Definition run (acts : list HostAction) (w : World) : World :=
  fold_left (fun acc a => step a acc) acts w.

(** The event loop with nothing else to do: the next timer fires. *)
Definition tick (w : World) : World :=
  match earliestTimer (w_timers w) with
  | Some t => step (Fire (t_id t)) w
  | None => w
  end.

(** ** Vocabulary of the statements *)

(** What the reload task leaves in the trace: the re-require and, when it
    throws, the two [console.error] lines of the [catch]. *)
Definition reloadTrace (moduleId : jsval) : list Event :=
  RequireIndirect moduleId ::
  match requireIndirect host moduleId with
  | Returned _ => []
  | Thrown e =>
      [ConsoleError [VStr "React-Hot-Loader: error detected while loading"; moduleId];
       ConsoleError [e]]
  end.

(** What the executor wrapper of the render queue leaves in the trace. *)
Definition batchTrace : list Event :=
  if unstable_batchedUpdates host then [BatchedUpdates] else [].

(** The timers [renderTask] arms: the first poll attempt of its cycle when
    tail updates are tracked. *)
Definition tailTimers (moduleId : jsval) (w : World) : list Timer :=
  if w_trackTailUpdates w then
    [{| t_id := w_nextTimer w; t_due := w_now w + 16;
        t_callback := TailCheck moduleId (w_generation w + 1) (w_nextCycle w) 0 |}]
  else [].

(** Both queues idle and no promise reaction pending: the state between two
    jobs. *)
Definition quiescent (w : World) : Prop :=
  w_requireQueue w = idleQueue /\ w_renderQueue w = idleQueue /\ w_micro w = [].

(** [needle] occurs in [hay]. *)
Definition contains (needle hay : string) : Prop :=
  exists pre post : string, hay = pre ++ needle ++ post.

(** Every pending timer has a handle [setTimeout] already gave out. *)
Definition timersFresh (w : World) : Prop :=
  Forall (fun t => (t_id t < w_nextTimer w)%nat) (w_timers w).

(** Between the callback of a job and its microtask checkpoint: both queues
    idle, the timer table well formed. *)
Definition settled (w : World) : Prop :=
  w_requireQueue w = idleQueue /\ w_renderQueue w = idleQueue /\ timersFresh w.

(** *** One cycle's tail poll along a schedule *)

(** The timer is a poll attempt of cycle [c]. *)
Definition isPollOf (c : nat) (t : Timer) : bool :=
  match t_callback t with
  | TailCheck _ _ c' _ => Nat.eqb c' c
  | FailbackFire _ => false
  end.

Definition runLimitOf (t : Timer) : Z :=
  match t_callback t with
  | TailCheck _ _ _ runLimit => runLimit
  | FailbackFire _ => 0
  end.

(** The pending poll attempts of cycle [c]. *)
Definition pollsOf (c : nat) (w : World) : list Timer :=
  filter (fun t => isPollOf c t = true) (w_timers w).

(** How many poll attempts cycle [c] can still make: 5 before the cycle
    starts, [5 - runLimit] while its timer is pending, 0 once the chain has
    ended.  [None] on a timer table no run of the program produces (two
    pending attempts of one cycle, a [runLimit] outside 0..4, an attempt of a
    cycle not yet started). *)
Definition remaining (c : nat) (w : World) : option nat :=
  match pollsOf c w with
  | [] => if (w_nextCycle w <=? c)%nat then Some 5%nat else Some 0%nat
  | [t] =>
      if (c <? w_nextCycle w)%nat && (0 <=? runLimitOf t) && (runLimitOf t <? 5)
      then Some (Z.to_nat (5 - runLimitOf t))
      else None
  | _ => None
  end.

(** The job [a] is a poll attempt of cycle [c]: the timer it fires is one. *)
Definition attempt (c : nat) (a : HostAction) (w : World) : bool :=
  match a with
  | Fire id =>
      match findTimer id w with
      | Some t => isPollOf c t
      | None => false
      end
  | _ => false
  end.

(** The job [a] is a poll attempt of cycle [c] that finds Generation
    different from the cycle's epoch. *)
Definition mismatch (c : nat) (a : HostAction) (w : World) : bool :=
  match a with
  | Fire id =>
      match findTimer id w with
      | Some t =>
          match t_callback t with
          | TailCheck _ gen c' _ => Nat.eqb c' c && negb (getHotGeneration w =? gen)
          | FailbackFire _ => false
          end
      | None => false
      end
  | _ => false
  end.

(** Poll attempts of cycle [c] along a schedule of jobs. *)
Fixpoint attempts (c : nat) (acts : list HostAction) (w : World) : nat :=
  match acts with
  | [] => 0%nat
  | a :: rest =>
      ((if attempt c a w then 1 else 0) + attempts c rest (step a w))%nat
  end.

(** Those among them that find Generation changed. *)
Fixpoint mismatches (c : nat) (acts : list HostAction) (w : World) : nat :=
  match acts with
  | [] => 0%nat
  | a :: rest =>
      ((if mismatch c a w then 1 else 0) + mismatches c rest (step a w))%nat
  end.

(** The worlds the program can be in between two jobs. *)
Definition reachable (w : World) : Prop :=
  exists (track : bool) (acts : list HostAction), w = run acts (initialWorld track).

(** [w'] leaves cycle [c] no more attempts than [w] did. *)
Definition le_rem (c : nat) (w w' : World) : Prop :=
  forall k, remaining c w = Some k ->
  exists k', remaining c w' = Some k' /\ (k' <= k)%nat.

(** *** What the other jobs leave alone *)

(** What the update machinery (the two queues, the reactions, the timers'
    callbacks) never writes: the instance lists, the subscriptions, the
    wrappers' closure state, the configuration and the module flags. *)
Definition untouched (w w' : World) : Prop :=
  (forall m, moduleInstances m w' = moduleInstances m w)
  /\ w_firstHotRegistered w' = w_firstHotRegistered w
  /\ w_nextHot w' = w_nextHot w
  /\ w_acceptHandlers w' = w_acceptHandlers w
  /\ w_statusHandlers w' = w_statusHandlers w
  /\ w_trackTailUpdates w' = w_trackTailUpdates w
  /\ w_isOpened w' = w_isOpened w
  /\ w_lastModuleOpened w' = w_lastModuleOpened w.

(** The jobs of module evaluation and of React's lifecycle. *)
Definition isSetupJob (a : HostAction) : bool :=
  match a with
  | CallHot _ | Invoke _ _ _ | DidMount _ | WillUnmount _ => true
  | _ => false
  end.

Definition isFailback (t : Timer) : bool :=
  match t_callback t with
  | FailbackFire _ => true
  | TailCheck _ _ _ _ => false
  end.

(** No poll attempt is pending. *)
Definition noPollPending (w : World) : Prop :=
  Forall (fun t => isFailback t = true) (w_timers w).

(** *** Mounts and unmounts of one module's instances *)

Inductive Lifecycle : Type :=
| Mounts (this : Instance)
| Unmounts (this : Instance).

Definition lifecycleInstance (ev : Lifecycle) : Instance :=
  match ev with
  | Mounts this | Unmounts this => this
  end.

Definition lifecycleStep (w : World) (ev : Lifecycle) : World :=
  match ev with
  | Mounts this => componentDidMount this w
  | Unmounts this => componentWillUnmount this w
  end.

Definition lifecycleRun (evs : list Lifecycle) (w : World) : World :=
  fold_left lifecycleStep evs w.

(** Whether instance [i] is mounted after the events, given whether it was
    before: what its last event says. *)
Definition mountedAfter (i : nat) (evs : list Lifecycle) (before : bool) : bool :=
  fold_left
    (fun b ev =>
       match ev with
       | Mounts this => if Nat.eqb (inst_ident this) i then true else b
       | Unmounts this => if Nat.eqb (inst_ident this) i then false else b
       end)
    evs before.

(** The cycle polls: its one pending timer is attempt [runLimit], due at
    [due], and Generation stands at its epoch. *)
Definition pollingAt (moduleId : jsval) (gen : Z) (cycle : nat) (runLimit due : Z)
  (w : World) : Prop :=
  (exists id, w_timers w = [{| t_id := id; t_due := due;
                               t_callback := TailCheck moduleId gen cycle runLimit |}])
  /\ w_generation w = gen /\ w_micro w = [] /\ w_now w <= due.

(** *** Polls that chase each other *)

(** How many times the tail warning was logged. *)
Definition tailWarnings (trace : list Event) : nat :=
  count_occ Event_eq_dec trace (LoggerWarn tailWarning).

(** The pending poll attempts, of whatever run of the render task. *)
Definition pollsPending (w : World) : list Timer :=
  filter (fun t => isFailback t = false) (w_timers w).

(** Of the next [n] ticks of the event loop, those that fire a poll
    attempt. *)
Fixpoint pollTicks (n : nat) (w : World) : nat :=
  match n with
  | O => 0%nat
  | S n' =>
      ((match earliestTimer (w_timers w) with
        | Some t => if isFailback t then 0 else 1
        | None => 0
        end) + pollTicks n' (tick w))%nat
  end.

(** Two polls of module [moduleId] are pending, both at their first attempt:
    the older one captured the epoch before the current Generation [g], the
    younger one captured [g]; the older is due first and the younger at most
    16 ms later. *)
Definition chasing (moduleId : jsval) (g : Z) (w : World) : Prop :=
  exists (id1 id2 c1 c2 : nat) (d1 d2 : Z),
    w_timers w =
      [{| t_id := id1; t_due := d1; t_callback := TailCheck moduleId (g - 1) c1 0 |};
       {| t_id := id2; t_due := d2; t_callback := TailCheck moduleId g c2 0 |}]
    /\ w_generation w = g
    /\ w_trackTailUpdates w = true
    /\ quiescent w
    /\ (id1 < id2)%nat /\ (id2 < w_nextTimer w)%nat
    /\ w_now w <= d1 /\ d1 <= d2 /\ d2 <= d1 + 16.

End HotDev.

(** * Scenarios *)

(** A bundler whose re-require succeeds, and one whose re-require throws. *)
Definition quietHost : Host :=
  {| requireIndirect := fun _ => Returned tt;
     unstable_batchedUpdates := true;
     getComponentDisplayName := fun _ => "App" |}.

Definition throwingHost : Host :=
  {| requireIndirect := fun _ => Thrown (VError "boom");
     unstable_batchedUpdates := false;
     getComponentDisplayName := fun _ => "App" |}.

Definition webpackHot : HotApi := {| hot_addStatusHandler := true; hot_status := "idle" |}.

Definition moduleA : SourceModule :=
  {| sm_id := VStr "A"; sm_i := VUndefined; sm_filename := VUndefined;
     sm_hot := Some webpackHot |}.

Definition moduleB : SourceModule :=
  {| sm_id := VUndefined; sm_i := VStr "B"; sm_filename := VUndefined;
     sm_hot := None |}.

Definition nameless : SourceModule :=
  {| sm_id := VNum 0; sm_i := VStr ""; sm_filename := VUndefined;
     sm_hot := Some webpackHot |}.

(** The wrappers the first call of [hot] returns on a fresh page. *)
Definition wrapperA : ExportWrapper :=
  {| ew_ident := 0; ew_sourceModule := moduleA; ew_moduleId := VStr "A";
     ew_failbackTimer := 1 |}.

Definition wrapperB : ExportWrapper :=
  {| ew_ident := 0; ew_sourceModule := moduleB; ew_moduleId := VStr "B";
     ew_failbackTimer := 1 |}.

Definition App : Component := {| comp_ident := 7 |}.

Definition exportedA : ExportedComponent :=
  {| ec_wrapper := wrapperA; ec_wrapped := App; ec_props := [];
     ec_displayName := "HotExportedApp" |}.

Definition first : Instance := {| inst_ident := 1; inst_class := exportedA |}.
Definition second : Instance := {| inst_ident := 2; inst_class := exportedA |}.

(** Module A registered and exported, two instances mounted. *)
Definition mounted (track : bool) : World :=
  run (host:=quietHost)
    [CallHot (Some moduleA); Invoke wrapperA App []; DidMount first; DidMount second]
    (initialWorld track).

(** Module B registered, its export step not reached. *)
Definition registeredB : World := snd (hot (Some moduleB) (initialWorld false)).

(** Two notifications in a row for module A, tail updates tracked: cycle 0
    (epoch 1) and cycle 1 (epoch 2) are both polling. *)
Definition overlapping : World :=
  run (host:=quietHost) [Notify (VStr "A") VUndefined; Notify (VStr "A") VUndefined] (mounted true).

(** The event loop left alone for twenty ticks after the two notifications. *)
Definition chased : World := Nat.iter 20 (tick (host:=quietHost)) overlapping.

(** Module A evaluated again while the bundler applies an update. *)
Definition moduleAReloading : SourceModule :=
  {| sm_id := VStr "A"; sm_i := VUndefined; sm_filename := VUndefined;
     sm_hot := Some {| hot_addStatusHandler := true; hot_status := "apply" |} |}.

(** Module A, then module B registered on a fresh page, neither exported;
    the wrapper of the second call of [hot]. *)
Definition registeredAB : World :=
  snd (hot (Some moduleB) (snd (hot (Some moduleA) (initialWorld false)))).

Definition wrapperB2 : ExportWrapper :=
  {| ew_ident := 1; ew_sourceModule := moduleB; ew_moduleId := VStr "B";
     ew_failbackTimer := 2 |}.

(** Both instances of module A mount, then the first unmounts. *)
Definition mountMountUnmount : list Lifecycle :=
  [Mounts first; Mounts second; Unmounts first].

(** * Properties *)

Section Properties.

Context {host : Host}.

(** ** Values *)

Lemma instanceofError_truthy (v : jsval) : instanceofError v = true -> truthy v = true.
Proof. destruct v; simpl; congruence. Qed.

Lemma js_or_falsy (a b : jsval) :
  truthy (js_or a b) = false <-> truthy a = false /\ truthy b = false.
Proof.
  unfold js_or. destruct (truthy a) eqn:Ha; rewrite ?Ha; intuition congruence.
Qed.

(** ** Queues and tasks *)

Lemma set_trace_id (w : World) : set_trace (w_trace w) w = w.
Proof. by destruct w. Qed.

Lemma forceUpdateAll_eq (insts : list nat) (w : World) :
  forceUpdateAll insts w = set_trace (w_trace w ++ map ForceUpdate insts)%list w.
Proof.
  unfold forceUpdateAll. revert w.
  induction insts as [|i insts IH]; intros w; simpl.
  - by rewrite app_nil_r, set_trace_id.
  - rewrite IH. unfold emit, set_trace; simpl. by rewrite <- app_assoc.
Qed.

Lemma hotModule_instances (m m' : jsval) (w : World) :
  moduleInstances m' (hotModule m w) = moduleInstances m' w.
Proof.
  unfold hotModule, moduleInstances.
  destruct (w_modules w !! toString m) eqn:Hm; [done |]. simpl.
  destruct (decide (toString m = toString m')) as [E | E].
  - rewrite <- E, lookup_insert_eq, Hm. done.
  - by rewrite lookup_insert_ne.
Qed.

Lemma enqueue_busy (q : QueueName) (t : QueueTask) (w : World) :
  q_inflight (getQueue q w) = true ->
  enqueue q t w =
  setQueue q {| q_pending := q_pending (getQueue q w) ++ [t]; q_inflight := true |} w.
Proof. intros Hb. unfold enqueue. by rewrite Hb. Qed.

Lemma hotModule_frame (m : jsval) (w : World) :
  let w' := hotModule m w in
  w_trace w' = w_trace w /\ w_micro w' = w_micro w
  /\ w_requireQueue w' = w_requireQueue w /\ w_renderQueue w' = w_renderQueue w
  /\ w_generation w' = w_generation w /\ w_timers w' = w_timers w
  /\ w_nextTimer w' = w_nextTimer w /\ w_nextCycle w' = w_nextCycle w
  /\ w_now w' = w_now w /\ w_trackTailUpdates w' = w_trackTailUpdates w
  /\ w_exceptions w' = w_exceptions w.
Proof. unfold hotModule. destruct (_ !! _); simpl; repeat split; reflexivity. Qed.

(** The reload task on an idle require queue: it runs at once and settles,
    its reaction is scheduled, nothing else moves. *)
Lemma reload_idle (moduleId : jsval) (w : World) :
  w_requireQueue w = idleQueue ->
  let w' := runInRequireQueue {| qt_work := ReloadTask moduleId;
                                 qt_then := [ThenDeepUpdate moduleId] |} w in
  w_trace w' = (w_trace w ++ reloadTrace moduleId)%list
  /\ w_micro w' = (w_micro w ++ [ThenDeepUpdate moduleId])%list
  /\ w_requireQueue w' = idleQueue
  /\ w_renderQueue w' = w_renderQueue w
  /\ w_generation w' = w_generation w
  /\ w_timers w' = w_timers w
  /\ w_nextTimer w' = w_nextTimer w
  /\ w_nextCycle w' = w_nextCycle w
  /\ w_now w' = w_now w
  /\ w_trackTailUpdates w' = w_trackTailUpdates w
  /\ w_exceptions w' = w_exceptions w
  /\ w_modules w' = w_modules w.
Proof.
  intros Hq w'. subst w'.
  unfold runInRequireQueue, enqueue. simpl.
  rewrite Hq. simpl. unfold reloadTask, reloadTrace.
  destruct (requireIndirect host moduleId); simpl;
    rewrite <- ?app_assoc; repeat split; reflexivity.
Qed.

Lemma updateInstances_idle (moduleId : jsval) (w : World) :
  w_requireQueue w = idleQueue ->
  let w' := updateInstances moduleId VUndefined w in
  w_trace w' = (w_trace w ++ reloadTrace moduleId)%list
  /\ w_micro w' = (w_micro w ++ [ThenDeepUpdate moduleId])%list
  /\ w_requireQueue w' = idleQueue
  /\ w_renderQueue w' = w_renderQueue w
  /\ w_generation w' = w_generation w
  /\ w_timers w' = w_timers w
  /\ w_nextTimer w' = w_nextTimer w
  /\ w_nextCycle w' = w_nextCycle w
  /\ w_now w' = w_now w
  /\ w_trackTailUpdates w' = w_trackTailUpdates w
  /\ w_exceptions w' = w_exceptions w
  /\ (forall m, moduleInstances m w' = moduleInstances m w).
Proof.
  intros Hq w'. subst w'. unfold updateInstances. simpl.
  destruct (hotModule_frame moduleId w)
    as (Ht & Hm & Hrq & Hnq & Hg & Hti & Hnt & Hnc & Hn & Htr & Hx).
  destruct (reload_idle moduleId (hotModule moduleId w))
    as (Ht' & Hm' & Hrq' & Hnq' & Hg' & Hti' & Hnt' & Hnc' & Hn' & Htr' & Hx' & Hmod').
  { by rewrite Hrq. }
  repeat split; try congruence.
  intros m. rewrite <- (hotModule_instances moduleId m w).
  unfold moduleInstances. by rewrite Hmod'.
Qed.

(** The render task on an idle render queue: it runs at once. *)
Lemma deepUpdate_idle (moduleId : jsval) (w : World) :
  w_renderQueue w = idleQueue ->
  let w' := deepUpdate moduleId w in
  w_generation w' = w_generation w + 1
  /\ w_trace w' = (w_trace w ++ batchTrace ++ map ForceUpdate (moduleInstances moduleId w))%list
  /\ w_timers w' = (w_timers w ++ tailTimers moduleId w)%list
  /\ w_micro w' = w_micro w
  /\ w_renderQueue w' = idleQueue
  /\ w_requireQueue w' = w_requireQueue w
  /\ w_modules w' = w_modules w
  /\ w_exceptions w' = w_exceptions w
  /\ w_now w' = w_now w
  /\ w_trackTailUpdates w' = w_trackTailUpdates w
  /\ w_nextTimer w' = (w_nextTimer w + length (tailTimers moduleId w))%nat.
Proof.
  intros Hq w'. subst w'.
  unfold deepUpdate, runInRenderQueue, enqueue. simpl. rewrite Hq. simpl.
  unfold renderTask, batchTrace, tailTimers, moduleInstances.
  destruct (unstable_batchedUpdates host); simpl;
    rewrite forceUpdateAll_eq; simpl;
    destruct (w_trackTailUpdates w) eqn:Htrack; simpl;
    rewrite ?app_nil_r, <- ?app_assoc; repeat split; auto; lia.
Qed.

Lemma flushMicro_single (moduleId : jsval) (w : World) :
  w_micro w = [ThenDeepUpdate moduleId] ->
  flushMicro w = deepUpdate moduleId (set_micro [] w).
Proof. intros Hm. unfold flushMicro. rewrite Hm. simpl. by rewrite Hm. Qed.

Lemma flushMicro_nil (w : World) : w_micro w = [] -> flushMicro w = w.
Proof. intros Hm. unfold flushMicro. by rewrite Hm. Qed.

(** One error-free change notification on a quiescent world, as a whole job:
    reload, then the reaction runs the render task. *)
Lemma notify_quiescent (moduleId : jsval) (w : World) :
  quiescent w ->
  let w' := step (Notify moduleId VUndefined) w in
  w_generation w' = w_generation w + 1
  /\ w_trace w' = (w_trace w ++ reloadTrace moduleId ++ batchTrace
                     ++ map ForceUpdate (moduleInstances moduleId w))%list
  /\ w_timers w' = (w_timers w ++ tailTimers moduleId w)%list
  /\ w_exceptions w' = w_exceptions w
  /\ quiescent w'.
Proof.
  intros (Hrq & Hnq & Hmi) w'. subst w'. unfold step, act.
  destruct (updateInstances_idle moduleId w Hrq)
    as (Ht & Hm & Hrq' & Hnq' & Hg & Hti & Hnt & Hnc & Hn & Htr & Hx & Hin).
  rewrite Hmi in Hm. simpl in Hm.
  rewrite (flushMicro_single moduleId _ Hm).
  set (w1 := set_micro [] (updateInstances moduleId VUndefined w)).
  destruct (deepUpdate_idle moduleId w1)
    as (Hg2 & Ht2 & Hti2 & Hm2 & Hnq2 & Hrq2 & Hmod2 & Hx2 & Hn2 & Htr2).
  { subst w1. simpl. by rewrite Hnq'. }
  assert (Hinst : moduleInstances moduleId w1 = moduleInstances moduleId w).
  { rewrite <- Hin. reflexivity. }
  assert (Htail : tailTimers moduleId w1 = tailTimers moduleId w).
  { unfold tailTimers. subst w1. simpl. by rewrite Htr, Hnt, Hn, Hg, Hnc. }
  rewrite Hg2, Ht2, Hti2, Hx2, Hinst, Htail. subst w1. simpl.
  rewrite Hg, Ht, Hti, Hx, <- app_assoc.
  repeat split; try reflexivity.
  - exact (eq_trans Hrq2 Hrq').
  - exact Hnq2.
  - exact Hm2.
Qed.

Lemma forceUpdates_app (inst : nat) (l1 l2 : list Event) :
  forceUpdates inst (l1 ++ l2) = (forceUpdates inst l1 + forceUpdates inst l2)%nat.
Proof. apply count_occ_app. Qed.

Lemma forceUpdates_reloadTrace (inst : nat) (moduleId : jsval) :
  forceUpdates inst (reloadTrace moduleId) = 0%nat.
Proof.
  unfold forceUpdates, reloadTrace. apply count_occ_not_In.
  destruct (requireIndirect host moduleId); simpl; intuition discriminate.
Qed.

Lemma forceUpdates_batchTrace (inst : nat) : forceUpdates inst batchTrace = 0%nat.
Proof.
  unfold forceUpdates, batchTrace. apply count_occ_not_In.
  destruct (unstable_batchedUpdates host); simpl; intuition discriminate.
Qed.

Lemma forceUpdates_map (inst : nat) (insts : list nat) :
  forceUpdates inst (map ForceUpdate insts) = count_occ Nat.eq_dec insts inst.
Proof.
  unfold forceUpdates. induction insts as [|i insts IH]; [reflexivity |].
  cbn [map]. destruct (Nat.eq_dec i inst) as [E | E].
  - subst i. rewrite !count_occ_cons_eq by reflexivity. by rewrite IH.
  - rewrite !count_occ_cons_neq by congruence. exact IH.
Qed.

(** On an idle render queue the checkpoint empties the reaction list. *)
Lemma flushMicro_done (w : World) :
  w_renderQueue w = idleQueue ->
  w_micro (flushMicro w) = [] /\ w_renderQueue (flushMicro w) = idleQueue.
Proof.
  unfold flushMicro. generalize (le_n (length (w_micro w))).
  generalize (length (w_micro w)) at 2 3 4 as n. intros n. revert w.
  induction n as [|n IH]; intros w Hlen Hq; simpl.
  - split; [| exact Hq]. destruct (w_micro w); [reflexivity | simpl in Hlen; lia].
  - destruct (w_micro w) as [|m rest] eqn:Hm; [by rewrite Hm |].
    destruct m as [moduleId]. simpl in *.
    destruct (deepUpdate_idle moduleId (set_micro rest w) Hq)
      as (_ & _ & _ & Hmi & Hq' & _).
    apply IH; [| exact Hq']. rewrite Hmi. simpl. lia.
Qed.

(** ** Strings *)

Lemma string_app_assoc (a b c : string) : ((a ++ b) ++ c = a ++ (b ++ c))%string.
Proof.
  induction a as [|x a IH]; [reflexivity |].
  change (String x ((a ++ b) ++ c) = String x (a ++ (b ++ c)))%string.
  by rewrite IH.
Qed.

Lemma contains_here (needle post : string) : contains needle (needle ++ post).
Proof. exists "", post. reflexivity. Qed.

Lemma contains_app_r (needle pre hay : string) :
  contains needle hay -> contains needle (pre ++ hay).
Proof.
  intros (a & b & ->). exists (pre ++ a)%string, b. by rewrite string_app_assoc.
Qed.

(** ** Unmount *)

Lemma moduleInstances_set (m : jsval) (l : list nat) (w : World) :
  moduleInstances m (setModuleInstances m l w) = l.
Proof. unfold moduleInstances, setModuleInstances. simpl. by rewrite lookup_insert_eq. Qed.

Lemma moduleInstances_set_ne (m m' : jsval) (l : list nat) (w : World) :
  toString m <> toString m' ->
  moduleInstances m' (setModuleInstances m l w) = moduleInstances m' w.
Proof.
  intros Hne. unfold moduleInstances, setModuleInstances. simpl.
  by rewrite lookup_insert_ne.
Qed.

(** ** The export wrapper *)

Lemma clearTimeout_find (id : nat) (w : World) : findTimer id (clearTimeout id w) = None.
Proof.
  unfold findTimer, clearTimeout. simpl.
  induction (w_timers w) as [|t ts IH]; [reflexivity |].
  rewrite filter_cons. destruct (decide (t_id t <> id)) as [Hne | He]; [| exact IH].
  simpl. destruct (Nat.eqb_spec (t_id t) id); [done | exact IH].
Qed.

(** What a successful call of [hot] leaves behind. *)
Lemma hot_returns (sm : SourceModule) (w : World) (ew : ExportWrapper) (w1 : World) :
  hot (Some sm) w = (Returned ew, w1) ->
  let moduleId := js_or (js_or (sm_id sm) (sm_i sm)) (sm_filename sm) in
  ew = {| ew_ident := w_nextHot w; ew_sourceModule := sm; ew_moduleId := moduleId;
          ew_failbackTimer := w_nextTimer w |}
  /\ truthy moduleId = true
  /\ w_timers w1 =
      (w_timers w ++ [{| t_id := w_nextTimer w; t_due := w_now w + 100;
                         t_callback := FailbackFire moduleId |}])%list
  /\ w_nextTimer w1 = S (w_nextTimer w)
  /\ w_exceptions w1 = []
  /\ w_nextHot w1 = S (w_nextHot w)
  /\ w_firstHotRegistered w1 = <[w_nextHot w := false]> (w_firstHotRegistered w)
  /\ w_micro w1 = w_micro w
  /\ w_requireQueue w1 = w_requireQueue w
  /\ w_renderQueue w1 = w_renderQueue w
  /\ w_generation w1 = w_generation w
  /\ w_now w1 = w_now w
  /\ w_nextCycle w1 = w_nextCycle w
  /\ w_lastModuleOpened w1 = w_lastModuleOpened w.
Proof.
  intros Hhot moduleId. unfold hot in Hhot. fold moduleId in Hhot.
  destruct (truthy moduleId) eqn:Ht; [| discriminate]. simpl in Hhot.
  injection Hhot as <- <-.
  unfold makeHotExport, hotModule.
  destruct (w_modules w !! toString moduleId); destruct (sm_hot sm) as [api|];
    try destruct (hot_addStatusHandler api);
    try destruct (String.eqb (hot_status api) "idle");
    simpl; repeat split; reflexivity.
Qed.

Lemma exportWrapper_clears_timer (ew : ExportWrapper) (c : Component)
  (props : Props) (w : World) :
  findTimer (ew_failbackTimer ew) (snd (exportWrapper ew c props w)) = None.
Proof.
  pose proof (clearTimeout_find (ew_failbackTimer ew) w) as Hc.
  unfold findTimer, exportWrapper in *. simpl.
  destruct (negb (firstHotRegistered ew _)); exact Hc.
Qed.

(** ** The failback timer *)

Lemma findTimer_fresh (id : nat) (ts : list Timer) (t : Timer) :
  Forall (fun u => (t_id u < id)%nat) ts -> t_id t = id ->
  List.find (fun u => Nat.eqb (t_id u) id) (ts ++ [t]) = Some t.
Proof.
  intros Hfresh Hid. induction Hfresh as [|u ts Hu _ IH]; simpl.
  - by rewrite Hid, Nat.eqb_refl.
  - destruct (Nat.eqb_spec (t_id u) id); [lia | exact IH].
Qed.

Lemma filter_own_timer (t : Timer) (id : nat) :
  t_id t = id -> filter (fun u => t_id u <> id) [t] = [].
Proof.
  intros Hid. rewrite filter_cons. rewrite decide_False; [reflexivity |].
  intros Hne. by apply Hne.
Qed.

Lemma failbackFire_spec (id : jsval) (w : World) :
  let w' := failbackFire id w in
  w_trace w' = (w_trace w ++ [LoggerError (failbackMessage id w)])%list
  /\ w_exceptions w' = (w_exceptions w ++ [failbackMessage id w])%list
  /\ w_timers w' = w_timers w
  /\ w_micro w' = w_micro w
  /\ w_generation w' = w_generation w
  /\ w_now w' = w_now w.
Proof. repeat split; reflexivity. Qed.

Lemma failbackMessage_names (id : jsval) (w : World) :
  contains (toString id) (failbackMessage id w)
  /\ contains (getLastModuleOpened w) (failbackMessage id w).
Proof.
  unfold failbackMessage. split.
  - do 2 apply contains_app_r. apply contains_here.
  - do 6 apply contains_app_r. apply contains_here.
Qed.

(** ** The tail poll *)

Lemma remaining_ext (c : nat) (w w' : World) :
  w_timers w' = w_timers w -> w_nextCycle w' = w_nextCycle w ->
  remaining c w' = remaining c w.
Proof. intros Ht Hc. unfold remaining, pollsOf. by rewrite Ht, Hc. Qed.

Lemma le_rem_ext (c : nat) (w w' : World) :
  w_timers w' = w_timers w -> w_nextCycle w' = w_nextCycle w -> le_rem c w w'.
Proof.
  intros Ht Hc k Hk. exists k. by rewrite (remaining_ext c w w' Ht Hc).
Qed.

Lemma le_rem_refl (c : nat) (w : World) : le_rem c w w.
Proof. by apply le_rem_ext. Qed.

Lemma le_rem_trans (c : nat) (w1 w2 w3 : World) :
  le_rem c w1 w2 -> le_rem c w2 w3 -> le_rem c w1 w3.
Proof.
  intros H12 H23 k Hk.
  destruct (H12 k Hk) as (k2 & Hk2 & Hle2).
  destruct (H23 k2 Hk2) as (k3 & Hk3 & Hle3).
  exists k3. split; [exact Hk3 | lia].
Qed.

Ltac rem_ext := apply le_rem_ext; reflexivity.

Lemma pollsOf_clearTimeout (c id : nat) (w : World) :
  pollsOf c (clearTimeout id w) = filter (fun t => t_id t <> id) (pollsOf c w).
Proof.
  unfold pollsOf, clearTimeout. simpl.
  induction (w_timers w) as [|t ts IH]; [reflexivity |].
  rewrite !filter_cons.
  destruct (decide (t_id t <> id)); destruct (decide (isPollOf c t = true));
    rewrite ?filter_cons, ?decide_True, ?decide_False by done; by rewrite IH.
Qed.

Lemma le_rem_clearTimeout (c id : nat) (w : World) : le_rem c w (clearTimeout id w).
Proof.
  intros k Hk. unfold remaining in *. rewrite pollsOf_clearTimeout.
  change (w_nextCycle (clearTimeout id w)) with (w_nextCycle w).
  destruct (pollsOf c w) as [|t [|t' ts]]; [| | discriminate].
  - exists k. by rewrite filter_nil.
  - rewrite filter_cons, filter_nil.
    destruct (decide (t_id t <> id)); [by exists k |].
    destruct (c <? w_nextCycle w)%nat eqn:Hc; [| discriminate].
    apply Nat.ltb_lt in Hc.
    destruct (w_nextCycle w <=? c)%nat eqn:Hc'; [apply Nat.leb_le in Hc'; lia |].
    exists 0%nat. split; [reflexivity | lia].
Qed.

Lemma pollsOf_snoc (c : nat) (w w' : World) (t : Timer) :
  w_timers w' = (w_timers w ++ [t])%list ->
  pollsOf c w' = (pollsOf c w ++ if isPollOf c t then [t] else [])%list.
Proof.
  intros Ht. unfold pollsOf. rewrite Ht, filter_app, filter_cons, filter_nil.
  destruct (isPollOf c t); [by rewrite decide_True | by rewrite decide_False].
Qed.

Lemma le_rem_other_timer (c : nat) (w w' : World) (t : Timer) :
  w_timers w' = (w_timers w ++ [t])%list -> w_nextCycle w' = w_nextCycle w ->
  isPollOf c t = false -> le_rem c w w'.
Proof.
  intros Ht Hc Hp k Hk. exists k. split; [| lia].
  unfold remaining in *. rewrite (pollsOf_snoc c w w' t Ht), Hp, app_nil_r, Hc.
  exact Hk.
Qed.

Lemma renderTask_tracked (moduleId : jsval) (w : World) :
  w_trackTailUpdates w = true ->
  let w' := snd (renderTask moduleId w) in
  w_timers w' =
    (w_timers w ++ [{| t_id := w_nextTimer w; t_due := w_now w + 16;
                       t_callback := TailCheck moduleId (w_generation w + 1)
                                       (w_nextCycle w) 0 |}])%list
  /\ w_nextCycle w' = S (w_nextCycle w).
Proof.
  intros Htrack. unfold renderTask. rewrite forceUpdateAll_eq. simpl.
  rewrite Htrack. split; reflexivity.
Qed.

Lemma renderTask_le_rem (c : nat) (moduleId : jsval) (w : World) :
  le_rem c w (snd (renderTask moduleId w)).
Proof.
  destruct (w_trackTailUpdates w) eqn:Htrack.
  2: { unfold renderTask. rewrite forceUpdateAll_eq. simpl. rewrite Htrack. rem_ext. }
  destruct (renderTask_tracked moduleId w Htrack) as [Hts Hnc].
  intros k Hk. unfold remaining in *.
  rewrite (pollsOf_snoc c w _ _ Hts), Hnc.
  unfold isPollOf at 1. cbn [t_callback].
  destruct (Nat.eqb_spec (w_nextCycle w) c) as [He | Hne].
  - subst c. rewrite Nat.leb_refl, Nat.ltb_irrefl in Hk.
    destruct (pollsOf (w_nextCycle w) w) as [|t [|t' ts]]; try discriminate.
    injection Hk as <-. cbn [app runLimitOf t_callback].
    assert (Hlt : (w_nextCycle w <? S (w_nextCycle w))%nat = true)
      by (apply Nat.ltb_lt; lia).
    rewrite Hlt. exists 5%nat. split; [reflexivity | lia].
  - rewrite app_nil_r. exists k. split; [| lia].
    destruct (pollsOf c w) as [|t [|t' ts]]; try discriminate.
    + destruct (Nat.leb_spec (w_nextCycle w) c), (Nat.leb_spec (S (w_nextCycle w)) c);
        try exact Hk; lia.
    + destruct (Nat.ltb_spec c (w_nextCycle w)), (Nat.ltb_spec c (S (w_nextCycle w)));
        try exact Hk; try lia; discriminate.
Qed.

Lemma runner_le_rem (c : nat) (q : QueueName) (k : Work) (w : World) :
  le_rem c w (snd (runner q (runWork k) w)).
Proof.
  assert (Hwork : forall w0, le_rem c w0 (snd (runWork k w0))).
  { intros w0. destruct k as [m | m]; simpl.
    - unfold reloadTask. destruct (requireIndirect host m); rem_ext.
    - apply renderTask_le_rem. }
  destruct q; simpl; [apply Hwork |].
  destruct (unstable_batchedUpdates host); [| apply Hwork].
  eapply le_rem_trans; [| apply Hwork]. rem_ext.
Qed.

Lemma pump_le_rem (c : nat) (fuel : nat) (q : QueueName) (w : World) :
  le_rem c w (pump fuel q w).
Proof.
  revert w. induction fuel as [|fuel IH]; intros w; [apply le_rem_refl |].
  simpl. destruct (q_pending (getQueue q w)) as [|t rest]; [apply le_rem_refl |].
  set (w1 := setQueue q {| q_pending := rest; q_inflight := true |} w).
  pose proof (runner_le_rem c q (qt_work t) w1) as Hrun.
  destruct (runner q (runWork (qt_work t)) w1) as [cpl w2]. simpl in Hrun.
  eapply le_rem_trans; [| apply IH].
  eapply le_rem_trans; [| eapply le_rem_trans; [exact Hrun |]].
  - subst w1. destruct q; rem_ext.
  - destruct cpl; destruct q; rem_ext.
Qed.

Lemma enqueue_le_rem (c : nat) (q : QueueName) (t : QueueTask) (w : World) :
  le_rem c w (enqueue q t w).
Proof.
  unfold enqueue.
  assert (H1 : le_rem c w
    (setQueue q {| q_pending := q_pending (getQueue q w) ++ [t];
                   q_inflight := q_inflight (getQueue q w) |} w)).
  { destruct q; rem_ext. }
  destruct (q_inflight (getQueue q w)); [exact H1 |].
  eapply le_rem_trans; [exact H1 | apply pump_le_rem].
Qed.

Lemma deepUpdate_le_rem (c : nat) (moduleId : jsval) (w : World) :
  le_rem c w (deepUpdate moduleId w).
Proof. apply enqueue_le_rem. Qed.

Lemma updateInstances_le_rem (c : nat) (moduleId possibleError : jsval) (w : World) :
  le_rem c w (updateInstances moduleId possibleError w).
Proof.
  unfold updateInstances.
  destruct (truthy possibleError && instanceofError possibleError); [rem_ext |].
  eapply le_rem_trans; [| apply enqueue_le_rem].
  unfold hotModule. destruct (_ !! _); rem_ext.
Qed.

Lemma drainMicro_le_rem (c : nat) (fuel : nat) (w : World) :
  le_rem c w (drainMicro fuel w).
Proof.
  revert w. induction fuel as [|fuel IH]; intros w; [apply le_rem_refl |].
  simpl. destruct (w_micro w) as [|m rest]; [apply le_rem_refl |].
  eapply le_rem_trans; [| apply IH]. destruct m as [moduleId]. simpl.
  eapply le_rem_trans; [| apply deepUpdate_le_rem]. rem_ext.
Qed.

Lemma flushMicro_le_rem (c : nat) (w : World) : le_rem c w (flushMicro w).
Proof. apply drainMicro_le_rem. Qed.

Lemma setTimeout_failback_le_rem (c : nat) (id : jsval) (delay : Z) (w : World) :
  le_rem c w (snd (setTimeout (FailbackFire id) delay w)).
Proof. eapply le_rem_other_timer; reflexivity. Qed.

Lemma makeHotExport_le_rem (c : nat) (sm : SourceModule) (moduleId : jsval) (w : World) :
  le_rem c w (makeHotExport sm moduleId w).
Proof.
  unfold makeHotExport. destruct (sm_hot sm) as [api|]; [| rem_ext].
  destruct (hot_addStatusHandler api); [| rem_ext].
  destruct (String.eqb (hot_status api) "idle"); rem_ext.
Qed.

Lemma hotModule_le_rem (c : nat) (moduleId : jsval) (w : World) :
  le_rem c w (hotModule moduleId w).
Proof. unfold hotModule. destruct (_ !! _); rem_ext. Qed.

Lemma hot_le_rem (c : nat) (sm : option SourceModule) (w : World) :
  le_rem c w (snd (hot sm w)).
Proof.
  destruct sm as [sm|]; [| apply le_rem_refl]. unfold hot.
  destruct (negb (truthy _)); [rem_ext |].
  set (moduleId := js_or (js_or (sm_id sm) (sm_i sm)) (sm_filename sm)).
  set (w3 := clearExceptions (makeHotExport sm moduleId (hotModule moduleId w))).
  assert (H3 : le_rem c w w3).
  { eapply le_rem_trans; [apply (hotModule_le_rem c moduleId) |].
    eapply le_rem_trans; [apply (makeHotExport_le_rem c sm moduleId) |]. rem_ext. }
  pose proof (setTimeout_failback_le_rem c moduleId 100 w3) as H4.
  unfold chargeFailbackTimer. destruct (setTimeout (FailbackFire moduleId) 100 w3) as [tid w4].
  simpl in *. eapply le_rem_trans; [exact H3 |].
  eapply le_rem_trans; [exact H4 |]. rem_ext.
Qed.

Lemma exportWrapper_le_rem (c : nat) (ew : ExportWrapper) (comp : Component)
  (props : Props) (w : World) :
  le_rem c w (snd (exportWrapper ew comp props w)).
Proof.
  eapply le_rem_trans; [apply (le_rem_clearTimeout c (ew_failbackTimer ew)) |].
  unfold exportWrapper. simpl.
  destruct (negb (firstHotRegistered ew _)); rem_ext.
Qed.

Lemma dispatchStatus_le_rem (c : nat) (status : string) (w : World) :
  le_rem c w (dispatchStatus status w).
Proof.
  unfold dispatchStatus. generalize (w_statusHandlers w) as hs. intros hs. revert w.
  induction hs as [|m hs IH]; intros w; [apply le_rem_refl |].
  simpl. eapply le_rem_trans; [| apply IH].
  unfold statusHandler. destruct (String.eqb status "apply"); [| apply le_rem_refl].
  eapply le_rem_trans; [| apply updateInstances_le_rem]. rem_ext.
Qed.

Lemma findTimer_Some (id : nat) (w : World) (t : Timer) :
  findTimer id w = Some t -> t_id t = id /\ t ∈ w_timers w.
Proof.
  unfold findTimer. intros Hf. apply find_some in Hf as [Hin He].
  split; [by apply Nat.eqb_eq | by apply list_elem_of_In].
Qed.

(** A job that is not a poll attempt of cycle [c] leaves its budget. *)
Lemma act_other_le_rem (c : nat) (a : HostAction) (w : World) :
  attempt c a w = false -> le_rem c w (act a w).
Proof.
  intros Hatt. destruct a as [sm | ew comp props | this | this | m e | status | id].
  - exact (hot_le_rem c sm w).
  - exact (exportWrapper_le_rem c ew comp props w).
  - rem_ext.
  - simpl. unfold componentWillUnmount. destruct (isModuleOpened _ w); rem_ext.
  - exact (updateInstances_le_rem c m e w).
  - exact (dispatchStatus_le_rem c status w).
  - simpl in *. destruct (findTimer id w) as [t|] eqn:Hf; [| apply le_rem_refl].
    unfold fireTimer.
    eapply le_rem_trans; [apply (le_rem_clearTimeout c (t_id t)) |].
    eapply le_rem_trans; [apply (le_rem_ext c _ (set_now (Z.max (w_now w) (t_due t))
                                     (clearTimeout (t_id t) w))); reflexivity |].
    generalize (set_now (Z.max (w_now w) (t_due t)) (clearTimeout (t_id t) w)) as w0.
    intros w0. unfold isPollOf in Hatt.
    destruct (t_callback t) as [fid | m gen c' r]; simpl; [rem_ext |].
    unfold tailCheckFire.
    destruct (negb (getHotGeneration w0 =? gen)).
    + eapply le_rem_trans; [| apply deepUpdate_le_rem]. rem_ext.
    + destruct (r + 1 <? 5); [| apply le_rem_refl].
      eapply le_rem_other_timer; [reflexivity | reflexivity |].
      unfold isPollOf. simpl. exact Hatt.
Qed.

Lemma remaining_none_pending (c : nat) (w : World) :
  pollsOf c w = [] -> (c < w_nextCycle w)%nat -> remaining c w = Some 0%nat.
Proof.
  intros Hp Hc. unfold remaining. rewrite Hp.
  destruct (Nat.leb_spec (w_nextCycle w) c); [lia | reflexivity].
Qed.

Lemma le_rem_zero (c : nat) (w w' : World) :
  le_rem c w w' -> remaining c w = Some 0%nat -> remaining c w' = Some 0%nat.
Proof.
  intros Hle H0. destruct (Hle _ H0) as (k' & Hk' & Hle').
  rewrite Hk'. f_equal. lia.
Qed.

(** A poll attempt of cycle [c] uses one of the attempts the cycle has left;
    when it finds Generation changed it uses all of them. *)
Lemma attempt_budget (c : nat) (id : nat) (t : Timer) (w : World) (k : nat) :
  findTimer id w = Some t -> isPollOf c t = true -> remaining c w = Some k ->
  exists k', remaining c (act (Fire id) w) = Some k' /\ (S k' <= k)%nat
             /\ (mismatch c (Fire id) w = true -> k' = 0%nat).
Proof.
  intros Hf Hp Hk. destruct (findTimer_Some id w t Hf) as [Hid Hin].
  assert (Hpoll : t ∈ pollsOf c w).
  { unfold pollsOf. apply list_elem_of_filter. by split. }
  unfold remaining in Hk.
  destruct (pollsOf c w) as [|t0 [|t' ts]] eqn:Hps; [| | discriminate].
  { by apply not_elem_of_nil in Hpoll. }
  apply list_elem_of_singleton in Hpoll. subst t0.
  destruct (Nat.ltb_spec c (w_nextCycle w)) as [Hc|]; [| discriminate].
  destruct (Z.leb_spec 0 (runLimitOf t)) as [Hr0|]; [| discriminate].
  destruct (Z.ltb_spec (runLimitOf t) 5) as [Hr5|]; [| discriminate].
  simpl in Hk. injection Hk as <-.
  simpl. unfold mismatch. rewrite Hf. unfold fireTimer.
  set (w0 := set_now (Z.max (w_now w) (t_due t)) (clearTimeout (t_id t) w)).
  assert (Hp0 : pollsOf c w0 = []).
  { change (pollsOf c w0) with (pollsOf c (clearTimeout (t_id t) w)).
    rewrite pollsOf_clearTimeout, Hps. by apply filter_own_timer. }
  assert (Hc0 : w_nextCycle w0 = w_nextCycle w) by reflexivity.
  assert (Hg0 : getHotGeneration w0 = getHotGeneration w) by reflexivity.
  unfold isPollOf, runLimitOf in *.
  destruct (t_callback t) as [fid | m gen c' r]; [discriminate |].
  apply Nat.eqb_eq in Hp. subst c'. simpl. unfold tailCheckFire. rewrite Hg0.
  destruct (getHotGeneration w =? gen) eqn:Hgen; simpl.
  - rewrite Nat.eqb_refl. simpl.
    destruct (Z.ltb_spec (r + 1) 5) as [Hlt | Hge].
    + unfold remaining.
      erewrite pollsOf_snoc by reflexivity.
      rewrite Hp0. unfold isPollOf. simpl. rewrite Nat.eqb_refl. simpl.
      unfold runLimitOf. simpl.
      destruct (Nat.ltb_spec c (w_nextCycle w)); [| lia].
      destruct (Z.leb_spec 0 (r + 1)); [| lia].
      destruct (Z.ltb_spec (r + 1) 5); [| lia].
      simpl. eexists. split; [reflexivity |]. split; [lia | discriminate].
    + exists 0%nat. split; [apply remaining_none_pending; [exact Hp0 | lia] |].
      split; [lia | discriminate].
  - exists 0%nat. split; [| split; [lia | reflexivity]].
    eapply le_rem_zero; [apply deepUpdate_le_rem |].
    apply remaining_none_pending; [exact Hp0 | simpl; lia].
Qed.

(** One job against the budget of cycle [c]. *)
Lemma step_budget (c : nat) (a : HostAction) (w : World) (k : nat) :
  remaining c w = Some k ->
  exists k', remaining c (step a w) = Some k'
             /\ ((if attempt c a w then 1 else 0) + k' <= k)%nat
             /\ (mismatch c a w = true -> attempt c a w = true /\ k' = 0%nat).
Proof.
  intros Hk. unfold step. destruct (attempt c a w) eqn:Hatt.
  - destruct a as [| | | | | | id]; try discriminate. simpl in Hatt.
    destruct (findTimer id w) as [t|] eqn:Hf; [| discriminate].
    destruct (attempt_budget c id t w k Hf Hatt Hk) as (k1 & Hk1 & Hle & Hmis).
    destruct (flushMicro_le_rem c _ _ Hk1) as (k2 & Hk2 & Hle2).
    exists k2. split; [exact Hk2 |]. split; [lia |].
    intros Hm. split; [reflexivity |]. specialize (Hmis Hm). lia.
  - destruct (act_other_le_rem c a w Hatt k Hk) as (k1 & Hk1 & Hle).
    destruct (flushMicro_le_rem c _ _ Hk1) as (k2 & Hk2 & Hle2).
    exists k2. split; [exact Hk2 |]. split; [lia |].
    intros Hm. exfalso. destruct a as [| | | | | | id]; try discriminate.
    simpl in Hatt, Hm. destruct (findTimer id w) as [t|]; [| discriminate].
    unfold isPollOf in Hatt. destruct (t_callback t); [discriminate |].
    rewrite Hatt in Hm. discriminate.
Qed.

Lemma attempts_budget (c : nat) (acts : list HostAction) (w : World) (k : nat) :
  remaining c w = Some k -> (attempts c acts w <= k)%nat.
Proof.
  revert w k. induction acts as [|a rest IH]; intros w k Hk; simpl; [lia |].
  destruct (step_budget c a w k Hk) as (k' & Hk' & Hle & _).
  specialize (IH _ _ Hk'). lia.
Qed.

Lemma mismatches_budget (c : nat) (acts : list HostAction) (w : World) (k : nat) :
  remaining c w = Some k -> (mismatches c acts w <= 1)%nat.
Proof.
  revert w k. induction acts as [|a rest IH]; intros w k Hk; simpl; [lia |].
  destruct (step_budget c a w k Hk) as (k' & Hk' & Hle & Hmis).
  destruct (mismatch c a w) eqn:Hm; [| exact (IH _ _ Hk')].
  destruct (Hmis eq_refl) as [_ ->].
  assert (H0 : (mismatches c rest (step a w) <= attempts c rest (step a w))%nat).
  { clear. generalize (step a w) as w0. induction rest as [|b rest IH]; intros w0; simpl; [lia |].
    specialize (IH (step b w0)).
    destruct (mismatch c b w0) eqn:Hm; [| lia].
    assert (Ha : attempt c b w0 = true).
    { destruct b as [| | | | | | id]; try discriminate. simpl in *.
      destruct (findTimer id w0) as [t|]; [| discriminate].
      unfold isPollOf. destruct (t_callback t); [discriminate |].
      by destruct (Nat.eqb _ _). }
    rewrite Ha. lia. }
  pose proof (attempts_budget c rest _ _ Hk'). lia.
Qed.

Lemma remaining_le_5 (c : nat) (w : World) (k : nat) :
  remaining c w = Some k -> (k <= 5)%nat.
Proof.
  unfold remaining. destruct (pollsOf c w) as [|t [|t' ts]]; [| | discriminate].
  - destruct (_ <=? _)%nat; intros [= <-]; lia.
  - destruct (c <? w_nextCycle w)%nat; [| discriminate].
    destruct (Z.leb_spec 0 (runLimitOf t)); [| discriminate].
    destruct (Z.ltb_spec (runLimitOf t) 5); [| discriminate].
    simpl. intros [= <-]. lia.
Qed.

(** ** Reachable worlds *)

Lemma settled_frame (w w' : World) :
  w_requireQueue w' = w_requireQueue w -> w_renderQueue w' = w_renderQueue w ->
  w_timers w' = w_timers w -> w_nextTimer w' = w_nextTimer w ->
  settled w -> settled w'.
Proof.
  intros Hrq Hnq Ht Hn (H1 & H2 & H3). unfold settled, timersFresh.
  rewrite Hrq, Hnq, Ht, Hn. done.
Qed.

Lemma timersFresh_snoc (w w' : World) (ts : list Timer) :
  w_timers w' = (w_timers w ++ ts)%list ->
  w_nextTimer w' = (w_nextTimer w + length ts)%nat ->
  Forall (fun t => t_id t = w_nextTimer w) ts -> (length ts <= 1)%nat ->
  timersFresh w -> timersFresh w'.
Proof.
  intros Ht Hn Hids Hlen Hf. unfold timersFresh in *. rewrite Ht, Hn.
  apply Forall_app. split.
  - eapply Forall_impl; [exact Hf |]. simpl. intros t Hlt. lia.
  - destruct ts as [|t [|t' ts]]; [constructor | | simpl in Hlen; lia].
    rewrite Forall_singleton in Hids. apply Forall_singleton. simpl in *. lia.
Qed.

Lemma timersFresh_clearTimeout (id : nat) (w : World) :
  timersFresh w -> timersFresh (clearTimeout id w).
Proof.
  unfold timersFresh, clearTimeout. simpl. intros Hf.
  apply Forall_forall. intros t Hin. apply list_elem_of_filter in Hin as [_ Hin].
  by apply (proj1 (Forall_forall _ _) Hf).
Qed.

Lemma deepUpdate_settled (moduleId : jsval) (w : World) :
  settled w ->
  settled (deepUpdate moduleId w) /\ w_micro (deepUpdate moduleId w) = w_micro w.
Proof.
  intros (Hrq & Hnq & Hf).
  destruct (deepUpdate_idle moduleId w Hnq)
    as (_ & _ & Hti & Hmi & Hnq' & Hrq' & _ & _ & _ & _ & Hnt).
  split; [| exact Hmi]. split; [congruence |]. split; [exact Hnq' |].
  eapply timersFresh_snoc; [exact Hti | exact Hnt | | | exact Hf].
  - unfold tailTimers. destruct (w_trackTailUpdates w); by repeat constructor.
  - unfold tailTimers. destruct (w_trackTailUpdates w); simpl; lia.
Qed.

Lemma updateInstances_settled (moduleId possibleError : jsval) (w : World) :
  settled w -> settled (updateInstances moduleId possibleError w).
Proof.
  intros Hs. destruct (truthy possibleError && instanceofError possibleError) eqn:Hg.
  - unfold updateInstances. rewrite Hg. by apply (settled_frame w).
  - assert (Heq : updateInstances moduleId possibleError w =
                  updateInstances moduleId VUndefined w).
    { unfold updateInstances. by rewrite Hg. }
    rewrite Heq. destruct Hs as (Hrq & Hnq & Hf).
    destruct (updateInstances_idle moduleId w Hrq)
      as (_ & _ & Hrq' & Hnq' & _ & Hti & Hnt & _).
    split; [exact Hrq' |]. split; [congruence |].
    unfold timersFresh. by rewrite Hti, Hnt.
Qed.

Lemma drainMicro_settled (fuel : nat) (w : World) :
  (length (w_micro w) <= fuel)%nat -> settled w ->
  settled (drainMicro fuel w) /\ w_micro (drainMicro fuel w) = [].
Proof.
  revert w. induction fuel as [|fuel IH]; intros w Hlen Hs; simpl.
  - split; [exact Hs |]. destruct (w_micro w); [reflexivity | simpl in Hlen; lia].
  - destruct (w_micro w) as [|m rest] eqn:Hm; [by rewrite Hm |].
    destruct m as [moduleId]. simpl in *.
    destruct (deepUpdate_settled moduleId (set_micro rest w)) as [Hs' Hmi].
    { by apply (settled_frame w). }
    apply IH; [| exact Hs']. rewrite Hmi. simpl. lia.
Qed.

Lemma dispatchStatus_settled (status : string) (w : World) :
  settled w -> settled (dispatchStatus status w).
Proof.
  unfold dispatchStatus. generalize (w_statusHandlers w) as hs. intros hs. revert w.
  induction hs as [|m hs IH]; intros w Hs; [exact Hs |].
  simpl. apply IH. unfold statusHandler.
  destruct (String.eqb status "apply"); [| exact Hs].
  apply updateInstances_settled. by apply (settled_frame w).
Qed.

Lemma hot_settled (sm : option SourceModule) (w : World) :
  settled w -> settled (snd (hot sm w)).
Proof.
  intros Hs. destruct sm as [sm|]; [| exact Hs].
  destruct (hot (Some sm) w) as [[ew|e] w1] eqn:Hhot.
  - destruct (hot_returns sm w ew w1 Hhot)
      as (_ & _ & Hti & Hnt & _ & _ & _ & _ & Hrq & Hnq & _).
    destruct Hs as (H1 & H2 & Hf). simpl.
    split; [congruence |]. split; [congruence |].
    eapply timersFresh_snoc; [exact Hti | simpl; rewrite Hnt; lia | | simpl; lia | exact Hf].
    by repeat constructor.
  - unfold hot in Hhot. destruct (negb (truthy _)); [| discriminate].
    injection Hhot as _ <-. simpl. by apply (settled_frame w).
Qed.

Lemma act_settled (a : HostAction) (w : World) : settled w -> settled (act a w).
Proof.
  intros Hs. destruct a as [sm | ew comp props | this | this | m e | status | id].
  - by apply hot_settled.
  - simpl. unfold exportWrapper. simpl.
    assert (Hc : settled (clearFailbackTimer (ew_failbackTimer ew) w)).
    { destruct Hs as (H1 & H2 & Hf). repeat split; try done.
      by apply timersFresh_clearTimeout. }
    destruct (negb (firstHotRegistered ew _)); by eapply settled_frame; [.. | exact Hc].
  - by apply (settled_frame w).
  - simpl. unfold componentWillUnmount.
    destruct (isModuleOpened _ w); by apply (settled_frame w).
  - by apply updateInstances_settled.
  - by apply dispatchStatus_settled.
  - simpl. destruct (findTimer id w) as [t|]; [| exact Hs]. unfold fireTimer.
    assert (Hc : settled (set_now (Z.max (w_now w) (t_due t)) (clearTimeout (t_id t) w))).
    { destruct Hs as (H1 & H2 & Hf). repeat split; try done.
      by apply (timersFresh_clearTimeout (t_id t)). }
    revert Hc.
    generalize (set_now (Z.max (w_now w) (t_due t)) (clearTimeout (t_id t) w)) as w0.
    intros w0 Hc. destruct (t_callback t) as [fid | m gen c r]; simpl.
    + by apply (settled_frame w0).
    + unfold tailCheckFire. destruct (negb (getHotGeneration w0 =? gen)).
      * apply deepUpdate_settled. by apply (settled_frame w0).
      * destruct (r + 1 <? 5); [| exact Hc].
        destruct Hc as (H1 & H2 & Hf). repeat split; try done.
        eapply timersFresh_snoc; [reflexivity | simpl; lia | | simpl; lia | exact Hf].
        by repeat constructor.
Qed.

(** Every job ends with both queues idle and no reaction pending. *)
Lemma step_settled (a : HostAction) (w : World) :
  settled w -> settled (step a w) /\ w_micro (step a w) = [].
Proof.
  intros Hs. unfold step, flushMicro. apply drainMicro_settled; [lia |].
  by apply act_settled.
Qed.

(** Between two jobs the world is quiescent, its timers are well formed, and
    every cycle has a number of attempts left. *)
Lemma reachable_invariants (w : World) :
  reachable w ->
  quiescent w /\ timersFresh w /\ forall c, exists k, remaining c w = Some k.
Proof.
  intros (track & acts & ->). unfold run.
  assert (H0 : (settled (initialWorld track) /\ w_micro (initialWorld track) = [])
               /\ forall c, exists k, remaining c (initialWorld track) = Some k).
  { split; [| intros c; by exists 5%nat].
    repeat split; try reflexivity. constructor. }
  revert H0. generalize (initialWorld track) as w. induction acts as [|a acts IH];
    intros w [[Hs Hm] Hk]; simpl.
  - destruct Hs as (H1 & H2 & H3). by repeat split.
  - apply IH. split; [by apply step_settled |].
    intros c. destruct (Hk c) as [k Hc].
    destruct (step_budget c a w k Hc) as (k' & Hk' & _). by exists k'.
Qed.

(** ** Polls that chase each other *)

Lemma tailWarnings_app (l1 l2 : list Event) :
  tailWarnings (l1 ++ l2) = (tailWarnings l1 + tailWarnings l2)%nat.
Proof. apply count_occ_app. Qed.

Lemma tailWarnings_render (moduleId : jsval) (w : World) :
  tailWarnings (batchTrace ++ map ForceUpdate (moduleInstances moduleId w)) = 0%nat.
Proof.
  unfold tailWarnings. apply count_occ_not_In. intros Hin.
  apply in_app_or in Hin as [Hin | Hin].
  - unfold batchTrace in Hin.
    destruct (unstable_batchedUpdates host); simpl in Hin; intuition discriminate.
  - apply in_map_iff in Hin as (i & Hi & _). discriminate.
Qed.

(** One tick of the event loop while two polls chase each other: the older
    poll fires, finds Generation ahead of its epoch, warns and re-runs the
    deep update, whose render task raises Generation and arms a new first
    attempt; now the other poll is the one behind. *)
Lemma chasing_tick (moduleId : jsval) (g : Z) (w : World) :
  chasing moduleId g w ->
  chasing moduleId (g + 1) (tick w)
  /\ w_trace (tick w) =
     (w_trace w ++ [LoggerWarn tailWarning] ++ batchTrace
        ++ map ForceUpdate (moduleInstances moduleId w))%list
  /\ (forall m, moduleInstances m (tick w) = moduleInstances m w)
  /\ pollTicks 1 w = 1%nat.
Proof.
  intros (id1 & id2 & c1 & c2 & d1 & d2 & Hti & Hg & Htr & (Hrq & Hnq & Hmi)
          & Hid & Hfresh & Hnow & Hd & Hd').
  assert (Hlt : (d2 <? d1) = false) by lia.
  assert (Hpoll : pollTicks 1 w = 1%nat).
  { cbn [pollTicks]. rewrite Hti. cbn [earliestTimer t_due]. by rewrite Hlt. }
  unfold tick. rewrite Hti. cbn [earliestTimer t_due]. rewrite Hlt. cbn [t_id].
  unfold step, act, findTimer. rewrite Hti. cbn [find t_id]. rewrite Nat.eqb_refl.
  unfold fireTimer. cbn [t_callback t_id t_due runTimer].
  set (w0 := set_now (Z.max (w_now w) d1) (clearTimeout id1 w)).
  assert (Ht0 : w_timers w0 =
                [{| t_id := id2; t_due := d2; t_callback := TailCheck moduleId g c2 0 |}]).
  { subst w0. simpl. rewrite Hti.
    rewrite filter_cons, decide_False by (simpl; intros Hne; by apply Hne).
    rewrite filter_cons, decide_True by (simpl; lia). reflexivity. }
  assert (Hfire : tailCheckFire moduleId (g - 1) c1 0 w0 =
                  deepUpdate moduleId (emit (LoggerWarn tailWarning) w0)).
  { unfold tailCheckFire.
    assert (Hg0 : getHotGeneration w0 = g) by exact Hg.
    rewrite Hg0. destruct (Z.eqb_spec g (g - 1)); [lia | reflexivity]. }
  rewrite Hfire.
  set (w1 := emit (LoggerWarn tailWarning) w0).
  destruct (deepUpdate_idle moduleId w1)
    as (Hg2 & Ht2 & Hti2 & Hm2 & Hnq2 & Hrq2 & Hmod2 & Hx2 & Hn2 & Htr2 & Hnt2);
    [exact Hnq |].
  assert (Hmi2 : w_micro (deepUpdate moduleId w1) = []) by (rewrite Hm2; exact Hmi).
  rewrite (flushMicro_nil _ Hmi2).
  assert (Htail : tailTimers moduleId w1 =
                  [{| t_id := w_nextTimer w; t_due := Z.max (w_now w) d1 + 16;
                      t_callback := TailCheck moduleId (g + 1) (w_nextCycle w) 0 |}]).
  { unfold tailTimers. subst w1 w0. simpl. by rewrite Htr, Hg. }
  assert (Hmax : Z.max (w_now w) d1 = d1) by lia.
  split; [| split; [| split; [| exact Hpoll]]].
  - exists id2, (w_nextTimer w), c2, (w_nextCycle w), d2, (d1 + 16).
    rewrite Hti2, Hg2, Htr2, Hn2, Hnt2, Htail, Hmax.
    change (w_timers w1) with (w_timers w0). rewrite Ht0.
    replace (g + 1 - 1) with g by lia.
    split; [reflexivity |]. split; [exact (f_equal (fun z => z + 1) Hg) |].
    split; [exact Htr |].
    split; [repeat split; [exact (eq_trans Hrq2 Hrq) | exact Hnq2 | exact Hmi2] |].
    split; [exact Hfresh |].
    split; [simpl; change (w_nextTimer w1) with (w_nextTimer w); lia |].
    split; [simpl; lia |]. split; lia.
  - rewrite Ht2. subst w1 w0. simpl. by rewrite <- app_assoc.
  - intros m. unfold moduleInstances. by rewrite Hmod2.
Qed.

(** However long the event loop runs, the chase goes on: every tick is a
    poll attempt that warns and re-runs the deep update, and two polls are
    pending after it. *)
Lemma chasing_forever (moduleId : jsval) (n : nat) (g : Z) (w : World) :
  chasing moduleId g w ->
  chasing moduleId (g + Z.of_nat n) (Nat.iter n tick w)
  /\ pollTicks n w = n
  /\ tailWarnings (w_trace (Nat.iter n tick w)) = (tailWarnings (w_trace w) + n)%nat.
Proof.
  revert g w. induction n as [|n IH]; intros g w Hc.
  - simpl. rewrite Z.add_0_r, Nat.add_0_r. by repeat split.
  - destruct (chasing_tick moduleId g w Hc) as (Hc1 & Ht1 & _ & Hp1).
    destruct (IH (g + 1) (tick w) Hc1) as (Hcn & Hpn & Hwn).
    rewrite Nat.iter_succ_r.
    replace (g + Z.of_nat (S n)) with (g + 1 + Z.of_nat n) by lia.
    split; [exact Hcn |]. split.
    + cbn [pollTicks]. cbn [pollTicks] in Hp1. rewrite Hpn. lia.
    + rewrite Hwn, Ht1. rewrite 2!tailWarnings_app, tailWarnings_render.
      assert (H1 : tailWarnings [LoggerWarn tailWarning] = 1%nat).
      { unfold tailWarnings. cbn [count_occ].
        destruct (Event_eq_dec _ _) as [_ | Hne]; [reflexivity | done]. }
      rewrite H1. lia.
Qed.

(** In a world where every run has its count of attempts left, a pending
    attempt has its [runLimit] in 0..4. *)
Lemma pending_runLimit (w : World) :
  (forall c, exists k, remaining c w = Some k) ->
  forall t, t ∈ pollsPending w -> 0 <= runLimitOf t < 5.
Proof.
  intros Hrem t Hin. apply list_elem_of_filter in Hin as [Hf Hin].
  unfold isFailback in Hf. unfold runLimitOf.
  destruct (t_callback t) as [id | m g c r] eqn:Hcb; [discriminate |].
  destruct (Hrem c) as [k Hk]. unfold remaining in Hk.
  assert (Hp : t ∈ pollsOf c w).
  { apply list_elem_of_filter. split; [| exact Hin].
    unfold isPollOf. rewrite Hcb. apply Nat.eqb_refl. }
  destruct (pollsOf c w) as [|t' [|t'' rest]].
  - by apply elem_of_nil in Hp.
  - apply list_elem_of_singleton in Hp. subst t'.
    unfold runLimitOf in Hk. rewrite Hcb in Hk.
    destruct (c <? w_nextCycle w)%nat; [| discriminate].
    destruct (Z.leb_spec 0 r); [| discriminate].
    destruct (Z.ltb_spec r 5); [lia | discriminate].
  - discriminate.
Qed.

(** ** One status report, several subscribed modules *)

Lemma dispatch_apply_fold (hs : list jsval) (w : World) :
  w_requireQueue w = idleQueue ->
  let w' := fold_left (fun acc m => statusHandler m "apply" acc) hs w in
  w_trace w' = (w_trace w ++ concat (map reloadTrace hs))%list
  /\ w_micro w' = (w_micro w ++ map ThenDeepUpdate hs)%list
  /\ w_requireQueue w' = idleQueue
  /\ w_renderQueue w' = w_renderQueue w
  /\ w_generation w' = w_generation w
  /\ (forall m, moduleInstances m w' = moduleInstances m w)
  /\ w_exceptions w' = match hs with [] => w_exceptions w | _ => [] end.
Proof.
  revert w. induction hs as [|m hs IH]; intros w Hrq w'; subst w'.
  - simpl. rewrite !app_nil_r. by repeat split.
  - cbn [fold_left map concat].
    change (statusHandler m "apply" w)
      with (updateInstances m VUndefined (clearExceptions w)).
    destruct (updateInstances_idle m (clearExceptions w) Hrq)
      as (Ht & Hmi & Hrq' & Hnq & Hg & _ & _ & _ & _ & _ & Hx & Hin).
    destruct (IH (updateInstances m VUndefined (clearExceptions w)) Hrq')
      as (Ht2 & Hmi2 & Hrq2 & Hnq2 & Hg2 & Hin2 & Hx2).
    rewrite Ht2, Hmi2, Hnq2, Hg2, Ht, Hmi, Hnq, Hg. simpl.
    rewrite <- !app_assoc. simpl.
    split; [reflexivity |]. split; [reflexivity |]. split; [exact Hrq2 |].
    split; [reflexivity |]. split; [reflexivity |].
    split; [intros m'; by rewrite Hin2, Hin |].
    rewrite Hx2. destruct hs; [exact Hx | reflexivity].
Qed.

Lemma drain_renders (ms : list jsval) (w : World) :
  w_renderQueue w = idleQueue -> w_micro w = map ThenDeepUpdate ms ->
  let w' := drainMicro (length ms) w in
  w_generation w' = w_generation w + Z.of_nat (length ms)
  /\ w_trace w' =
     (w_trace w ++ concat (map (fun m => batchTrace ++ map ForceUpdate (moduleInstances m w)) ms))%list
  /\ w_micro w' = []
  /\ w_renderQueue w' = idleQueue
  /\ w_requireQueue w' = w_requireQueue w
  /\ w_exceptions w' = w_exceptions w.
Proof.
  revert w. induction ms as [|m ms IH]; intros w Hnq Hmi.
  - simpl. rewrite app_nil_r, Z.add_0_r. by repeat split.
  - cbn [length drainMicro]. rewrite Hmi. cbn [map runMicro].
    destruct (deepUpdate_idle m (set_micro (map ThenDeepUpdate ms) w) Hnq)
      as (Hg & Ht & _ & Hmi' & Hnq' & Hrq' & Hmod & Hx & _).
    destruct (IH (deepUpdate m (set_micro (map ThenDeepUpdate ms) w)) Hnq' Hmi')
      as (Hg2 & Ht2 & Hmi2 & Hnq2 & Hrq2 & Hx2).
    rewrite Hg2, Ht2, Hmi2, Hnq2, Hrq2, Hx2, Hg, Ht, Hrq', Hx.
    change (w_generation (set_micro (map ThenDeepUpdate ms) w)) with (w_generation w).
    change (w_trace (set_micro (map ThenDeepUpdate ms) w)) with (w_trace w).
    change (moduleInstances m (set_micro (map ThenDeepUpdate ms) w))
      with (moduleInstances m w).
    assert (Hinst : forall m', moduleInstances m'
                      (deepUpdate m (set_micro (map ThenDeepUpdate ms) w)) =
                    moduleInstances m' w).
    { intros m'. unfold moduleInstances. by rewrite Hmod. }
    assert (Hmap : map (fun m0 => (batchTrace ++ map ForceUpdate
                      (moduleInstances m0 (deepUpdate m
                         (set_micro (map ThenDeepUpdate ms) w))))%list) ms =
                   map (fun m0 => (batchTrace ++ map ForceUpdate
                      (moduleInstances m0 w))%list) ms).
    { apply map_ext. intros m0. by rewrite Hinst. }
    rewrite Hmap. cbn [map concat]. rewrite <- !app_assoc.
    split; [rewrite Nat2Z.inj_succ; lia |]. by repeat split.
Qed.

(** ** The claims *)

(** C1. Given a genuine error value, [updateInstances] logs it with
    [console.error] and returns: the call is exactly that one log entry, so
    both queues and the pending promise reactions are as before, the trace
    gains no force-re-render, the registry and the timers are untouched and
    the Generation counter keeps its value. *)
Theorem updateInstances_error_aborts (moduleId possibleError : jsval) (w : World) :
  instanceofError possibleError = true ->
  let w' := updateInstances moduleId possibleError w in
  w' = emit (ConsoleError [possibleError]) w
  /\ w_requireQueue w' = w_requireQueue w
  /\ w_renderQueue w' = w_renderQueue w
  /\ w_micro w' = w_micro w
  /\ w_timers w' = w_timers w
  /\ w_modules w' = w_modules w
  /\ w_generation w' = w_generation w
  /\ w_trace w' = (w_trace w ++ [ConsoleError [possibleError]])%list
  /\ (forall inst, ForceUpdate inst ∈ w_trace w' -> ForceUpdate inst ∈ w_trace w).
Proof.
  intros Herr w'.
  assert (Hw : w' = emit (ConsoleError [possibleError]) w).
  { subst w'. unfold updateInstances.
    by rewrite (instanceofError_truthy _ Herr), Herr. }
  rewrite Hw. simpl. repeat split; try reflexivity.
  intros inst Hin. apply elem_of_app in Hin as [Hin | Hin]; [done |].
  apply list_elem_of_singleton in Hin. discriminate.
Qed.

(** C2. The tail poll, one run of the render task at a time.  Each run of
    the render task captures its epoch, declares its own [runLimit] at 0 and
    arms one timer, due 16 ms from now ([cycle] names the run, that is the
    closure that holds [runLimit]).  When the timer fires and Generation
    differs from the epoch, the callback logs the warning and calls
    [deepUpdate] once, and arms nothing for this run: on an idle render
    queue the re-run raises Generation, force-updates the module's instances
    and, being a run of its own, arms its own first attempt with [runLimit]
    at 0 again.  When Generation equals the epoch the callback arms the next
    attempt exactly when [runLimit + 1 < 5].  So the bound is one run's:
    along every schedule of jobs a run that has [k] attempts left makes at
    most [k] of them, [k] is at most 5, at most one attempt finds Generation
    changed, and that one is the run's last; from a fresh page every run
    makes at most 5 attempts, in every world reached from a fresh page every
    run has such a [k] and every pending attempt has its [runLimit] in 0..4.
    The polling as a whole has no bound: while two polls of a module are
    pending, one an epoch behind the other, every tick of the event loop is
    a poll attempt that warns and re-runs the deep update, and after any
    number of ticks two polls are pending again. *)
Theorem tail_poll_bounded (moduleId : jsval) (gen : Z) (cycle : nat) (runLimit : Z)
  (w : World) :
  w_timers (checkTailUpdates moduleId gen cycle runLimit w) =
    (w_timers w ++ [{| t_id := w_nextTimer w; t_due := w_now w + 16;
                       t_callback := TailCheck moduleId gen cycle runLimit |}])%list
  /\ (getHotGeneration w <> gen ->
      tailCheckFire moduleId gen cycle runLimit w =
        deepUpdate moduleId (emit (LoggerWarn tailWarning) w)
      /\ (w_renderQueue w = idleQueue ->
          let w' := tailCheckFire moduleId gen cycle runLimit w in
          w_generation w' = w_generation w + 1
          /\ w_trace w' =
              (w_trace w ++ [LoggerWarn tailWarning] ++ batchTrace
                 ++ map ForceUpdate (moduleInstances moduleId w))%list
          /\ w_timers w' = (w_timers w ++ tailTimers moduleId w)%list))
  /\ (getHotGeneration w = gen ->
      tailCheckFire moduleId gen cycle runLimit w =
        if runLimit + 1 <? 5
        then checkTailUpdates moduleId gen cycle (runLimit + 1) w
        else w)
  /\ (forall c k acts, remaining c w = Some k ->
      (attempts c acts w <= k)%nat /\ (k <= 5)%nat /\ (mismatches c acts w <= 1)%nat)
  /\ (forall c k a acts, remaining c w = Some k -> mismatch c a w = true ->
      attempts c acts (step a w) = 0%nat)
  /\ (forall track c acts,
      (attempts c acts (initialWorld track) <= 5)%nat
      /\ (mismatches c acts (initialWorld track) <= 1)%nat)
  /\ (reachable w -> forall c, exists k, remaining c w = Some k)
  /\ (reachable w -> forall t, t ∈ pollsPending w -> 0 <= runLimitOf t < 5)
  /\ (forall g n, chasing moduleId g w ->
      chasing moduleId (g + Z.of_nat n) (Nat.iter n tick w)
      /\ pollTicks n w = n
      /\ tailWarnings (w_trace (Nat.iter n tick w)) = (tailWarnings (w_trace w) + n)%nat
      /\ w_generation (Nat.iter n tick w) = w_generation w + Z.of_nat n
      /\ length (pollsPending (Nat.iter n tick w)) = 2%nat).
Proof.
  split; [reflexivity |].
  split; [| split; [| split; [| split; [| split; [| split; [| split]]]]]].
  - intros Hne.
    assert (Hfire : tailCheckFire moduleId gen cycle runLimit w =
                    deepUpdate moduleId (emit (LoggerWarn tailWarning) w)).
    { unfold tailCheckFire. destruct (Z.eqb_spec (getHotGeneration w) gen); [done |].
      reflexivity. }
    split; [exact Hfire |]. intros Hq w'. subst w'. rewrite Hfire.
    destruct (deepUpdate_idle moduleId (emit (LoggerWarn tailWarning) w))
      as (Hg & Ht & Hti & _); [exact Hq |].
    rewrite Hg, Ht, Hti. simpl. rewrite <- app_assoc. repeat split; reflexivity.
  - intros He. unfold tailCheckFire. by rewrite He, Z.eqb_refl.
  - intros c k acts Hk. split; [| split].
    + by apply attempts_budget.
    + by apply (remaining_le_5 c w).
    + by apply (mismatches_budget c acts w k).
  - intros c k a acts Hk Hm.
    destruct (step_budget c a w k Hk) as (k' & Hk' & _ & Hmis).
    destruct (Hmis Hm) as [_ ->].
    pose proof (attempts_budget c acts _ _ Hk'). lia.
  - intros track c acts.
    assert (Hk : remaining c (initialWorld track) = Some 5%nat) by reflexivity.
    split; [by apply attempts_budget | by apply (mismatches_budget c acts _ 5)].
  - intros Hr. by destruct (reachable_invariants w Hr) as (_ & _ & Hk).
  - intros Hr. destruct (reachable_invariants w Hr) as (_ & _ & Hk).
    by apply pending_runLimit.
  - intros g n Hc.
    destruct (chasing_forever moduleId n g w Hc) as (Hcn & Hp & Hw).
    split; [exact Hcn |]. split; [exact Hp |]. split; [exact Hw |].
    destruct Hc as (_ & _ & _ & _ & _ & _ & _ & Hg & _).
    destruct Hcn as (id1 & id2 & c1 & c2 & d1 & d2 & Hti & Hgn & _).
    split; [rewrite Hgn, Hg; reflexivity |].
    unfold pollsPending. rewrite Hti. reflexivity.
Qed.

(** C3. The render task of a deep-update cycle increments Generation, the
    poll timer it arms carries the incremented value as its epoch, and its
    trace is one [forceUpdate] per entry of the module's instance list, in
    order.  As a whole job on a quiescent world, an error-free notification
    raises Generation by exactly 1 and calls [forceUpdate] on every instance
    as often as it is registered: once when the list has no repetition, as
    with two mounted instances.  Every world reached from a fresh page is
    quiescent. *)
Theorem deepUpdate_cycle (moduleId : jsval) (w : World) :
  (let w1 := snd (renderTask moduleId w) in
   fst (renderTask moduleId w) = Returned tt
   /\ w_generation w1 = w_generation w + 1
   /\ w_trace w1 = (w_trace w ++ map ForceUpdate (moduleInstances moduleId w))%list
   /\ w_timers w1 = (w_timers w ++ tailTimers moduleId w)%list)
  /\ (quiescent w ->
      let w2 := step (Notify moduleId VUndefined) w in
      w_generation w2 = w_generation w + 1
      /\ w_trace w2 = (w_trace w ++ reloadTrace moduleId ++ batchTrace
                         ++ map ForceUpdate (moduleInstances moduleId w))%list
      /\ (forall inst,
            forceUpdates inst (w_trace w2) =
            (forceUpdates inst (w_trace w)
             + count_occ Nat.eq_dec (moduleInstances moduleId w) inst)%nat)
      /\ (forall inst, NoDup (moduleInstances moduleId w) ->
            inst ∈ moduleInstances moduleId w ->
            forceUpdates inst (w_trace w2) = S (forceUpdates inst (w_trace w)))
      /\ (forall i1 i2 : nat, i1 <> i2 -> moduleInstances moduleId w = [i1; i2] ->
            forceUpdates i1 (w_trace w2) = S (forceUpdates i1 (w_trace w))
            /\ forceUpdates i2 (w_trace w2) = S (forceUpdates i2 (w_trace w))))
  /\ (reachable w -> quiescent w).
Proof.
  split; [| split].
  - unfold renderTask, tailTimers, moduleInstances. rewrite forceUpdateAll_eq. simpl.
    destruct (w_trackTailUpdates w); simpl; rewrite ?app_nil_r; repeat split; reflexivity.
  - intros Hq w2.
    destruct (notify_quiescent moduleId w Hq) as (Hg & Ht & _).
    fold w2 in Hg, Ht.
    assert (Hcount : forall inst,
      forceUpdates inst (w_trace w2) =
      (forceUpdates inst (w_trace w)
       + count_occ Nat.eq_dec (moduleInstances moduleId w) inst)%nat).
    { intros inst. rewrite Ht, !forceUpdates_app, forceUpdates_reloadTrace,
        forceUpdates_batchTrace, forceUpdates_map. lia. }
    assert (Hone : forall inst, NoDup (moduleInstances moduleId w) ->
      inst ∈ moduleInstances moduleId w ->
      forceUpdates inst (w_trace w2) = S (forceUpdates inst (w_trace w))).
    { intros inst Hnd Hin. rewrite Hcount.
      apply NoDup_ListNoDup in Hnd. apply list_elem_of_In in Hin.
      rewrite (proj1 (NoDup_count_occ' Nat.eq_dec _) Hnd inst Hin). lia. }
    split; [exact Hg |]. split; [exact Ht |]. split; [exact Hcount |].
    split; [exact Hone |].
    intros i1 i2 Hne Hl.
    assert (Hnd : NoDup (moduleInstances moduleId w)).
    { rewrite Hl. apply NoDup_cons. split; [| apply NoDup_singleton].
      intros Hin. by apply list_elem_of_singleton in Hin. }
    split; apply Hone; try exact Hnd; rewrite Hl.
    + apply list_elem_of_here.
    + apply list_elem_of_further, list_elem_of_here.
  - intros Hr. by destruct (reachable_invariants w Hr) as (Hq & _).
Qed.

(** C4. The deep update is a reaction to the reload task's handle.  While
    the require queue is busy the reload only waits in it and nothing of the
    deep update exists yet: no reaction is scheduled, the render queue and
    Generation are as before.  On an idle require queue the reload runs and
    settles inside [updateInstances], and only the reaction is left, with
    the render queue still untouched; the reload task itself never throws.
    As a whole job the trace is the reload's entries, then the render
    task's, whatever [requireIndirect] did: when it throws, the two
    [console.error] lines of the [catch] sit between the re-require and the
    force-re-renders, and Generation is still raised.  Every world reached
    from a fresh page is quiescent. *)
Theorem deepUpdate_after_reload_settles (moduleId : jsval) (w : World) :
  let reload := {| qt_work := ReloadTask moduleId;
                   qt_then := [ThenDeepUpdate moduleId] |} in
  (q_inflight (w_requireQueue w) = true ->
   let w' := updateInstances moduleId VUndefined w in
   q_pending (w_requireQueue w') = (q_pending (w_requireQueue w) ++ [reload])%list
   /\ w_micro w' = w_micro w
   /\ w_renderQueue w' = w_renderQueue w
   /\ w_generation w' = w_generation w
   /\ w_trace w' = w_trace w)
  /\ (w_requireQueue w = idleQueue ->
      let w' := updateInstances moduleId VUndefined w in
      w_trace w' = (w_trace w ++ reloadTrace moduleId)%list
      /\ w_requireQueue w' = idleQueue
      /\ w_micro w' = (w_micro w ++ [ThenDeepUpdate moduleId])%list
      /\ w_renderQueue w' = w_renderQueue w
      /\ w_generation w' = w_generation w)
  /\ fst (reloadTask moduleId w) = Returned tt
  /\ (forall e, requireIndirect host moduleId = Thrown e ->
      reloadTrace moduleId =
      [RequireIndirect moduleId;
       ConsoleError [VStr "React-Hot-Loader: error detected while loading"; moduleId];
       ConsoleError [e]])
  /\ (quiescent w ->
      let w2 := step (Notify moduleId VUndefined) w in
      w_trace w2 = (w_trace w ++ reloadTrace moduleId ++ batchTrace
                      ++ map ForceUpdate (moduleInstances moduleId w))%list
      /\ w_generation w2 = w_generation w + 1
      /\ quiescent w2)
  /\ (reachable w -> quiescent w).
Proof.
  intros reload. repeat apply conj.
  - intros Hbusy w'. subst w'.
    destruct (hotModule_frame moduleId w)
      as (Ht & Hm & Hrq & Hnq & Hg & _).
    unfold updateInstances, runInRequireQueue. simpl.
    rewrite enqueue_busy by (simpl; by rewrite Hrq).
    simpl. by rewrite Hrq.
  - intros Hidle w'.
    destruct (updateInstances_idle moduleId w Hidle)
      as (Ht & Hm & Hrq' & Hnq' & Hg & _).
    by subst w'.
  - unfold reloadTask. by destruct (requireIndirect host moduleId).
  - intros e He. unfold reloadTrace. by rewrite He.
  - intros Hq w2.
    destruct (notify_quiescent moduleId w Hq) as (Hg & Ht & _ & _ & Hq').
    by subst w2.
  - intros Hr. by destruct (reachable_invariants w Hr) as (Hq & _).
Qed.

(** C5. A successful call of [hot] adds one timer, due 100 ms from now, whose
    callback logs one error line and hands one report to [logException], both
    the message that holds the module id and the last module opened.  When
    the timer fires it leaves the table, so it fires once: the exceptions are
    then exactly that one report.  A call of the export wrapper removes the
    timer; after it the timer cannot fire and no report is made.  With no
    other timer pending, the next tick of the event loop is the failback,
    100 ms later, unless the wrapper was called, in which case nothing is
    left to run.  Every world reached from a fresh page has its timers well
    formed and no reaction pending. *)
Theorem failback_timer (sm : SourceModule) (w : World) (ew : ExportWrapper) (w1 : World) :
  hot (Some sm) w = (Returned ew, w1) ->
  let moduleId := ew_moduleId ew in
  let timer := {| t_id := ew_failbackTimer ew; t_due := w_now w + 100;
                  t_callback := FailbackFire moduleId |} in
  w_timers w1 = (w_timers w ++ [timer])%list
  /\ w_exceptions w1 = []
  /\ (forall w0,
      let w2 := runTimer (t_callback timer) w0 in
      w_trace w2 = (w_trace w0 ++ [LoggerError (failbackMessage moduleId w0)])%list
      /\ w_exceptions w2 = (w_exceptions w0 ++ [failbackMessage moduleId w0])%list
      /\ contains (toString moduleId) (failbackMessage moduleId w0)
      /\ contains (getLastModuleOpened w0) (failbackMessage moduleId w0))
  /\ (timersFresh w -> w_micro w = [] ->
      let w2 := step (Fire (ew_failbackTimer ew)) w1 in
      w_exceptions w2 = [failbackMessage moduleId w1]
      /\ w_trace w2 = (w_trace w1 ++ [LoggerError (failbackMessage moduleId w1)])%list
      /\ findTimer (ew_failbackTimer ew) w2 = None
      /\ step (Fire (ew_failbackTimer ew)) w2 = w2)
  /\ (forall c props,
      let w2 := snd (exportWrapper ew c props w1) in
      findTimer (ew_failbackTimer ew) w2 = None
      /\ w_exceptions w2 = []
      /\ act (Fire (ew_failbackTimer ew)) w2 = w2)
  /\ (w_timers w = [] -> w_micro w = [] ->
      (let w2 := tick w1 in
       w_exceptions w2 = [failbackMessage moduleId w1]
       /\ w_now w2 = w_now w + 100
       /\ w_timers w2 = []
       /\ tick w2 = w2)
      /\ (forall c props,
          let w2 := snd (exportWrapper ew c props w1) in
          w_timers w2 = [] /\ tick w2 = w2 /\ w_exceptions w2 = []))
  /\ (reachable w -> timersFresh w /\ w_micro w = []).
Proof.
  intros Hhot moduleId timer.
  destruct (hot_returns sm w ew w1 Hhot)
    as (Hew & Htruthy & Htimers & Hnt & Hx & _ & _ & Hmicro & _ & _ & _ & Hnow & _).
  assert (Hid : ew_failbackTimer ew = w_nextTimer w) by (by rewrite Hew).
  assert (Hm : moduleId = js_or (js_or (sm_id sm) (sm_i sm)) (sm_filename sm)).
  { subst moduleId. by rewrite Hew. }
  assert (Htimers' : w_timers w1 = (w_timers w ++ [timer])%list).
  { rewrite Htimers. subst timer. by rewrite Hid, Hm. }
  assert (Hfire : Forall (fun u => (t_id u < w_nextTimer w)%nat) (w_timers w) ->
                  w_micro w = [] ->
                  step (Fire (ew_failbackTimer ew)) w1 =
                  failbackFire moduleId
                    (set_now (Z.max (w_now w1) (t_due timer))
                       (clearTimeout (ew_failbackTimer ew) w1))).
  { intros Hfresh Hmi. unfold step, act, findTimer. rewrite Htimers'.
    rewrite (findTimer_fresh _ _ timer) by (rewrite ?Hid; done).
    unfold fireTimer. simpl. apply flushMicro_nil. simpl. congruence. }
  assert (Hwrap : forall c props,
            findTimer (ew_failbackTimer ew) (snd (exportWrapper ew c props w1)) = None
            /\ w_exceptions (snd (exportWrapper ew c props w1)) = []).
  { intros c props. split.
    - apply (exportWrapper_clears_timer ew c props w1).
    - unfold exportWrapper. simpl.
      destruct (negb (firstHotRegistered ew _)); simpl; exact Hx. }
  repeat apply conj.
  - exact Htimers'.
  - exact Hx.
  - intros w0 w2. subst w2. simpl.
    destruct (failbackMessage_names moduleId w0). by repeat split.
  - intros Hfresh Hmi w2. subst w2. rewrite (Hfire Hfresh Hmi).
    set (w2 := failbackFire _ _).
    assert (Hnone : findTimer (ew_failbackTimer ew) w2 = None).
    { subst w2. unfold findTimer. simpl.
      apply (clearTimeout_find (ew_failbackTimer ew) w1). }
    split; [subst w2; simpl; by rewrite Hx |].
    split; [reflexivity |]. split; [exact Hnone |].
    unfold step, act. rewrite Hnone. apply flushMicro_nil.
    subst w2. simpl. congruence.
  - intros c props w2. subst w2. destruct (Hwrap c props) as [Hnone Hex].
    repeat split; [exact Hnone | exact Hex |]. unfold act. by rewrite Hnone.
  - intros Hempty Hmi.
    assert (Hown : filter (fun t => t_id t <> ew_failbackTimer ew) [timer] = []).
    { by apply filter_own_timer. }
    split.
    + intros w2. subst w2. unfold tick. rewrite Htimers', Hempty. simpl.
      rewrite Hempty in Hfire. rewrite (Hfire (Forall_nil_2 _) Hmi).
      simpl. rewrite Hx, Htimers', Hempty, Hnow. simpl. rewrite Hown.
      split; [reflexivity |]. split; [lia |]. split; reflexivity.
    + intros c props w2. subst w2. destruct (Hwrap c props) as [Hnone Hex].
      assert (Ht0 : w_timers (snd (exportWrapper ew c props w1)) = []).
      { unfold exportWrapper. simpl.
        destruct (negb (firstHotRegistered ew _)); simpl;
          rewrite Htimers', Hempty; exact Hown. }
      repeat split; [exact Ht0 | | exact Hex].
      unfold tick. by rewrite Ht0.
  - intros Hr. destruct (reachable_invariants w Hr) as ((_ & _ & Hmi) & Hf & _).
    by split.
Qed.

(** C6. [hot] called without a module object throws and leaves the world as
    it was.  Called with a module whose [id], [i] and [filename] are all
    falsy it throws as well, after one [console.error]: nothing is
    registered, no timer is started, and in neither case is an export
    wrapper returned.  With a resolvable id the call returns one. *)
Theorem hot_invalid_call_throws (w : World) :
  hot None w = (Thrown noArgumentError, w)
  /\ (forall sm,
      truthy (sm_id sm) = false -> truthy (sm_i sm) = false ->
      truthy (sm_filename sm) = false ->
      hot (Some sm) w =
      (Thrown noNameError,
       emit (ConsoleError [VStr "`module` provided"; VObject "module"]) w))
  /\ instanceofError noArgumentError = true
  /\ instanceofError noNameError = true
  /\ (forall sm,
      truthy (js_or (js_or (sm_id sm) (sm_i sm)) (sm_filename sm)) = true ->
      exists ew, fst (hot (Some sm) w) = Returned ew
                 /\ ew_moduleId ew = js_or (js_or (sm_id sm) (sm_i sm)) (sm_filename sm)).
Proof.
  repeat apply conj; try reflexivity.
  - intros sm Hid Hi Hf. unfold hot.
    assert (Hm : truthy (js_or (js_or (sm_id sm) (sm_i sm)) (sm_filename sm)) = false).
    { apply js_or_falsy. split; [apply js_or_falsy; by split | done]. }
    by rewrite Hm.
  - intros sm Hm. unfold hot. rewrite Hm. simpl. eexists. split; reflexivity.
Qed.

(** C7. [componentWillUnmount] leaves in the module's instance list exactly
    the entries that are not this instance, in their order, whether the
    module is open or not; the other modules' lists are as before.  It logs
    one misuse message, which holds the display name of the wrapped
    component, when the module is open, and nothing otherwise. *)
Theorem componentWillUnmount_removes (this : Instance) (w : World) :
  let moduleId := instModuleId this in
  let sm := ew_sourceModule (ec_wrapper (inst_class this)) in
  let name := getComponentDisplayName host (ec_wrapped (inst_class this)) in
  let w' := componentWillUnmount this w in
  moduleInstances moduleId w' =
    filter (fun a => a <> inst_ident this) (moduleInstances moduleId w)
  /\ (inst_ident this ∉ moduleInstances moduleId w')
  /\ (forall other, other <> inst_ident this ->
      other ∈ moduleInstances moduleId w' <-> other ∈ moduleInstances moduleId w)
  /\ (forall m, toString moduleId <> toString m ->
      moduleInstances m w' = moduleInstances m w)
  /\ w_trace w' =
      (w_trace w ++ if isModuleOpened sm w
                    then [LoggerError (unmountMessage moduleId name)] else [])%list
  /\ contains name (unmountMessage moduleId name).
Proof.
  intros moduleId sm name w'.
  assert (Hl : moduleInstances moduleId w' =
               filter (fun a => a <> inst_ident this) (moduleInstances moduleId w)).
  { subst w'. unfold componentWillUnmount. fold moduleId. fold sm.
    rewrite moduleInstances_set.
    destruct (isModuleOpened sm w); reflexivity. }
  repeat apply conj.
  - exact Hl.
  - rewrite Hl. intros Hin. apply list_elem_of_filter in Hin as [Hne _]. by apply Hne.
  - intros other Hne. rewrite Hl. rewrite list_elem_of_filter. tauto.
  - intros m Hne. subst w'. unfold componentWillUnmount. fold moduleId. fold sm.
    rewrite moduleInstances_set_ne by exact Hne.
    destruct (isModuleOpened sm w); reflexivity.
  - subst w'. unfold componentWillUnmount. fold moduleId. fold sm. fold name.
    destruct (isModuleOpened sm w); simpl; by rewrite ?app_nil_r.
  - unfold unmountMessage.
    do 7 apply contains_app_r. apply contains_here.
Qed.

(** C8. On status [apply] the handler given to [addStatusHandler] clears the
    pending exceptions and calls [updateInstances] with no argument, which is
    what a change notification with no error runs on the cleared world; on
    any other status it does nothing.  [makeHotExport] hands the handler to
    the bundler when the module's [hot] has [addStatusHandler] and reports
    status [idle], and the bundler's dispatch runs every handler it holds.
    The call has the effect of the notification: on an idle require queue the
    handler leaves the exceptions empty, the re-require in the trace and the
    reaction [deepUpdate] scheduled.  As a whole job on a quiescent world, a
    report of status [apply] runs, for every subscribed module in the order
    of subscription, the re-require and then the render task: Generation
    rises by one per handler and every instance of a subscribed module is
    force-updated; with the one handler of [moduleId] the job is the job of
    an error-free notification for [moduleId] on the cleared world. *)
Theorem statusHandler_apply (moduleId : jsval) (w : World) :
  statusHandler moduleId "apply" w = updateInstances moduleId VUndefined (clearExceptions w)
  /\ statusHandler moduleId "apply" w = act (Notify moduleId VUndefined) (clearExceptions w)
  /\ w_exceptions (clearExceptions w) = []
  /\ (w_requireQueue w = idleQueue -> w_exceptions (statusHandler moduleId "apply" w) = [])
  /\ (forall status, status <> "apply" -> statusHandler moduleId status w = w)
  /\ (forall sm api, sm_hot sm = Some api -> hot_addStatusHandler api = true ->
      hot_status api = "idle" ->
      w_statusHandlers (makeHotExport sm moduleId w) = (w_statusHandlers w ++ [moduleId])%list)
  /\ (w_statusHandlers w = [moduleId] ->
      dispatchStatus "apply" w = updateInstances moduleId VUndefined (clearExceptions w))
  /\ (w_requireQueue w = idleQueue ->
      let w' := statusHandler moduleId "apply" w in
      w_trace w' = (w_trace w ++ reloadTrace moduleId)%list
      /\ w_micro w' = (w_micro w ++ [ThenDeepUpdate moduleId])%list
      /\ w_generation w' = w_generation w)
  /\ (quiescent w ->
      let hs := w_statusHandlers w in
      let w2 := step (Status "apply") w in
      w_generation w2 = w_generation w + Z.of_nat (length hs)
      /\ w_trace w2 =
         (w_trace w ++ concat (map reloadTrace hs)
            ++ concat (map (fun m => batchTrace ++ map ForceUpdate (moduleInstances m w)) hs))%list
      /\ (hs <> [] -> w_exceptions w2 = [])
      /\ quiescent w2)
  /\ (quiescent w -> w_statusHandlers w = [moduleId] ->
      let w2 := step (Status "apply") w in
      w2 = step (Notify moduleId VUndefined) (clearExceptions w)
      /\ w_exceptions w2 = []
      /\ w_generation w2 = w_generation w + 1
      /\ w_trace w2 = (w_trace w ++ reloadTrace moduleId ++ batchTrace
                         ++ map ForceUpdate (moduleInstances moduleId w))%list
      /\ (forall inst, inst ∈ moduleInstances moduleId w -> ForceUpdate inst ∈ w_trace w2)).
Proof.
  repeat apply conj; try reflexivity.
  - intros Hq. unfold statusHandler. simpl.
    destruct (updateInstances_idle moduleId (clearExceptions w))
      as (_ & _ & _ & _ & _ & _ & _ & _ & _ & _ & Hx & _); [exact Hq |].
    rewrite Hx. reflexivity.
  - intros status Hne. unfold statusHandler.
    destruct (String.eqb_spec status "apply"); [done | reflexivity].
  - intros sm api Hhot Hadd Hidle. unfold makeHotExport.
    rewrite Hhot, Hadd, Hidle. reflexivity.
  - intros Hh. unfold dispatchStatus. rewrite Hh. reflexivity.
  - intros Hq w'. subst w'.
    change (statusHandler moduleId "apply" w)
      with (updateInstances moduleId VUndefined (clearExceptions w)).
    destruct (updateInstances_idle moduleId (clearExceptions w) Hq)
      as (Ht & Hm & _ & _ & Hg & _).
    by repeat split.
  - intros (Hrq & Hnq & Hmi) hs w2.
    destruct (dispatch_apply_fold hs w Hrq) as (Ht & Hm & Hrq' & Hnq' & Hg & Hin & Hx).
    rewrite Hmi in Hm. simpl in Hm.
    set (wd := fold_left (fun acc m => statusHandler m "apply" acc) hs w) in *.
    assert (Hw2 : w2 = drainMicro (length hs) wd).
    { subst w2. unfold step, flushMicro. simpl. unfold dispatchStatus. fold hs. fold wd.
      by rewrite Hm, length_map. }
    destruct (drain_renders hs wd) as (Hg2 & Ht2 & Hmi2 & Hnq2 & Hrq2 & Hx2).
    { by rewrite Hnq'. } { exact Hm. }
    rewrite <- Hw2 in *.
    assert (Hmap : map (fun m => (batchTrace ++ map ForceUpdate (moduleInstances m wd))%list) hs
                   = map (fun m => (batchTrace ++ map ForceUpdate (moduleInstances m w))%list) hs).
    { apply map_ext. intros m. by rewrite Hin. }
    split; [by rewrite Hg2, Hg |].
    split; [by rewrite Ht2, Ht, Hmap, <- app_assoc |].
    split; [intros Hne; rewrite Hx2, Hx; by destruct hs |].
    repeat split; congruence.
  - intros Hq Hh w2.
    assert (Hw2 : w2 = step (Notify moduleId VUndefined) (clearExceptions w)).
    { subst w2. unfold step. simpl. unfold dispatchStatus. rewrite Hh. reflexivity. }
    assert (Hq' : quiescent (clearExceptions w)) by exact Hq.
    destruct (notify_quiescent moduleId (clearExceptions w) Hq') as (Hg & Ht & _ & Hx & _).
    rewrite Hw2.
    split; [reflexivity |]. split; [exact Hx |]. split; [exact Hg |].
    split; [exact Ht |].
    intros inst Hin. rewrite Ht.
    apply elem_of_app; right. apply elem_of_app; right. apply elem_of_app; right.
    apply list_elem_of_fmap. by exists inst.
Qed.

(** C9. A truthy value that is not an [Error] instance does not take the
    abort branch: the call is the call with no argument, that is the reload
    task enqueued on the require queue with [deepUpdate] as its reaction.  On
    an idle require queue the task runs at once, so the trace gains the
    re-require and the reaction [deepUpdate] is scheduled.  As a whole job on a quiescent world
    the notification is the error-free one: the re-require, then the render
    task, which raises Generation by 1 and calls [forceUpdate] on every entry
    of the module's instance list. *)
Theorem updateInstances_non_error_proceeds (moduleId possibleError : jsval) (w : World) :
  truthy possibleError = true ->
  instanceofError possibleError = false ->
  let reload := {| qt_work := ReloadTask moduleId;
                   qt_then := [ThenDeepUpdate moduleId] |} in
  updateInstances moduleId possibleError w = updateInstances moduleId VUndefined w
  /\ updateInstances moduleId possibleError w =
       runInRequireQueue reload (hotModule moduleId w)
  /\ (w_requireQueue w = idleQueue ->
      let w' := updateInstances moduleId possibleError w in
      w_trace w' = (w_trace w ++ reloadTrace moduleId)%list
      /\ w_micro w' = (w_micro w ++ [ThenDeepUpdate moduleId])%list
      /\ w_requireQueue w' = idleQueue)
  /\ step (Notify moduleId possibleError) w = step (Notify moduleId VUndefined) w
  /\ (quiescent w ->
      let w2 := step (Notify moduleId possibleError) w in
      w_generation w2 = w_generation w + 1
      /\ w_trace w2 = (w_trace w ++ reloadTrace moduleId ++ batchTrace
                         ++ map ForceUpdate (moduleInstances moduleId w))%list
      /\ (forall inst, inst ∈ moduleInstances moduleId w -> ForceUpdate inst ∈ w_trace w2)
      /\ quiescent w2).
Proof.
  intros Ht Hne reload.
  assert (Heq : updateInstances moduleId possibleError w =
                updateInstances moduleId VUndefined w).
  { unfold updateInstances. by rewrite Ht, Hne. }
  assert (Hstep : step (Notify moduleId possibleError) w =
                  step (Notify moduleId VUndefined) w).
  { unfold step, act. by rewrite Heq. }
  split; [exact Heq |]. split; [rewrite Heq; reflexivity |].
  split; [| split; [exact Hstep |]].
  - intros Hidle w'. subst w'. rewrite Heq.
    destruct (updateInstances_idle moduleId w Hidle) as (Htr & Hm & Hrq' & _).
    by repeat split.
  - intros Hq w2. subst w2. rewrite Hstep.
    destruct (notify_quiescent moduleId w Hq) as (Hg & Htr & _ & _ & Hq').
    split; [exact Hg |]. split; [exact Htr |]. split; [| exact Hq'].
    intros inst Hin. rewrite Htr.
    apply elem_of_app; right. apply elem_of_app; right. apply elem_of_app; right.
    apply list_elem_of_fmap. by exists inst.
Qed.

(** C10. One call of the export wrapper clears the failback timer, leaves
    the first-registration flag set, and returns the [ExportedComponent]
    class named after the wrapped component; [reactHotLoader.register] is
    called, with the component, its display name and the module's id, only
    when the flag was not yet set.  [hot] creates the flag unset, one flag
    per call of [hot], so the first call of the wrapper registers and every
    later one only clears the timer and builds the class. *)
Theorem exportWrapper_registers_once (ew : ExportWrapper) (c : Component) (props : Props)
  (w : World) :
  let name := getComponentDisplayName host c in
  let w' := snd (exportWrapper ew c props w) in
  fst (exportWrapper ew c props w) =
    {| ec_wrapper := ew; ec_wrapped := c; ec_props := props;
       ec_displayName := "HotExported" ++ name |}
  /\ w_timers w' = filter (fun t => t_id t <> ew_failbackTimer ew) (w_timers w)
  /\ findTimer (ew_failbackTimer ew) w' = None
  /\ firstHotRegistered ew w' = true
  /\ w_trace w' =
      (w_trace w
       ++ (if firstHotRegistered ew w then []
           else [HotRegister c name ("RHL" ++ toString (ew_moduleId ew))])
       ++ [HoistStatics c])%list
  /\ (forall c2 props2,
      let w'' := snd (exportWrapper ew c2 props2 w') in
      w_trace w'' = (w_trace w' ++ [HoistStatics c2])%list
      /\ findTimer (ew_failbackTimer ew) w'' = None
      /\ ec_wrapped (fst (exportWrapper ew c2 props2 w')) = c2)
  /\ (forall ew2, ew_ident ew2 <> ew_ident ew ->
      firstHotRegistered ew2 w' = firstHotRegistered ew2 w)
  /\ (forall sm ew0 w0, hot (Some sm) w = (Returned ew0, w0) ->
      firstHotRegistered ew0 w0 = false
      /\ ew_ident ew0 = w_nextHot w /\ w_nextHot w0 = S (w_nextHot w)).
Proof.
  intros name w'.
  assert (Hflag : firstHotRegistered ew w' = true).
  { subst w'. unfold exportWrapper, firstHotRegistered. simpl.
    destruct (w_firstHotRegistered w !! ew_ident ew) as [[|]|] eqn:Hf; simpl;
      rewrite ?Hf, ?lookup_insert_eq; reflexivity. }
  assert (Htrace : forall c0 p0 w0,
    w_trace (snd (exportWrapper ew c0 p0 w0)) =
    (w_trace w0
     ++ (if firstHotRegistered ew w0 then []
         else [HotRegister c0 (getComponentDisplayName host c0)
                 ("RHL" ++ toString (ew_moduleId ew))])
     ++ [HoistStatics c0])%list).
  { intros c0 p0 w0. unfold exportWrapper, firstHotRegistered. simpl.
    destruct (default false (w_firstHotRegistered w0 !! ew_ident ew)); simpl;
      by rewrite <- ?app_assoc. }
  assert (Htimers : forall c0 p0 w0,
    w_timers (snd (exportWrapper ew c0 p0 w0)) =
    filter (fun t => t_id t <> ew_failbackTimer ew) (w_timers w0)).
  { intros c0 p0 w0. unfold exportWrapper, firstHotRegistered. simpl.
    destruct (default false (w_firstHotRegistered w0 !! ew_ident ew)); reflexivity. }
  assert (Hfind : forall c0 p0 w0,
    findTimer (ew_failbackTimer ew) (snd (exportWrapper ew c0 p0 w0)) = None).
  { intros c0 p0 w0.
    pose proof (clearTimeout_find (ew_failbackTimer ew) w0) as Hc.
    unfold findTimer in *. rewrite Htimers. exact Hc. }
  repeat apply conj.
  - reflexivity.
  - apply Htimers.
  - apply Hfind.
  - exact Hflag.
  - apply Htrace.
  - intros c2 props2 w''. subst w''. rewrite Htrace, Hflag.
    repeat split; [apply Hfind].
  - intros ew2 Hne. subst w'. unfold exportWrapper, firstHotRegistered. simpl.
    destruct (default false (w_firstHotRegistered w !! ew_ident ew)); simpl;
      [reflexivity |]. by rewrite lookup_insert_ne.
  - intros sm ew0 w0 Hhot.
    destruct (hot_returns sm w ew0 w0 Hhot)
      as (-> & _ & _ & _ & _ & Hnext & Hfl & _).
    unfold firstHotRegistered. simpl. rewrite Hfl, lookup_insert_eq. done.
Qed.

End Properties.

(** * Further properties of [hot.dev.js] *)

Section Coverage.

Context {host : Host}.

(** ** What the update machinery preserves *)

(** A property kept by the queues' bookkeeping, by the trace and by the two
    task bodies is kept by a queue running its pending tasks. *)
Lemma pump_preserves (P : World -> Prop) :
  (forall q x w, P w -> P (setQueue q x w)) ->
  (forall e w, P w -> P (emit e w)) ->
  (forall x w, P w -> P (set_micro x w)) ->
  (forall k w, P w -> P (snd (runWork k w))) ->
  forall fuel q w, P w -> P (pump fuel q w).
Proof.
  intros Hq He Hm Hk fuel q. induction fuel as [|fuel IH]; intros w Hw; [exact Hw |].
  simpl. destruct (q_pending (getQueue q w)) as [|t rest]; [exact Hw |].
  set (w1 := setQueue q {| q_pending := rest; q_inflight := true |} w).
  assert (H1 : P w1) by (by apply Hq).
  assert (H2 : P (snd (runner q (runWork (qt_work t)) w1))).
  { destruct q; simpl; [by apply Hk |].
    destruct (unstable_batchedUpdates host); apply Hk; [by apply He | exact H1]. }
  destruct (runner q (runWork (qt_work t)) w1) as [cpl w2]. simpl in H2.
  apply IH. apply Hm. apply Hq. destruct cpl; [exact H2 | by apply He].
Qed.

Lemma enqueue_preserves (P : World -> Prop) :
  (forall q x w, P w -> P (setQueue q x w)) ->
  (forall e w, P w -> P (emit e w)) ->
  (forall x w, P w -> P (set_micro x w)) ->
  (forall k w, P w -> P (snd (runWork k w))) ->
  forall q t w, P w -> P (enqueue q t w).
Proof.
  intros Hq He Hm Hk q t w Hw. unfold enqueue.
  destruct (q_inflight (getQueue q w)); [by apply Hq |].
  apply pump_preserves; try assumption. by apply Hq.
Qed.

Lemma drainMicro_preserves (P : World -> Prop) :
  (forall q x w, P w -> P (setQueue q x w)) ->
  (forall e w, P w -> P (emit e w)) ->
  (forall x w, P w -> P (set_micro x w)) ->
  (forall k w, P w -> P (snd (runWork k w))) ->
  forall fuel w, P w -> P (drainMicro fuel w).
Proof.
  intros Hq He Hm Hk fuel. induction fuel as [|fuel IH]; intros w Hw; [exact Hw |].
  simpl. destruct (w_micro w) as [|m rest]; [exact Hw |].
  apply IH. destruct m as [moduleId].
  unfold runMicro, deepUpdate, runInRenderQueue.
  apply enqueue_preserves; try assumption. by apply Hm.
Qed.

Lemma updateInstances_preserves (P : World -> Prop) :
  (forall q x w, P w -> P (setQueue q x w)) ->
  (forall e w, P w -> P (emit e w)) ->
  (forall x w, P w -> P (set_micro x w)) ->
  (forall k w, P w -> P (snd (runWork k w))) ->
  (forall m w, P w -> P (hotModule m w)) ->
  forall moduleId possibleError w, P w -> P (updateInstances moduleId possibleError w).
Proof.
  intros Hq He Hm Hk Hh moduleId possibleError w Hw.
  unfold updateInstances, runInRequireQueue.
  destruct (truthy possibleError && instanceofError possibleError); [by apply He |].
  apply enqueue_preserves; try assumption. by apply Hh.
Qed.

(** ** The setup state is not written by updates *)

Lemma untouched_refl (w : World) : untouched w w.
Proof. by repeat split. Qed.

Lemma untouched_trans (w1 w2 w3 : World) :
  untouched w1 w2 -> untouched w2 w3 -> untouched w1 w3.
Proof.
  intros (A1 & A2 & A3 & A4 & A5 & A6 & A7 & A8) (B1 & B2 & B3 & B4 & B5 & B6 & B7 & B8).
  split; [intros m; by rewrite B1, A1 |]. repeat split; congruence.
Qed.

(** The fields [untouched] speaks of are the same in both worlds. *)
Lemma untouched_fields (w w' : World) :
  w_modules w' = w_modules w ->
  w_firstHotRegistered w' = w_firstHotRegistered w ->
  w_nextHot w' = w_nextHot w ->
  w_acceptHandlers w' = w_acceptHandlers w ->
  w_statusHandlers w' = w_statusHandlers w ->
  w_trackTailUpdates w' = w_trackTailUpdates w ->
  w_isOpened w' = w_isOpened w ->
  w_lastModuleOpened w' = w_lastModuleOpened w ->
  untouched w w'.
Proof.
  intros Hm. repeat split; try assumption.
  intros m. unfold moduleInstances. by rewrite Hm.
Qed.

Ltac same_fields := apply untouched_fields; reflexivity.

Lemma untouched_runWork (k : Work) (w : World) : untouched w (snd (runWork k w)).
Proof.
  destruct k as [m | m]; simpl.
  - unfold reloadTask. destruct (requireIndirect host m); same_fields.
  - unfold renderTask. rewrite forceUpdateAll_eq. simpl.
    destruct (w_trackTailUpdates w); same_fields.
Qed.

Lemma untouched_hotModule (m : jsval) (w : World) : untouched w (hotModule m w).
Proof.
  destruct (hotModule_frame m w) as (_ & _ & _ & _ & _ & _ & _ & _ & _ & Htr & _).
  split; [intros m'; apply hotModule_instances |].
  unfold hotModule in *. destruct (w_modules w !! toString m); by repeat split.
Qed.

(** The five facts the preservation lemmas ask for, at [untouched w0]. *)
Lemma untouched_machinery (w0 : World) :
  (forall q x w, untouched w0 w -> untouched w0 (setQueue q x w))
  /\ (forall e w, untouched w0 w -> untouched w0 (emit e w))
  /\ (forall x w, untouched w0 w -> untouched w0 (set_micro x w))
  /\ (forall k w, untouched w0 w -> untouched w0 (snd (runWork k w)))
  /\ (forall m w, untouched w0 w -> untouched w0 (hotModule m w)).
Proof.
  split; [| split; [| split; [| split]]].
  - intros q x w Hw. eapply untouched_trans; [exact Hw |]. destruct q; same_fields.
  - intros e w Hw. eapply untouched_trans; [exact Hw |]. same_fields.
  - intros x w Hw. eapply untouched_trans; [exact Hw |]. same_fields.
  - intros k w Hw. eapply untouched_trans; [exact Hw |]. apply untouched_runWork.
  - intros m w Hw. eapply untouched_trans; [exact Hw |]. apply untouched_hotModule.
Qed.

Lemma untouched_updateInstances (w0 : World) (moduleId possibleError : jsval) (w : World) :
  untouched w0 w -> untouched w0 (updateInstances moduleId possibleError w).
Proof.
  destruct (untouched_machinery w0) as (Hq & He & Hm & Hk & Hh).
  by apply updateInstances_preserves.
Qed.

Lemma untouched_deepUpdate (w0 : World) (moduleId : jsval) (w : World) :
  untouched w0 w -> untouched w0 (deepUpdate moduleId w).
Proof.
  destruct (untouched_machinery w0) as (Hq & He & Hm & Hk & Hh).
  unfold deepUpdate, runInRenderQueue. by apply enqueue_preserves.
Qed.

Lemma untouched_flushMicro (w0 w : World) :
  untouched w0 w -> untouched w0 (flushMicro w).
Proof.
  destruct (untouched_machinery w0) as (Hq & He & Hm & Hk & Hh).
  unfold flushMicro. by apply drainMicro_preserves.
Qed.

Lemma untouched_dispatchStatus (w0 : World) (status : string) (w : World) :
  untouched w0 w -> untouched w0 (dispatchStatus status w).
Proof.
  unfold dispatchStatus. generalize (w_statusHandlers w) as hs. intros hs. revert w.
  induction hs as [|m hs IH]; intros w Hw; [exact Hw |].
  simpl. apply IH. unfold statusHandler.
  destruct (String.eqb status "apply"); [| exact Hw].
  apply untouched_updateInstances. eapply untouched_trans; [exact Hw | same_fields].
Qed.

Lemma untouched_fireTimer (t : Timer) (w : World) : untouched w (fireTimer t w).
Proof.
  unfold fireTimer.
  set (w1 := set_now (Z.max (w_now w) (t_due t)) (clearTimeout (t_id t) w)).
  assert (H1 : untouched w w1) by same_fields.
  destruct (t_callback t) as [id | m gen c r]; simpl.
  - eapply untouched_trans; [exact H1 | same_fields].
  - unfold tailCheckFire. destruct (negb (getHotGeneration w1 =? gen)).
    + apply untouched_deepUpdate. eapply untouched_trans; [exact H1 | same_fields].
    + destruct (r + 1 <? 5); [| exact H1].
      eapply untouched_trans; [exact H1 | same_fields].
Qed.

(** ** The first-registration flag *)

Lemma hot_cases (sm : option SourceModule) (w : World) :
  (exists s ew w1, sm = Some s /\ hot sm w = (Returned ew, w1))
  \/ (exists e, hot sm w = (Thrown e, w))
  \/ (exists e ev, hot sm w = (Thrown e, emit ev w)).
Proof.
  destruct sm as [s|]; [| right; left; by eexists].
  unfold hot. destruct (negb (truthy _)).
  - right; right. by do 2 eexists.
  - left. simpl. by do 3 eexists.
Qed.

Lemma flag_step (ew : ExportWrapper) (a : HostAction) (w : World) :
  firstHotRegistered ew w = true -> (ew_ident ew < w_nextHot w)%nat ->
  firstHotRegistered ew (step a w) = true /\ (ew_ident ew < w_nextHot (step a w))%nat.
Proof.
  intros Hf Hn.
  assert (Hact : firstHotRegistered ew (act a w) = true
                 /\ (ew_ident ew < w_nextHot (act a w))%nat).
  { destruct a as [sm | ew' comp props | this | this | m e | status | id].
    - simpl. destruct (hot_cases sm w) as [(s & ew0 & w1 & -> & Hh) | [[e Hh] | (e & ev & Hh)]];
        rewrite Hh; simpl; [| by split | by split].
      destruct (hot_returns s w ew0 w1 Hh) as (_ & _ & _ & _ & _ & Hnh & Hfl & _).
      unfold firstHotRegistered in *. rewrite Hfl, Hnh.
      rewrite lookup_insert_ne by lia. split; [exact Hf | lia].
    - simpl. unfold exportWrapper, firstHotRegistered in *. simpl.
      destruct (w_firstHotRegistered w !! ew_ident ew') as [[|]|] eqn:Hf'; simpl;
        (split; [| exact Hn]); try exact Hf;
        (destruct (decide (ew_ident ew' = ew_ident ew)) as [E | E];
         [rewrite E, lookup_insert_eq | rewrite lookup_insert_ne by exact E]; done).
    - by split.
    - simpl. unfold componentWillUnmount. destruct (isModuleOpened _ w); by split.
    - destruct (untouched_updateInstances w m e w (untouched_refl w))
        as (_ & Hfl & Hnh & _).
      simpl. unfold firstHotRegistered in *. rewrite Hfl, Hnh. by split.
    - destruct (untouched_dispatchStatus w status w (untouched_refl w))
        as (_ & Hfl & Hnh & _).
      simpl. unfold firstHotRegistered in *. rewrite Hfl, Hnh. by split.
    - simpl. destruct (findTimer id w) as [t|]; [| by split].
      destruct (untouched_fireTimer t w) as (_ & Hfl & Hnh & _).
      unfold firstHotRegistered in *. rewrite Hfl, Hnh. by split. }
  destruct (untouched_flushMicro (act a w) (act a w) (untouched_refl _))
    as (_ & Hfl & Hnh & _).
  unfold step, firstHotRegistered in *. rewrite Hfl, Hnh. exact Hact.
Qed.

(** X2. Once the export wrapper of a call of [hot] has registered its
    component, no schedule of jobs unsets its flag: every later call of that
    wrapper builds the class without calling [reactHotLoader.register]
    again. *)
Theorem registration_flag_persists (ew : ExportWrapper) (acts : list HostAction)
  (w : World) :
  firstHotRegistered ew w = true -> (ew_ident ew < w_nextHot w)%nat ->
  let w' := run acts w in
  firstHotRegistered ew w' = true
  /\ (forall c props,
      w_trace (snd (exportWrapper ew c props w')) = (w_trace w' ++ [HoistStatics c])%list).
Proof.
  intros Hf Hn w'.
  assert (Hrun : firstHotRegistered ew w' = true /\ (ew_ident ew < w_nextHot w')%nat).
  { subst w'. unfold run. revert w Hf Hn.
    induction acts as [|a acts IH]; intros w Hf Hn; simpl; [by split |].
    destruct (flag_step ew a w Hf Hn) as [Hf' Hn']. by apply IH. }
  destruct Hrun as [Hf' _]. split; [exact Hf' |].
  intros c props. unfold exportWrapper. simpl.
  assert (Hc : firstHotRegistered ew (clearFailbackTimer (ew_failbackTimer ew) w') = true)
    by exact Hf'.
  rewrite Hc. reflexivity.
Qed.

(** ** Tail updates not tracked *)

Lemma noPoll_machinery :
  let P := fun w => w_trackTailUpdates w = false /\ noPollPending w in
  (forall q x w, P w -> P (setQueue q x w))
  /\ (forall e w, P w -> P (emit e w))
  /\ (forall x w, P w -> P (set_micro x w))
  /\ (forall k w, P w -> P (snd (runWork k w)))
  /\ (forall m w, P w -> P (hotModule m w)).
Proof.
  intros P. subst P. split; [| split; [| split; [| split]]].
  - intros q x w Hw. by destruct q.
  - intros e w Hw. exact Hw.
  - intros x w Hw. exact Hw.
  - intros k w [Ht Hp]. destruct k as [m | m]; simpl.
    + unfold reloadTask. destruct (requireIndirect host m); by split.
    + unfold renderTask. rewrite forceUpdateAll_eq. simpl. rewrite Ht. by split.
  - intros m w Hw. unfold hotModule. by destruct (_ !! _).
Qed.

Lemma noPoll_step (a : HostAction) (w : World) :
  w_trackTailUpdates w = false -> noPollPending w ->
  (forall c, attempt c a w = false)
  /\ w_trackTailUpdates (step a w) = false /\ noPollPending (step a w).
Proof.
  intros Ht Hp.
  destruct noPoll_machinery as (Hq & He & Hm & Hk & Hh).
  assert (Hfilter : forall id w0, noPollPending w0 -> noPollPending (clearTimeout id w0)).
  { intros id w0 H0. unfold noPollPending, clearTimeout in *. simpl.
    apply Forall_forall. intros t Hin. apply list_elem_of_filter in Hin as [_ Hin].
    by apply (proj1 (Forall_forall _ _) H0). }
  split.
  - intros c. destruct a as [| | | | | | id]; try reflexivity. simpl.
    destruct (findTimer id w) as [t|] eqn:Hf; [| reflexivity].
    destruct (findTimer_Some id w t Hf) as [_ Hin].
    pose proof (proj1 (Forall_forall _ _) Hp t Hin) as Hfb.
    unfold isFailback, isPollOf in *. by destruct (t_callback t).
  - unfold step, flushMicro.
    apply (drainMicro_preserves
             (fun w => w_trackTailUpdates w = false /\ noPollPending w) Hq He Hm Hk).
    destruct a as [sm | ew comp props | this | this | m e | status | id]; simpl.
    + destruct (hot_cases sm w) as [(s & ew0 & w1 & -> & Hh') | [[e Hh'] | (e & ev & Hh')]];
        rewrite Hh'; simpl; [| by split | by split].
      destruct (hot_returns s w ew0 w1 Hh') as (_ & _ & Hti & _).
      split.
      * unfold hot in Hh'. destruct (negb (truthy _)); [discriminate |].
        simpl in Hh'. injection Hh' as _ <-. simpl.
        unfold makeHotExport, hotModule.
        destruct (w_modules w !! _); destruct (sm_hot s) as [api|];
          try destruct (hot_addStatusHandler api);
          try destruct (String.eqb (hot_status api) "idle"); exact Ht.
      * unfold noPollPending in *. rewrite Hti. apply Forall_app. split; [exact Hp |].
        by apply Forall_singleton.
    + unfold exportWrapper. simpl.
      destruct (negb (firstHotRegistered ew _)); simpl; (split; [exact Ht |]);
        apply (Hfilter (ew_failbackTimer ew) w Hp).
    + by split.
    + unfold componentWillUnmount. destruct (isModuleOpened _ w); by split.
    + by apply (updateInstances_preserves _ Hq He Hm Hk Hh).
    + unfold dispatchStatus. generalize (w_statusHandlers w) as hs. intros hs.
      assert (Hw : w_trackTailUpdates w = false /\ noPollPending w) by (by split).
      clear Ht Hp. revert w Hw.
      induction hs as [|m hs IH]; intros w Hw; [exact Hw |].
      simpl. apply IH. unfold statusHandler.
      destruct (String.eqb status "apply"); [| exact Hw].
      by apply (updateInstances_preserves _ Hq He Hm Hk Hh).
    + destruct (findTimer id w) as [t|] eqn:Hf; [| by split].
      destruct (findTimer_Some id w t Hf) as [_ Hin].
      pose proof (proj1 (Forall_forall _ _) Hp t Hin) as Hfb.
      unfold fireTimer, isFailback in *.
      destruct (t_callback t) as [fid | ? ? ? ?]; [| discriminate]. simpl.
      split; [exact Ht |]. apply (Hfilter (t_id t) w Hp).
Qed.

(** X3. With [trackTailUpdates] off and no poll attempt pending, no schedule
    of jobs ever arms or runs one: the render task only force-updates. *)
Theorem no_poll_when_untracked (acts : list HostAction) (w : World) :
  w_trackTailUpdates w = false -> noPollPending w ->
  (forall c, attempts c acts w = 0%nat)
  /\ noPollPending (run acts w)
  /\ w_trackTailUpdates (run acts w) = false.
Proof.
  revert w. unfold run. induction acts as [|a acts IH]; intros w Ht Hp; simpl; [by split |].
  destruct (noPoll_step a w Ht Hp) as (Hatt & Ht' & Hp').
  destruct (IH _ Ht' Hp') as (Hrest & Hfin & Htr).
  split; [| by split]. intros c. by rewrite Hatt, Hrest.
Qed.

(** ** Registration and lifecycle jobs *)

(** X4. Evaluating a module ([hot], the export wrapper) and mounting or
    unmounting an instance never force-update an instance, never change
    Generation, and leave both queues and the pending reactions alone. *)
Theorem setup_jobs_never_update (a : HostAction) (w : World) :
  isSetupJob a = true ->
  let w' := act a w in
  w_generation w' = w_generation w
  /\ w_requireQueue w' = w_requireQueue w
  /\ w_renderQueue w' = w_renderQueue w
  /\ w_micro w' = w_micro w
  /\ (forall inst, forceUpdates inst (w_trace w') = forceUpdates inst (w_trace w)).
Proof.
  intros Ha w'. subst w'.
  assert (Happ : forall ev inst tr, (forall i, ev <> ForceUpdate i) ->
            forceUpdates inst (tr ++ [ev]) = forceUpdates inst tr).
  { intros ev inst tr Hne. unfold forceUpdates. rewrite count_occ_app.
    rewrite (proj1 (count_occ_not_In Event_eq_dec [ev] (ForceUpdate inst))); [lia |].
    intros [E | []]. by apply Hne in E. }
  destruct a as [sm | ew comp props | this | this | | |]; try discriminate; simpl.
  - destruct sm as [s|]; [| by repeat split]. unfold hot.
    destruct (negb (truthy _)); simpl.
    + repeat split. intros inst. by apply Happ.
    + unfold makeHotExport, hotModule.
      destruct (w_modules w !! _); destruct (sm_hot s) as [api|];
        try destruct (hot_addStatusHandler api);
        try destruct (String.eqb (hot_status api) "idle"); simpl;
        repeat split; intros inst; by apply Happ.
  - unfold exportWrapper. simpl.
    destruct (negb (firstHotRegistered ew _)); simpl; repeat split; intros inst;
      by rewrite !Happ.
  - by repeat split.
  - unfold componentWillUnmount. destruct (isModuleOpened _ w); simpl; repeat split.
    intros inst. by apply Happ.
Qed.

(** ** [makeHotExport] through [hot] *)

(** X5. Registering a module whose [hot] is missing logs the one warning
    that Hot Module Replacement is not enabled and subscribes nothing; the
    call still succeeds and still arms the failback timer. *)
Theorem hot_without_hmr (sm : SourceModule) (w : World) (ew : ExportWrapper) (w1 : World) :
  hot (Some sm) w = (Returned ew, w1) -> sm_hot sm = None ->
  w_trace w1 =
    (w_trace w ++ [LoggerWarn "React-hot-loader: Hot Module Replacement is not enabled"])%list
  /\ w_acceptHandlers w1 = w_acceptHandlers w
  /\ w_statusHandlers w1 = w_statusHandlers w
  /\ w_timers w1 =
     (w_timers w ++ [{| t_id := ew_failbackTimer ew; t_due := w_now w + 100;
                        t_callback := FailbackFire (ew_moduleId ew) |}])%list.
Proof.
  intros Hhot Hnone.
  destruct (hot_returns sm w ew w1 Hhot) as (Hew & _ & Hti & _).
  split; [| split; [| split]]; [| | | by rewrite Hti, Hew].
  all: unfold hot in Hhot; destruct (negb (truthy _)); [discriminate |];
    simpl in Hhot; injection Hhot as _ <-; simpl;
    unfold makeHotExport; rewrite Hnone; simpl;
    unfold hotModule; by destruct (w_modules w !! _).
Qed.

(** X6. Registering a module that has [hot] logs nothing and hands
    [updateInstances] to [accept] once, always; the status handler is added
    exactly when [addStatusHandler] exists and [status()] is [idle], so a
    module evaluated again while an update is applied adds no second
    handler. *)
Theorem hot_subscription_rule (sm : SourceModule) (api : HotApi) (w : World)
  (ew : ExportWrapper) (w1 : World) :
  hot (Some sm) w = (Returned ew, w1) -> sm_hot sm = Some api ->
  w_trace w1 = w_trace w
  /\ w_acceptHandlers w1 = (w_acceptHandlers w ++ [ew_moduleId ew])%list
  /\ w_statusHandlers w1 =
     (w_statusHandlers w ++
      if hot_addStatusHandler api && String.eqb (hot_status api) "idle"
      then [ew_moduleId ew] else [])%list.
Proof.
  intros Hhot Hapi.
  destruct (hot_returns sm w ew w1 Hhot) as (Hew & _).
  rewrite Hew. simpl.
  unfold hot in Hhot; destruct (negb (truthy _)); [discriminate |].
  simpl in Hhot. injection Hhot as _ <-. simpl.
  unfold makeHotExport. rewrite Hapi.
  destruct (hot_addStatusHandler api); destruct (String.eqb (hot_status api) "idle");
    simpl; unfold hotModule; destruct (w_modules w !! _); simpl;
    rewrite ?app_nil_r; by repeat split.
Qed.

(** X7. Neither [hot] nor the export wrapper changes any module's instance
    list: a module evaluated again after a change keeps the instances that
    mounted before, and the next update still reaches them. *)
Theorem registration_keeps_instances (w : World) (m : jsval) :
  (forall sm, moduleInstances m (snd (hot sm w)) = moduleInstances m w)
  /\ (forall ew c props,
      moduleInstances m (snd (exportWrapper ew c props w)) = moduleInstances m w).
Proof.
  split.
  - intros [sm|]; [| reflexivity]. unfold hot.
    destruct (negb (truthy _)); [reflexivity |]. simpl.
    set (moduleId := js_or (js_or (sm_id sm) (sm_i sm)) (sm_filename sm)).
    rewrite <- (hotModule_instances moduleId m w).
    unfold moduleInstances, makeHotExport.
    destruct (sm_hot sm) as [api|]; [| reflexivity].
    destruct (hot_addStatusHandler api); [| reflexivity].
    by destruct (String.eqb (hot_status api) "idle").
  - intros ew c props. unfold exportWrapper, moduleInstances. simpl.
    by destruct (negb (firstHotRegistered ew _)).
Qed.

(** ** Mounts and unmounts *)

Lemma componentDidMount_instances (this : Instance) (w : World) :
  moduleInstances (instModuleId this) (componentDidMount this w) =
  (moduleInstances (instModuleId this) w ++ [inst_ident this])%list.
Proof. unfold componentDidMount. by rewrite moduleInstances_set. Qed.

Lemma componentWillUnmount_instances (this : Instance) (w : World) :
  moduleInstances (instModuleId this) (componentWillUnmount this w) =
  filter (fun a => a <> inst_ident this) (moduleInstances (instModuleId this) w).
Proof.
  unfold componentWillUnmount. fold (instModuleId this).
  rewrite moduleInstances_set. by destruct (isModuleOpened _ w).
Qed.

Lemma filter_absent (i : nat) (l : list nat) :
  i ∉ l -> filter (fun a => a <> i) l = l.
Proof.
  induction l as [|x l IH]; intros Hin; [reflexivity |].
  apply not_elem_of_cons in Hin as [Hne Hin].
  rewrite filter_cons, decide_True by congruence. by rewrite IH.
Qed.

(** X8. For every sequence of mounts and unmounts of one module's
    instances, an instance is in the module's list afterwards exactly when
    its last event was a mount, or when it had no event and was in the list
    before. *)
Theorem registry_tracks_lifecycle (m : jsval) (evs : list Lifecycle) (w : World) (i : nat) :
  Forall (fun ev => instModuleId (lifecycleInstance ev) = m) evs ->
  i ∈ moduleInstances m (lifecycleRun evs w)
  <-> mountedAfter i evs (bool_decide (i ∈ moduleInstances m w)) = true.
Proof.
  unfold lifecycleRun, mountedAfter. intros Hm. revert w.
  induction Hm as [|ev evs Hev _ IH]; intros w; simpl.
  - by rewrite bool_decide_eq_true.
  - rewrite IH. clear IH.
    match goal with
    | |- fold_left ?f _ ?b1 = true <-> fold_left ?f _ ?b2 = true =>
        assert (Hb : b1 = b2); [| by rewrite Hb]
    end.
    destruct ev as [this | this]; simpl in *; subst m.
    + rewrite componentDidMount_instances.
      destruct (Nat.eqb_spec (inst_ident this) i) as [-> | Hne].
      * apply bool_decide_eq_true. apply elem_of_app. right. apply list_elem_of_here.
      * apply bool_decide_ext. rewrite elem_of_app, list_elem_of_singleton.
        split; [intros [H | H]; [exact H | congruence] | by left].
    + rewrite componentWillUnmount_instances.
      destruct (Nat.eqb_spec (inst_ident this) i) as [-> | Hne].
      * apply bool_decide_eq_false. intros Hin.
        apply list_elem_of_filter in Hin as [Hne _]. by apply Hne.
      * apply bool_decide_ext. rewrite list_elem_of_filter.
        split; [by intros [_ H] | intros H; split; [congruence | exact H]].
Qed.

(** X9. An unmount undoes the mount of an instance that was not in the list,
    an unmount of an instance that is not in the list leaves the list as it
    is, and a second unmount changes nothing. *)
Theorem unmount_undoes_mount (this : Instance) (w : World) :
  let m := instModuleId this in
  (inst_ident this ∉ moduleInstances m w ->
   moduleInstances m (componentWillUnmount this (componentDidMount this w)) =
   moduleInstances m w)
  /\ (inst_ident this ∉ moduleInstances m w ->
      moduleInstances m (componentWillUnmount this w) = moduleInstances m w)
  /\ moduleInstances m (componentWillUnmount this (componentWillUnmount this w)) =
     moduleInstances m (componentWillUnmount this w).
Proof.
  intros m. subst m. split; [| split].
  - intros Hin. rewrite componentWillUnmount_instances, componentDidMount_instances.
    rewrite filter_app, filter_absent by exact Hin.
    rewrite filter_cons, decide_False by (intros Hne; by apply Hne).
    by rewrite app_nil_r.
  - intros Hin. rewrite componentWillUnmount_instances. by apply filter_absent.
  - rewrite !componentWillUnmount_instances. apply filter_absent.
    intros Hin. apply list_elem_of_filter in Hin as [Hne _]. by apply Hne.
Qed.

(** X10. [componentDidMount] pushes without looking: each mount adds one
    more copy of the instance to the list, a mount of an instance that is not
    in a repetition-free list keeps it repetition-free, and one unmount
    removes every copy and keeps a repetition-free list so. *)
Theorem mount_pushes_unmount_removes_all (this : Instance) (w : World) :
  let m := instModuleId this in
  count_occ Nat.eq_dec (moduleInstances m (componentDidMount this w)) (inst_ident this) =
    S (count_occ Nat.eq_dec (moduleInstances m w) (inst_ident this))
  /\ count_occ Nat.eq_dec (moduleInstances m (componentWillUnmount this w)) (inst_ident this)
     = 0%nat
  /\ (NoDup (moduleInstances m w) -> inst_ident this ∉ moduleInstances m w ->
      NoDup (moduleInstances m (componentDidMount this w)))
  /\ (NoDup (moduleInstances m w) -> NoDup (moduleInstances m (componentWillUnmount this w))).
Proof.
  intros m. subst m. split; [| split; [| split]].
  - rewrite componentDidMount_instances, count_occ_app. simpl.
    destruct (Nat.eq_dec _ _); [lia | done].
  - rewrite componentWillUnmount_instances. apply count_occ_not_In.
    intros Hin. apply list_elem_of_In, list_elem_of_filter in Hin as [Hne _]. by apply Hne.
  - intros Hnd Hin. rewrite componentDidMount_instances.
    apply NoDup_app. split; [exact Hnd |]. split; [| apply NoDup_singleton].
    intros x Hx Hx'. apply list_elem_of_singleton in Hx'. by subst x.
  - intros Hnd. rewrite componentWillUnmount_instances. by apply NoDup_filter.
Qed.

(** ** The failback timer and the export wrapper *)

Lemma find_filter_ne (id id' : nat) (ts : list Timer) :
  id <> id' ->
  List.find (fun t => Nat.eqb (t_id t) id) (filter (fun t => t_id t <> id') ts) =
  List.find (fun t => Nat.eqb (t_id t) id) ts.
Proof.
  intros Hne. induction ts as [|t ts IH]; [reflexivity |].
  rewrite filter_cons. destruct (decide (t_id t <> id')) as [H | H]; simpl.
  - by rewrite IH.
  - destruct (Nat.eqb_spec (t_id t) id) as [E | _]; [| exact IH].
    exfalso. apply H. congruence.
Qed.

Lemma filter_not_found (id : nat) (ts : list Timer) :
  List.find (fun t => Nat.eqb (t_id t) id) ts = None ->
  filter (fun t => t_id t <> id) ts = ts.
Proof.
  induction ts as [|t ts IH]; [reflexivity |]. simpl.
  destruct (Nat.eqb_spec (t_id t) id) as [E | Hne]; [discriminate |].
  intros Hf. rewrite filter_cons, decide_True by exact Hne. by rewrite IH.
Qed.

Lemma exportWrapper_timers (ew : ExportWrapper) (c : Component) (props : Props)
  (w : World) :
  w_timers (snd (exportWrapper ew c props w)) =
  filter (fun t => t_id t <> ew_failbackTimer ew) (w_timers w)
  /\ w_exceptions (snd (exportWrapper ew c props w)) = w_exceptions w.
Proof.
  unfold exportWrapper. simpl. by destruct (negb (firstHotRegistered ew _)).
Qed.

(** X11. The export wrapper cancels the timer of its own call of [hot] and
    no other: with two modules registered one after the other, exporting
    the first leaves the second's failback timer pending, as armed. *)
Theorem wrapper_clears_only_its_timer (smA smB : SourceModule) (w w1 w2 : World)
  (ewA ewB : ExportWrapper) (c : Component) (props : Props) :
  timersFresh w ->
  hot (Some smA) w = (Returned ewA, w1) ->
  hot (Some smB) w1 = (Returned ewB, w2) ->
  let w3 := snd (exportWrapper ewA c props w2) in
  ew_failbackTimer ewA <> ew_failbackTimer ewB
  /\ findTimer (ew_failbackTimer ewA) w3 = None
  /\ findTimer (ew_failbackTimer ewB) w3 =
     Some {| t_id := ew_failbackTimer ewB; t_due := w_now w + 100;
             t_callback := FailbackFire (ew_moduleId ewB) |}
  /\ (forall id, id <> ew_failbackTimer ewA -> findTimer id w3 = findTimer id w2).
Proof.
  intros Hfresh HA HB w3.
  destruct (hot_returns smA w ewA w1 HA)
    as (HewA & _ & Hti1 & Hnt1 & _ & _ & _ & _ & _ & _ & _ & Hnow1 & _).
  destruct (hot_returns smB w1 ewB w2 HB) as (HewB & _ & Hti2 & _).
  assert (Hne : ew_failbackTimer ewA <> ew_failbackTimer ewB).
  { rewrite HewA, HewB. simpl. lia. }
  assert (Hother : forall id, id <> ew_failbackTimer ewA ->
                   findTimer id w3 = findTimer id w2).
  { intros id Hid. subst w3. unfold findTimer.
    rewrite (proj1 (exportWrapper_timers ewA c props w2)). by apply find_filter_ne. }
  split; [exact Hne |]. split; [apply exportWrapper_clears_timer |].
  split; [| exact Hother].
  rewrite Hother by congruence. unfold findTimer. rewrite Hti2.
  assert (Hfresh1 : Forall (fun u => (t_id u < w_nextTimer w1)%nat) (w_timers w1)).
  { rewrite Hti1, Hnt1. apply Forall_app. split.
    - eapply Forall_impl; [exact Hfresh |]. simpl. intros t Hlt. lia.
    - apply Forall_singleton. simpl. lia. }
  rewrite HewB. simpl. rewrite Hnow1.
  by apply findTimer_fresh.
Qed.

(** X12. Called after its failback timer has fired (or was cleared), the
    export wrapper leaves the timer table as it is and keeps the exceptions
    already reported; it still returns the class and, on its first call,
    still registers the component. *)
Theorem late_export (ew : ExportWrapper) (c : Component) (props : Props) (w : World) :
  findTimer (ew_failbackTimer ew) w = None ->
  let w' := snd (exportWrapper ew c props w) in
  w_timers w' = w_timers w
  /\ w_exceptions w' = w_exceptions w
  /\ ec_wrapped (fst (exportWrapper ew c props w)) = c
  /\ (firstHotRegistered ew w = false ->
      w_trace w' =
      (w_trace w ++ [HotRegister c (getComponentDisplayName host c)
                       ("RHL" ++ toString (ew_moduleId ew));
                     HoistStatics c])%list).
Proof.
  intros Hnone w'. subst w'.
  destruct (exportWrapper_timers ew c props w) as [Hti Hx].
  split; [rewrite Hti; by apply filter_not_found |]. split; [exact Hx |].
  split; [reflexivity |].
  intros Hflag. unfold exportWrapper. simpl.
  assert (Hc : firstHotRegistered ew (clearFailbackTimer (ew_failbackTimer ew) w) = false)
    by exact Hflag.
  rewrite Hc. simpl. by rewrite <- app_assoc.
Qed.

(** ** An undisturbed tail poll *)

Lemma notify_quiescent_clock (moduleId : jsval) (w : World) :
  quiescent w ->
  let w' := step (Notify moduleId VUndefined) w in
  w_now w' = w_now w /\ w_trackTailUpdates w' = w_trackTailUpdates w.
Proof.
  intros (Hrq & Hnq & Hmi) w'. subst w'. unfold step, act.
  destruct (updateInstances_idle moduleId w Hrq)
    as (_ & Hm & _ & Hnq' & _ & _ & _ & _ & Hn & Htr & _).
  rewrite Hmi in Hm. simpl in Hm.
  rewrite (flushMicro_single moduleId _ Hm).
  destruct (deepUpdate_idle moduleId
              (set_micro [] (updateInstances moduleId VUndefined w)))
    as (_ & _ & _ & _ & _ & _ & _ & _ & Hn2 & Htr2 & _).
  { simpl. by rewrite Hnq'. }
  rewrite Hn2, Htr2. simpl. by split.
Qed.

(** One tick of a cycle that polls alone and finds Generation at its epoch. *)
Lemma tick_polling (moduleId : jsval) (gen : Z) (cycle : nat) (runLimit due : Z)
  (w : World) :
  pollingAt moduleId gen cycle runLimit due w ->
  let w' := tick w in
  w_trace w' = w_trace w /\ w_generation w' = gen /\ w_now w' = due /\ w_micro w' = []
  /\ (if runLimit + 1 <? 5
      then exists id, w_timers w' =
             [{| t_id := id; t_due := due + 16;
                 t_callback := TailCheck moduleId gen cycle (runLimit + 1) |}]
      else w_timers w' = []).
Proof.
  intros ([id Hti] & Hg & Hmi & Hnow) w'. subst w'.
  unfold tick. rewrite Hti. simpl. unfold step, act, findTimer. rewrite Hti. simpl.
  rewrite Nat.eqb_refl. unfold fireTimer. simpl.
  set (w0 := set_now (Z.max (w_now w) due) (clearTimeout id w)).
  assert (Ht0 : w_timers w0 = []).
  { subst w0. simpl. rewrite Hti. by apply filter_own_timer. }
  unfold tailCheckFire.
  assert (Hg0 : getHotGeneration w0 = gen) by exact Hg.
  rewrite Hg0, Z.eqb_refl. simpl.
  assert (Hmax : Z.max (w_now w) due = due) by lia.
  destruct (runLimit + 1 <? 5).
  - rewrite flushMicro_nil by exact Hmi. simpl in *. rewrite Ht0, Hmax.
    repeat split; try done. by eexists.
  - rewrite flushMicro_nil by exact Hmi. simpl in *. rewrite Hmax. by repeat split.
Qed.

Lemma poll_iterates (moduleId : jsval) (gen : Z) (cycle : nat) (due : Z) (w : World)
  (n : nat) :
  pollingAt moduleId gen cycle 0 due w -> (n < 5)%nat ->
  pollingAt moduleId gen cycle (Z.of_nat n) (due + 16 * Z.of_nat n) (Nat.iter n tick w)
  /\ w_trace (Nat.iter n tick w) = w_trace w.
Proof.
  intros Hp. induction n as [|n IH]; intros Hn.
  - simpl. rewrite Z.add_0_r. by split.
  - destruct IH as [Hpn Htr]; [lia |].
    destruct (tick_polling _ _ _ _ _ _ Hpn) as (Ht & Hg & Hnow & Hmi & Hti).
    simpl Nat.iter.
    destruct (Z.ltb_spec (Z.of_nat n + 1) 5) as [_ | Hge]; [| lia].
    destruct Hti as [id Hti].
    split; [| by rewrite Ht].
    replace (Z.of_nat (S n)) with (Z.of_nat n + 1) by lia.
    replace (due + 16 * (Z.of_nat n + 1)) with (due + 16 * Z.of_nat n + 16) by lia.
    split; [by exists id |]. split; [exact Hg |]. split; [exact Hmi | lia].
Qed.

(** X13. A cycle that polls alone, with nothing else changing Generation,
    makes exactly five attempts, 16 ms apart, and then the timer table is
    empty: 80 ms after the update the event loop has nothing left to run,
    the trace is the update's own and Generation is still the cycle's
    epoch. *)
Theorem undisturbed_poll_ends (moduleId : jsval) (w : World) :
  quiescent w -> w_timers w = [] -> w_trackTailUpdates w = true ->
  let w1 := step (Notify moduleId VUndefined) w in
  let after := fun n => Nat.iter n tick w1 in
  (forall n, (n < 5)%nat ->
     pollingAt moduleId (w_generation w + 1) (w_nextCycle w) (Z.of_nat n)
       (w_now w + 16 * (Z.of_nat n + 1)) (after n))
  /\ w_timers (after 5%nat) = []
  /\ w_now (after 5%nat) = w_now w + 80
  /\ w_generation (after 5%nat) = w_generation w + 1
  /\ w_trace (after 5%nat) = w_trace w1
  /\ after 6%nat = after 5%nat.
Proof.
  intros Hq Hempty Htrack w1 after.
  destruct (notify_quiescent moduleId w Hq) as (Hg & _ & Hti & _ & (_ & _ & Hmi)).
  destruct (notify_quiescent_clock moduleId w Hq) as [Hnow _].
  fold w1 in Hg, Hti, Hmi, Hnow.
  assert (Hp0 : pollingAt moduleId (w_generation w + 1) (w_nextCycle w) 0
                  (w_now w + 16) w1).
  { split; [| split; [exact Hg | split; [exact Hmi | lia]]].
    exists (w_nextTimer w). rewrite Hti, Hempty. unfold tailTimers. by rewrite Htrack. }
  assert (Hn : forall n, (n < 5)%nat ->
     pollingAt moduleId (w_generation w + 1) (w_nextCycle w) (Z.of_nat n)
       (w_now w + 16 * (Z.of_nat n + 1)) (after n)
     /\ w_trace (after n) = w_trace w1).
  { intros n Hlt. destruct (poll_iterates _ _ _ _ _ n Hp0 Hlt) as [Hp Ht].
    split; [| exact Ht].
    replace (w_now w + 16 * (Z.of_nat n + 1)) with (w_now w + 16 + 16 * Z.of_nat n) by lia.
    exact Hp. }
  split; [intros n Hlt; by destruct (Hn n Hlt) |].
  destruct (Hn 4%nat) as [Hp4 Ht4]; [lia |].
  destruct (tick_polling _ _ _ _ _ _ Hp4) as (Ht & Hg5 & Hnow5 & Hmi5 & Hti5).
  assert (Hc : (Z.of_nat 4 + 1 <? 5) = false) by reflexivity.
  rewrite Hc in Hti5. clear Hc.
  assert (Hidle : forall u, w_timers u = [] -> tick u = u).
  { intros u Hu. unfold tick. by rewrite Hu. }
  change (tick (after 4%nat)) with (after 5%nat) in Ht, Hg5, Hnow5, Hti5.
  split; [exact Hti5 |]. split; [rewrite Hnow5; lia |].
  split; [exact Hg5 |]. split; [by rewrite Ht |].
  change (after 6%nat) with (tick (after 5%nat)). by apply Hidle.
Qed.

(** ** One status report, as a whole job *)

(** X14. One report of status [apply] updates every subscribed module once,
    in the order of subscription: first the re-require of each, then the
    render task of each, so Generation rises by the number of handlers and
    every instance of every subscribed module is force-updated; the
    exceptions are cleared.  Any other status changes nothing. *)
Theorem apply_updates_every_subscriber (w : World) :
  quiescent w ->
  let hs := w_statusHandlers w in
  let w' := step (Status "apply") w in
  w_generation w' = w_generation w + Z.of_nat (length hs)
  /\ w_trace w' =
     (w_trace w ++ concat (map reloadTrace hs)
        ++ concat (map (fun m => batchTrace ++ map ForceUpdate (moduleInstances m w)) hs))%list
  /\ (hs <> [] -> w_exceptions w' = [])
  /\ quiescent w'
  /\ (forall status, status <> "apply" -> step (Status status) w = w).
Proof.
  intros (Hrq & Hnq & Hmi) hs w'.
  destruct (dispatch_apply_fold hs w Hrq) as (Ht & Hm & Hrq' & Hnq' & Hg & Hin & Hx).
  rewrite Hmi in Hm. simpl in Hm.
  set (wd := fold_left (fun acc m => statusHandler m "apply" acc) hs w) in *.
  assert (Hw' : w' = drainMicro (length hs) wd).
  { subst w'. unfold step, flushMicro. simpl. unfold dispatchStatus. fold hs. fold wd.
    by rewrite Hm, length_map. }
  destruct (drain_renders hs wd) as (Hg2 & Ht2 & Hmi2 & Hnq2 & Hrq2 & Hx2).
  { by rewrite Hnq'. } { exact Hm. }
  rewrite <- Hw' in *.
  assert (Hmap : map (fun m => (batchTrace ++ map ForceUpdate (moduleInstances m wd))%list) hs
                 = map (fun m => (batchTrace ++ map ForceUpdate (moduleInstances m w))%list) hs).
  { apply map_ext. intros m. by rewrite Hin. }
  split; [by rewrite Hg2, Hg |].
  split; [by rewrite Ht2, Ht, Hmap, <- app_assoc |].
  split; [intros Hne; rewrite Hx2, Hx; by destruct hs |].
  split; [repeat split; congruence |].
  intros status Hne. unfold step. simpl.
  assert (Hd : dispatchStatus status w = w).
  { unfold dispatchStatus. generalize (w_statusHandlers w) as l.
    induction l as [|m l IH]; [reflexivity |]. simpl. unfold statusHandler at 2.
    destruct (String.eqb_spec status "apply"); [done | exact IH]. }
  rewrite Hd. by apply flushMicro_nil.
Qed.

End Coverage.

(** * The scenarios, checked *)

Example hot_moduleA_returns :
  fst (hot (Some moduleA) (initialWorld true)) = Returned wrapperA.
Proof. vm_compute. reflexivity. Qed.

Example exportWrapper_returns :
  fst (exportWrapper (host:=quietHost) wrapperA App [] (snd (hot (Some moduleA) (initialWorld true))))
  = exportedA.
Proof. vm_compute. reflexivity. Qed.

Example mounted_instances : moduleInstances (VStr "A") (mounted false) = [1; 2]%nat.
Proof. vm_compute. reflexivity. Qed.

(** The whole trace of the two-instance scenario, then an update. *)
Example update_trace :
  w_trace (step (host:=quietHost) (Notify (VStr "A") VUndefined) (mounted false)) =
  [HotRegister App "App" "RHLA"; HoistStatics App; RequireIndirect (VStr "A");
   BatchedUpdates; ForceUpdate 1; ForceUpdate 2]
  /\ w_generation (step (host:=quietHost) (Notify (VStr "A") VUndefined) (mounted false)) = 1.
Proof. repeat apply conj; vm_compute; reflexivity. Qed.

(** With tail updates tracked and nothing else going on, the cycle polls five
    times, 16 ms apart, and stops; Generation stays at 1. *)
Example quiet_poll :
  let w := step (host:=quietHost) (Notify (VStr "A") VUndefined) (mounted true) in
  let ticks := fun n => Nat.iter n (tick (host:=quietHost)) w in
  attempts (host:=quietHost) 0 [Fire 2; Fire 3; Fire 4; Fire 5; Fire 6; Fire 7] w = 5%nat
  /\ map t_due (w_timers (ticks 4%nat)) = [80]
  /\ w_timers (ticks 5%nat) = []
  /\ w_generation (ticks 5%nat) = 1
  /\ ticks 6%nat = ticks 5%nat.
Proof. cbv zeta. repeat apply conj; vm_compute; reflexivity. Qed.

(** Two cycles that overlap: the first one's attempt finds Generation
    changed, warns and re-runs once; its chain is over, the re-run polls as
    cycle 2. *)
Example overlapping_cycles :
  let w := run (host:=quietHost) [Notify (VStr "A") VUndefined; Notify (VStr "A") VUndefined]
             (mounted true) in
  map t_callback (w_timers w) =
    [TailCheck (VStr "A") 1 0 0; TailCheck (VStr "A") 2 1 0]
  /\ mismatch 0 (Fire 2) w = true
  /\ map t_callback (w_timers (step (host:=quietHost) (Fire 2) w)) =
     [TailCheck (VStr "A") 2 1 0; TailCheck (VStr "A") 3 2 0]
  /\ w_generation (step (host:=quietHost) (Fire 2) w) = 3.
Proof. cbv zeta. repeat apply conj; vm_compute; reflexivity. Qed.

(** ** The theorems at these scenarios *)

Lemma mounted_quiescent (track : bool) : quiescent (mounted track).
Proof. destruct track; repeat apply conj; vm_compute; reflexivity. Defined.

(** C1 at a bundler error reported for module A. *)
Lemma updateInstances_error_aborts_witness :
  instanceofError (VError "boom") = true
  /\ updateInstances (host:=quietHost) (VStr "A") (VError "boom") (mounted true) =
     emit (ConsoleError [VError "boom"]) (mounted true)
  /\ w_generation (updateInstances (host:=quietHost) (VStr "A") (VError "boom") (mounted true)) =
     w_generation (mounted true).
Proof.
  destruct (updateInstances_error_aborts (host:=quietHost) (VStr "A") (VError "boom")
              (mounted true) eq_refl)
    as (H1 & _ & _ & _ & _ & _ & H7 & _).
  exact (conj eq_refl (conj H1 H7)).
Defined.

(** C9 at a string passed where the error would be, with the two instances
    of module A mounted. *)
Lemma updateInstances_non_error_proceeds_witness :
  truthy (VStr "stale") = true
  /\ instanceofError (VStr "stale") = false
  /\ quiescent (mounted true)
  /\ updateInstances (host:=quietHost) (VStr "A") (VStr "stale") (mounted true) =
     updateInstances (host:=quietHost) (VStr "A") VUndefined (mounted true)
  /\ w_generation (step (host:=quietHost) (Notify (VStr "A") (VStr "stale")) (mounted true)) =
     w_generation (mounted true) + 1
  /\ w_trace (step (host:=quietHost) (Notify (VStr "A") (VStr "stale")) (mounted true)) =
     (w_trace (mounted true) ++ reloadTrace (host:=quietHost) (VStr "A")
        ++ batchTrace (host:=quietHost)
        ++ map ForceUpdate (moduleInstances (VStr "A") (mounted true)))%list.
Proof.
  destruct (updateInstances_non_error_proceeds (host:=quietHost) (VStr "A") (VStr "stale")
              (mounted true) eq_refl eq_refl)
    as (Heq & _ & _ & _ & Hjob).
  destruct (Hjob (mounted_quiescent true)) as (Hg & Ht & _).
  exact (conj eq_refl (conj eq_refl (conj (mounted_quiescent true) (conj Heq (conj Hg Ht))))).
Defined.

(** C3 at the two mounted instances of module A. *)
Lemma deepUpdate_cycle_witness :
  quiescent (mounted false)
  /\ (1 <> 2)%nat
  /\ moduleInstances (VStr "A") (mounted false) = [1; 2]%nat
  /\ w_generation (step (host:=quietHost) (Notify (VStr "A") VUndefined) (mounted false)) =
     w_generation (mounted false) + 1
  /\ forceUpdates 1 (w_trace (step (host:=quietHost) (Notify (VStr "A") VUndefined) (mounted false))) =
     S (forceUpdates 1 (w_trace (mounted false)))
  /\ forceUpdates 2 (w_trace (step (host:=quietHost) (Notify (VStr "A") VUndefined) (mounted false))) =
     S (forceUpdates 2 (w_trace (mounted false))).
Proof.
  assert (Hne : (1 <> 2)%nat) by lia.
  assert (Hl : moduleInstances (VStr "A") (mounted false) = [1; 2]%nat)
    by (vm_compute; reflexivity).
  destruct (proj1 (proj2 (deepUpdate_cycle (host:=quietHost) (VStr "A") (mounted false)))
              (mounted_quiescent false))
    as (Hg & _ & _ & _ & Htwo).
  destruct (Htwo 1%nat 2%nat Hne Hl) as [H1 H2].
  exact (conj (mounted_quiescent false) (conj Hne (conj Hl (conj Hg (conj H1 H2))))).
Defined.

(** C4 at a re-require that throws. *)
Lemma deepUpdate_after_reload_settles_witness :
  quiescent (mounted false)
  /\ requireIndirect throwingHost (VStr "A") = Thrown (VError "boom")
  /\ reloadTrace (host:=throwingHost) (VStr "A") =
     [RequireIndirect (VStr "A");
      ConsoleError [VStr "React-Hot-Loader: error detected while loading"; VStr "A"];
      ConsoleError [VError "boom"]]
  /\ w_trace (step (host:=throwingHost) (Notify (VStr "A") VUndefined) (mounted false)) =
     (w_trace (mounted false) ++ reloadTrace (host:=throwingHost) (VStr "A")
        ++ batchTrace (host:=throwingHost)
        ++ map ForceUpdate (moduleInstances (VStr "A") (mounted false)))%list
  /\ w_generation (step (host:=throwingHost) (Notify (VStr "A") VUndefined) (mounted false)) =
     w_generation (mounted false) + 1.
Proof.
  destruct (deepUpdate_after_reload_settles (host:=throwingHost) (VStr "A") (mounted false))
    as (_ & _ & _ & Hthrow & Hrun & _).
  destruct (Hrun (mounted_quiescent false)) as (Ht & Hg & _).
  exact (conj (mounted_quiescent false)
           (conj eq_refl (conj (Hthrow (VError "boom") eq_refl) (conj Ht Hg)))).
Defined.

(** C5 at module B, whose export step never runs, and at module B exported
    in time. *)
Lemma failback_timer_witness :
  hot (Some moduleB) (initialWorld false) = (Returned wrapperB, registeredB)
  /\ w_timers (initialWorld false) = []
  /\ w_micro (initialWorld false) = []
  /\ w_exceptions (tick (host:=quietHost) registeredB) = [failbackMessage (VStr "B") registeredB]
  /\ w_now (tick (host:=quietHost) registeredB) = w_now (initialWorld false) + 100
  /\ tick (host:=quietHost) (tick (host:=quietHost) registeredB) = tick (host:=quietHost) registeredB
  /\ w_exceptions (snd (exportWrapper (host:=quietHost) wrapperB App [] registeredB)) = []
  /\ tick (host:=quietHost) (snd (exportWrapper (host:=quietHost) wrapperB App [] registeredB)) =
     snd (exportWrapper (host:=quietHost) wrapperB App [] registeredB).
Proof.
  assert (Hhot : hot (Some moduleB) (initialWorld false) = (Returned wrapperB, registeredB))
    by (vm_compute; reflexivity).
  destruct (failback_timer (host:=quietHost) moduleB (initialWorld false) wrapperB registeredB Hhot)
    as (_ & _ & _ & _ & _ & Hquiet & _).
  destruct (Hquiet eq_refl eq_refl) as [(Hx & Hn & _ & Hstop) Hwrapped].
  destruct (Hwrapped App []) as (_ & Hidle & Hnone).
  exact (conj Hhot (conj eq_refl (conj eq_refl
           (conj Hx (conj Hn (conj Hstop (conj Hnone Hidle))))))).
Defined.

Lemma overlapping_chasing : chasing (VStr "A") 2 overlapping.
Proof.
  exists 2%nat, 3%nat, 0%nat, 1%nat, 16, 16.
  split; [vm_compute; reflexivity |]. split; [vm_compute; reflexivity |].
  split; [vm_compute; reflexivity |].
  split; [repeat apply conj; vm_compute; reflexivity |].
  split; [lia |]. split; [vm_compute; lia |].
  split; [vm_compute; discriminate |]. split; lia.
Defined.

(** C2 at run 0 of the overlapping updates: its first attempt finds
    Generation at 2, and from there the two polls chase each other. *)
Lemma tail_poll_bounded_witness :
  getHotGeneration overlapping <> 1
  /\ w_renderQueue overlapping = idleQueue
  /\ remaining 0 overlapping = Some 5%nat
  /\ mismatch 0 (Fire 2) overlapping = true
  /\ chasing (VStr "A") 2 overlapping
  /\ tailCheckFire (host:=quietHost) (VStr "A") 1 0 0 overlapping =
     deepUpdate (host:=quietHost) (VStr "A") (emit (LoggerWarn tailWarning) overlapping)
  /\ w_generation (tailCheckFire (host:=quietHost) (VStr "A") 1 0 0 overlapping) =
     w_generation overlapping + 1
  /\ (attempts (host:=quietHost) 0 [Fire 2; Fire 3; Fire 4; Fire 5] overlapping <= 5)%nat
  /\ (mismatches (host:=quietHost) 0 [Fire 2; Fire 3; Fire 4; Fire 5] overlapping <= 1)%nat
  /\ attempts (host:=quietHost) 0 [Fire 3; Fire 4; Fire 5] (step (host:=quietHost) (Fire 2) overlapping) = 0%nat
  /\ pollTicks (host:=quietHost) 20 overlapping = 20%nat
  /\ length (pollsPending chased) = 2%nat.
Proof.
  assert (Hne : getHotGeneration overlapping <> 1) by (vm_compute; discriminate).
  assert (Hq : w_renderQueue overlapping = idleQueue) by (vm_compute; reflexivity).
  assert (Hk : remaining 0 overlapping = Some 5%nat) by (vm_compute; reflexivity).
  assert (Hm : mismatch 0 (Fire 2) overlapping = true) by (vm_compute; reflexivity).
  destruct (tail_poll_bounded (host:=quietHost) (VStr "A") 1 0%nat 0 overlapping)
    as (_ & Hdiff & _ & Hbound & Hlast & _ & _ & _ & Hchase).
  destruct (Hdiff Hne) as [Hfire Hidle].
  destruct (Hidle Hq) as (Hg & _).
  destruct (Hbound 0%nat 5%nat [Fire 2; Fire 3; Fire 4; Fire 5] Hk) as (Ha & _ & Hmm).
  destruct (Hchase 2 20%nat overlapping_chasing) as (_ & Hp & _ & _ & Hl).
  exact (conj Hne (conj Hq (conj Hk (conj Hm (conj overlapping_chasing (conj Hfire
           (conj Hg (conj Ha (conj Hmm
              (conj (Hlast 0%nat 5%nat (Fire 2) [Fire 3; Fire 4; Fire 5] Hk Hm)
                 (conj Hp Hl))))))))))).
Defined.

(** C2 as the specification words it, at the two overlapping updates of
    module A.  Two updates were triggered, so two deep-update cycles exist;
    were each to stop polling after at most 5 attempts and to re-run its
    force-re-render once, at most 10 poll attempts and 2 warnings would
    follow.  The next twenty ticks of the event loop are twenty poll
    attempts; each finds Generation changed, warns and re-runs the deep
    update, so both instances are force-updated twenty more times and
    Generation stands at 22; and two polls are pending still, each with its
    [runLimit] at 0. *)
Lemma tail_poll_keeps_polling :
  w_generation overlapping = 2
  /\ tailWarnings (w_trace overlapping) = 0%nat
  /\ map t_callback (w_timers overlapping) =
     [TailCheck (VStr "A") 1 0 0; TailCheck (VStr "A") 2 1 0]
  /\ pollTicks (host:=quietHost) 20 overlapping = 20%nat
  /\ tailWarnings (w_trace chased) = 20%nat
  /\ forceUpdates 1 (w_trace chased) = (forceUpdates 1 (w_trace overlapping) + 20)%nat
  /\ forceUpdates 2 (w_trace chased) = (forceUpdates 2 (w_trace overlapping) + 20)%nat
  /\ w_generation chased = 22
  /\ map t_callback (w_timers chased) =
     [TailCheck (VStr "A") 21 20 0; TailCheck (VStr "A") 22 21 0].
Proof. repeat apply conj; vm_compute; reflexivity. Qed.

(** C6 at a module whose [id] is 0 and whose [i] is the empty string. *)
Lemma hot_invalid_call_throws_witness :
  truthy (sm_id nameless) = false
  /\ truthy (sm_i nameless) = false
  /\ truthy (sm_filename nameless) = false
  /\ hot None (initialWorld false) = (Thrown noArgumentError, initialWorld false)
  /\ hot (Some nameless) (initialWorld false) =
     (Thrown noNameError,
      emit (ConsoleError [VStr "`module` provided"; VObject "module"]) (initialWorld false)).
Proof.
  destruct (hot_invalid_call_throws (initialWorld false)) as (Hnone & Hname & _).
  exact (conj eq_refl (conj eq_refl (conj eq_refl
           (conj Hnone (Hname nameless eq_refl eq_refl eq_refl))))).
Defined.

(** C7 at the unmount of the first of the two instances of module A. *)
Lemma componentWillUnmount_removes_witness :
  moduleInstances (VStr "A") (componentWillUnmount (host:=quietHost) first (mounted false)) =
  filter (fun a => a <> 1%nat) (moduleInstances (VStr "A") (mounted false)).
Proof.
  exact (proj1 (componentWillUnmount_removes (host:=quietHost) first (mounted false))).
Defined.

(** C8 at module A, registered under Webpack at status [idle], with its two
    instances mounted. *)
Lemma statusHandler_apply_witness :
  sm_hot moduleA = Some webpackHot
  /\ hot_addStatusHandler webpackHot = true
  /\ hot_status webpackHot = "idle"
  /\ quiescent (mounted false)
  /\ w_statusHandlers (mounted false) = [VStr "A"]
  /\ w_statusHandlers (makeHotExport moduleA (VStr "A") (initialWorld false)) =
     (w_statusHandlers (initialWorld false) ++ [VStr "A"])%list
  /\ dispatchStatus (host:=quietHost) "apply" (mounted false) =
     updateInstances (host:=quietHost) (VStr "A") VUndefined (clearExceptions (mounted false))
  /\ step (host:=quietHost) (Status "apply") (mounted false) =
     step (host:=quietHost) (Notify (VStr "A") VUndefined) (clearExceptions (mounted false))
  /\ w_exceptions (step (host:=quietHost) (Status "apply") (mounted false)) = []
  /\ w_generation (step (host:=quietHost) (Status "apply") (mounted false)) =
     w_generation (mounted false) + 1
  /\ w_trace (step (host:=quietHost) (Status "apply") (mounted false)) =
     (w_trace (mounted false) ++ reloadTrace (host:=quietHost) (VStr "A")
        ++ batchTrace (host:=quietHost)
        ++ map ForceUpdate (moduleInstances (VStr "A") (mounted false)))%list.
Proof.
  assert (Hh : w_statusHandlers (mounted false) = [VStr "A"]) by (vm_compute; reflexivity).
  destruct (statusHandler_apply (host:=quietHost) (VStr "A") (initialWorld false))
    as (_ & _ & _ & _ & _ & Hreg & _).
  destruct (statusHandler_apply (host:=quietHost) (VStr "A") (mounted false))
    as (_ & _ & _ & _ & _ & _ & Hdisp & _ & _ & Hjob).
  destruct (Hjob (mounted_quiescent false) Hh) as (Hsame & Hx & Hg & Ht & _).
  exact (conj eq_refl (conj eq_refl (conj eq_refl (conj (mounted_quiescent false) (conj Hh
           (conj (Hreg moduleA webpackHot eq_refl eq_refl eq_refl)
              (conj (Hdisp Hh) (conj Hsame (conj Hx (conj Hg Ht)))))))))).
Defined.

(** C10 at the wrapper of module A, called twice. *)
Lemma exportWrapper_registers_once_witness :
  hot (Some moduleA) (initialWorld false) =
    (Returned wrapperA, snd (hot (Some moduleA) (initialWorld false)))
  /\ firstHotRegistered wrapperA (snd (hot (Some moduleA) (initialWorld false))) = false
  /\ firstHotRegistered wrapperA
       (snd (exportWrapper (host:=quietHost) wrapperA App []
               (snd (hot (Some moduleA) (initialWorld false))))) = true.
Proof.
  assert (Hhot : hot (Some moduleA) (initialWorld false) =
                 (Returned wrapperA, snd (hot (Some moduleA) (initialWorld false))))
    by (vm_compute; reflexivity).
  destruct (exportWrapper_registers_once (host:=quietHost) wrapperA App [] (initialWorld false))
    as (_ & _ & _ & _ & _ & _ & _ & Hfresh).
  destruct (exportWrapper_registers_once (host:=quietHost) wrapperA App []
              (snd (hot (Some moduleA) (initialWorld false))))
    as (_ & _ & _ & Hset & _).
  exact (conj Hhot (conj (proj1 (Hfresh moduleA wrapperA _ Hhot)) Hset)).
Defined.

(** ** The further properties at these scenarios *)

(** X2 at the wrapper of module A, after an update and a second evaluation
    of the module. *)
Lemma registration_flag_persists_witness :
  firstHotRegistered wrapperA (mounted false) = true
  /\ (ew_ident wrapperA < w_nextHot (mounted false))%nat
  /\ firstHotRegistered wrapperA
       (run (host:=quietHost) [Notify (VStr "A") VUndefined; CallHot (Some moduleAReloading)]
          (mounted false)) = true.
Proof.
  assert (Hf : firstHotRegistered wrapperA (mounted false) = true) by (vm_compute; reflexivity).
  assert (Hn : (ew_ident wrapperA < w_nextHot (mounted false))%nat) by (vm_compute; lia).
  exact (conj Hf (conj Hn
    (proj1 (registration_flag_persists (host:=quietHost) wrapperA
              [Notify (VStr "A") VUndefined; CallHot (Some moduleAReloading)]
              (mounted false) Hf Hn)))).
Defined.

Lemma mounted_no_timer (track : bool) : w_timers (mounted track) = [].
Proof. destruct track; vm_compute; reflexivity. Defined.

(** X3 at module A with tail updates not tracked. *)
Lemma no_poll_when_untracked_witness :
  w_trackTailUpdates (mounted false) = false
  /\ noPollPending (mounted false)
  /\ attempts (host:=quietHost) 0 [Notify (VStr "A") VUndefined; Fire 2; Fire 3] (mounted false)
     = 0%nat.
Proof.
  assert (Ht : w_trackTailUpdates (mounted false) = false) by (vm_compute; reflexivity).
  assert (Hp : noPollPending (mounted false)).
  { unfold noPollPending. rewrite mounted_no_timer. constructor. }
  exact (conj Ht (conj Hp
    (proj1 (no_poll_when_untracked (host:=quietHost)
              [Notify (VStr "A") VUndefined; Fire 2; Fire 3] (mounted false) Ht Hp) 0%nat))).
Defined.

(** X4 at the mount of a third instance. *)
Lemma setup_jobs_never_update_witness :
  isSetupJob (DidMount first) = true
  /\ w_generation (act (host:=quietHost) (DidMount first) (mounted true)) =
     w_generation (mounted true).
Proof.
  exact (conj eq_refl
    (proj1 (setup_jobs_never_update (host:=quietHost) (DidMount first) (mounted true) eq_refl))).
Defined.

Lemma hot_moduleB_returns :
  hot (Some moduleB) (initialWorld false) = (Returned wrapperB, registeredB).
Proof. vm_compute. reflexivity. Defined.

(** X5 at module B, which has no [hot]. *)
Lemma hot_without_hmr_witness :
  hot (Some moduleB) (initialWorld false) = (Returned wrapperB, registeredB)
  /\ sm_hot moduleB = None
  /\ w_trace registeredB =
     (w_trace (initialWorld false)
        ++ [LoggerWarn "React-hot-loader: Hot Module Replacement is not enabled"])%list
  /\ w_statusHandlers registeredB = w_statusHandlers (initialWorld false).
Proof.
  destruct (hot_without_hmr moduleB (initialWorld false) wrapperB registeredB
              hot_moduleB_returns eq_refl) as (Ht & _ & Hs & _).
  exact (conj hot_moduleB_returns (conj eq_refl (conj Ht Hs))).
Defined.

(** X6 at module A evaluated again during [apply]: no second status
    handler. *)
Lemma hot_subscription_rule_witness :
  hot (Some moduleAReloading) (mounted false) =
    (Returned {| ew_ident := 1; ew_sourceModule := moduleAReloading;
                 ew_moduleId := VStr "A"; ew_failbackTimer := 2 |},
     snd (hot (Some moduleAReloading) (mounted false)))
  /\ sm_hot moduleAReloading = Some {| hot_addStatusHandler := true; hot_status := "apply" |}
  /\ w_statusHandlers (snd (hot (Some moduleAReloading) (mounted false))) =
     (w_statusHandlers (mounted false) ++ [])%list
  /\ w_acceptHandlers (snd (hot (Some moduleAReloading) (mounted false))) =
     (w_acceptHandlers (mounted false) ++ [VStr "A"])%list.
Proof.
  assert (Hhot : hot (Some moduleAReloading) (mounted false) =
    (Returned {| ew_ident := 1; ew_sourceModule := moduleAReloading;
                 ew_moduleId := VStr "A"; ew_failbackTimer := 2 |},
     snd (hot (Some moduleAReloading) (mounted false)))) by (vm_compute; reflexivity).
  destruct (hot_subscription_rule moduleAReloading _ (mounted false) _ _ Hhot eq_refl)
    as (_ & Ha & Hs).
  exact (conj Hhot (conj eq_refl (conj Hs Ha))).
Defined.

(** X8 at two mounts and one unmount of module A's instances. *)
Lemma registry_tracks_lifecycle_witness :
  Forall (fun ev => instModuleId (lifecycleInstance ev) = VStr "A") mountMountUnmount
  /\ (2%nat ∈ moduleInstances (VStr "A") (lifecycleRun (host:=quietHost) mountMountUnmount
                                            (initialWorld false))
      <-> mountedAfter 2 mountMountUnmount
            (bool_decide (2%nat ∈ moduleInstances (VStr "A") (initialWorld false))) = true).
Proof.
  assert (Hall : Forall (fun ev => instModuleId (lifecycleInstance ev) = VStr "A")
                   mountMountUnmount) by (repeat constructor).
  exact (conj Hall
    (registry_tracks_lifecycle (host:=quietHost) (VStr "A") mountMountUnmount
       (initialWorld false) 2%nat Hall)).
Defined.

(** X11 at modules A and B registered on a fresh page, A exported. *)
Lemma wrapper_clears_only_its_timer_witness :
  timersFresh (initialWorld false)
  /\ hot (Some moduleA) (initialWorld false) =
     (Returned wrapperA, snd (hot (Some moduleA) (initialWorld false)))
  /\ hot (Some moduleB) (snd (hot (Some moduleA) (initialWorld false))) =
     (Returned wrapperB2, registeredAB)
  /\ findTimer (ew_failbackTimer wrapperB2)
       (snd (exportWrapper (host:=quietHost) wrapperA App [] registeredAB)) =
     Some {| t_id := ew_failbackTimer wrapperB2; t_due := w_now (initialWorld false) + 100;
             t_callback := FailbackFire (ew_moduleId wrapperB2) |}.
Proof.
  assert (Hf : timersFresh (initialWorld false)) by constructor.
  assert (HA : hot (Some moduleA) (initialWorld false) =
               (Returned wrapperA, snd (hot (Some moduleA) (initialWorld false))))
    by (vm_compute; reflexivity).
  assert (HB : hot (Some moduleB) (snd (hot (Some moduleA) (initialWorld false))) =
               (Returned wrapperB2, registeredAB)) by (vm_compute; reflexivity).
  destruct (wrapper_clears_only_its_timer (host:=quietHost) moduleA moduleB _ _ _ _ _
              App [] Hf HA HB) as (_ & _ & Hfound & _).
  exact (conj Hf (conj HA (conj HB Hfound))).
Defined.

(** X12 at module B exported after its failback fired. *)
Lemma late_export_witness :
  findTimer (ew_failbackTimer wrapperB) (tick (host:=quietHost) registeredB) = None
  /\ w_exceptions (snd (exportWrapper (host:=quietHost) wrapperB App []
                          (tick (host:=quietHost) registeredB))) =
     w_exceptions (tick (host:=quietHost) registeredB).
Proof.
  assert (Hnone : findTimer (ew_failbackTimer wrapperB) (tick (host:=quietHost) registeredB)
                  = None) by (vm_compute; reflexivity).
  destruct (late_export (host:=quietHost) wrapperB App [] _ Hnone) as (_ & Hx & _).
  exact (conj Hnone Hx).
Defined.

(** X13 at an update of module A with tail updates tracked. *)
Lemma undisturbed_poll_ends_witness :
  quiescent (mounted true)
  /\ w_timers (mounted true) = []
  /\ w_trackTailUpdates (mounted true) = true
  /\ w_timers (Nat.iter 5 (tick (host:=quietHost))
                 (step (host:=quietHost) (Notify (VStr "A") VUndefined) (mounted true))) = []
  /\ w_now (Nat.iter 5 (tick (host:=quietHost))
              (step (host:=quietHost) (Notify (VStr "A") VUndefined) (mounted true))) =
     w_now (mounted true) + 80.
Proof.
  assert (Ht : w_trackTailUpdates (mounted true) = true) by (vm_compute; reflexivity).
  destruct (undisturbed_poll_ends (host:=quietHost) (VStr "A") (mounted true)
              (mounted_quiescent true) (mounted_no_timer true) Ht)
    as (_ & Hti & Hnow & _).
  exact (conj (mounted_quiescent true) (conj (mounted_no_timer true) (conj Ht (conj Hti Hnow)))).
Defined.

(** X14 at a status report with module A subscribed. *)
Lemma apply_updates_every_subscriber_witness :
  quiescent (mounted false)
  /\ w_generation (step (host:=quietHost) (Status "apply") (mounted false)) =
     w_generation (mounted false) + Z.of_nat (length (w_statusHandlers (mounted false))).
Proof.
  exact (conj (mounted_quiescent false)
    (proj1 (apply_updates_every_subscriber (host:=quietHost) (mounted false)
              (mounted_quiescent false)))).
Defined.
